(** * getRecipe.py: recipe ingestion with a local identifier cache

    A shallow embedding of [src/getRecipe.py] (Python 3) and the
    properties its specification states about it.

    Conventions of the embedding.
    - A Python [str] is a list of Unicode code points ([pystr]); the ASCII
      literals of the program are written [py "..."].
    - Python dictionaries whose keys are literals of the program
      ([nutritional_info]) are [gmap string _]; dictionaries keyed by data
      are [gmap pystr _] or, inside JSON values, insertion-ordered
      association lists.
    - Code that can raise returns a [result]; code that also touches the
      cache, the cache file, the document store or the console runs in
      the state-and-exception monad [M] over [World].
    - The libraries the program calls ([re], [json], [int], [requests],
      the document store) are modelled by what they do on the values that
      reach them here.  The cache file is held by what reading it as
      text gives: its text, or the refusal of the codec.  The limits of
      the interpreter on a JSON text (the nesting of arrays and objects,
      the digits of an integer) are those of CPython 3.11 as it starts.
      Outside the model: failures of the file system on opening and on
      writing the cache file, and failures of the listing of the
      collection. *)

From Stdlib Require Import ZArith NArith List String Ascii Bool Lia DecimalString DecimalPos DecimalZ.
From stdpp Require Import gmap strings list fin_maps.
Import ListNotations.

Set Warnings "-register-all".

Local Open Scope N_scope.

(** ** Strings *)

Abbreviation pystr := (list N).

(** A literal of the program text, as the code points of its characters. *)
Definition py (s : string) : pystr :=
  List.map N_of_ascii (list_ascii_of_string s).

(** [s.startswith(p)], giving back the remainder. *)
Fixpoint strip_prefix (p s : pystr) : option pystr :=
  match p, s with
  | [], _ => Some s
  | _ :: _, [] => None
  | a :: p', b :: s' => if a =? b then strip_prefix p' s' else None
  end.

Definition starts_with (p s : pystr) : bool :=
  match strip_prefix p s with Some _ => true | None => false end.

(** ** Character classes of [re] on [str] patterns *)

Definition in_range (lo hi c : N) : bool := (lo <=? c) && (c <=? hi).

Definition is_ascii_digit (c : N) : bool := in_range 48 57 c.
Definition is_ascii_letter (c : N) : bool := in_range 65 90 c || in_range 97 122 c.

(** First code point of every run of ten decimal digits (general category
    Nd, Unicode 15): the run starting at [z] holds the digits of value
    [0..9] at [z..z+9]. *)
Definition unicode_Nd_zeros : list N :=
  [ 0x0030; 0x0660; 0x06F0; 0x07C0; 0x0966; 0x09E6; 0x0A66; 0x0AE6; 0x0B66;
    0x0BE6; 0x0C66; 0x0CE6; 0x0D66; 0x0DE6; 0x0E50; 0x0ED0; 0x0F20; 0x1040;
    0x1090; 0x17E0; 0x1810; 0x1946; 0x19D0; 0x1A80; 0x1A90; 0x1B50; 0x1BB0;
    0x1C40; 0x1C50; 0xA620; 0xA8D0; 0xA900; 0xA9D0; 0xA9F0; 0xAA50; 0xABF0;
    0xFF10; 0x104A0; 0x10D30; 0x11066; 0x110F0; 0x11136; 0x111D0; 0x112F0;
    0x11450; 0x114D0; 0x11650; 0x116C0; 0x11730; 0x118E0; 0x11950; 0x11C50;
    0x11D50; 0x11DA0; 0x11F50; 0x16A60; 0x16AC0; 0x16B50; 0x1D7CE; 0x1D7D8;
    0x1D7E2; 0x1D7EC; 0x1D7F6; 0x1E140; 0x1E2F0; 0x1E4F0; 0x1E950; 0x1FBF0 ].

(** The decimal value of a digit character, if it is one. *)
Fixpoint digit_value_in (zeros : list N) (c : N) : option N :=
  match zeros with
  | [] => None
  | z :: zeros' =>
      if in_range z (z + 9) c then Some (c - z) else digit_value_in zeros' c
  end.

Definition unicode_decimal (c : N) : option N := digit_value_in unicode_Nd_zeros c.

(** [\d]: any Unicode decimal digit; [\D] is its complement. *)
Definition re_d (c : N) : bool :=
  match unicode_decimal c with Some _ => true | None => false end.

(** [\s]: Unicode whitespace, as [str.isspace]. *)
Definition re_s (c : N) : bool :=
  in_range 0x09 0x0D c || in_range 0x1C 0x20 c || (c =? 0x85) || (c =? 0xA0)
  || (c =? 0x1680) || in_range 0x2000 0x200A c || (c =? 0x2028)
  || (c =? 0x2029) || (c =? 0x202F) || (c =? 0x205F) || (c =? 0x3000).

(** [.] without DOTALL: anything but a line feed. *)
Definition re_dot (c : N) : bool := negb (c =? 10).

(** ** [extract_and_categorize] *)

(** [.*?] followed by the literal [close], tried at the head of [s]: the
    shortest run of [.] characters after which [close] follows.  Gives
    the run (the group) and the text after [close]. *)
Fixpoint lazy_dot_until (close s : pystr) : option (pystr * pystr) :=
  match strip_prefix close s with
  | Some rest => Some ([], rest)
  | None =>
      match s with
      | [] => None
      | c :: s' =>
          if re_dot c then
            match lazy_dot_until close s' with
            | Some (g, rest) => Some (c :: g, rest)
            | None => None
            end
          else None
      end
  end.

(** [<b>(.*?)</b>] tried at the head of [s]. *)
Definition match_b_tag (s : pystr) : option (pystr * pystr) :=
  match strip_prefix (py "<b>") s with
  | Some s1 => lazy_dot_until (py "</b>") s1
  | None => None
  end.

(** The scan of [re.findall]: try the pattern at the current position;
    on a match keep the group and go on after the match, otherwise move
    one character ahead.  [fuel] bounds the number of positions tried. *)
Fixpoint findall_b_from (fuel : nat) (s : pystr) : list pystr :=
  match fuel with
  | O => []
  | S fuel' =>
      match match_b_tag s with
      | Some (g, rest) => g :: findall_b_from fuel' rest
      | None =>
          match s with
          | [] => []
          | _ :: s' => findall_b_from fuel' s'
          end
      end
  end.

(** [re.findall(r'<b>(.*?)</b>', text)] *)
Definition findall_b (text : pystr) : list pystr :=
  findall_b_from (S (length text)) text.

(** [\d+] followed by the literal [lit], tried at the head of [s]: one
    digit, then either the literal or more digits. *)
Fixpoint match_digits_then (lit s : pystr) : bool :=
  match s with
  | [] => false
  | c :: s' => re_d c && (starts_with lit s' || match_digits_then lit s')
  end.

(** [re.search] of [\d+lit]: the pattern tried at every position. *)
Fixpoint re_search_digits_then (lit s : pystr) : bool :=
  match_digits_then lit s
  || match s with
     | [] => false
     | _ :: s' => re_search_digits_then lit s'
     end.

(** The [categories] dictionary, in insertion order.  Every pattern is
    [\d+] followed by a literal; an entry holds the category name and that
    literal. *)
Definition categories : list (string * pystr) :=
  [ ("Cost per serving"%string, py " cents per serving");
    ("Protein"%string, py "g of protein");
    ("Fat"%string, py "g of fat");
    ("Calories"%string, py " calories") ].

(** The class [[0-9a-zA-Z\s]] whose complement [re.sub] deletes. *)
Definition keeps (c : N) : bool := is_ascii_digit c || is_ascii_letter c || re_s c.

(** [re.sub(r'[^0-9a-zA-Z\s]', '', tag)] *)
Definition clean (tag : pystr) : pystr := List.filter keeps tag.

(** The inner loop over [categories.items()] for one tag: the first
    pattern found stores the cleaned tag and breaks. *)
Fixpoint categorize_tag (cats : list (string * pystr)) (tag : pystr)
    (categorized_data : gmap string pystr) : gmap string pystr :=
  match cats with
  | [] => categorized_data
  | (category, lit) :: cats' =>
      if re_search_digits_then lit tag
      then <[category := clean tag]> categorized_data
      else categorize_tag cats' tag categorized_data
  end.

(** The outer loop over [b_tags]. *)
Definition categorize_tags (b_tags : list pystr) (start : gmap string pystr)
    : gmap string pystr :=
  fold_left (fun data tag => categorize_tag categories tag data) b_tags start.

Definition extract_and_categorize (text : pystr) : gmap string pystr :=
  categorize_tags (findall_b text) ∅.


(** *** Reading of [extract_and_categorize] in the words of its contract *)

(** The category of a fragment: the first of the fixed order
    Cost per serving, Protein, Fat, Calories whose pattern it matches. *)
Definition classify (tag : pystr) : option string :=
  match List.find (fun entry => re_search_digits_then (snd entry) tag) categories with
  | Some entry => Some (fst entry)
  | None => None
  end.

(** A text cut into plain stretches and bold-wrapped fragments. *)
Inductive segment :=
| Plain (s : pystr)
| Bold (s : pystr).

Definition render (seg : segment) : pystr :=
  match seg with
  | Plain s => s
  | Bold s => py "<b>" ++ s ++ py "</b>"
  end.

Definition render_all (segs : list segment) : pystr := concat (List.map render segs).

Fixpoint bold_of (segs : list segment) : list pystr :=
  match segs with
  | [] => []
  | Plain _ :: segs' => bold_of segs'
  | Bold s :: segs' => s :: bold_of segs'
  end.

(** No markup inside a stretch: no ['<']; a fragment also holds no line
    feed, which [.] does not cross. *)
Definition no_lt (s : pystr) : bool := forallb (fun c => negb (c =? 60)) s.

Definition segment_ok (seg : segment) : bool :=
  match seg with
  | Plain s => no_lt s
  | Bold s => no_lt s && forallb re_dot s
  end.

(** The fragments [frags] lie in [text] bold-wrapped, one after the other
    and in this order. *)
Inductive bold_split : pystr -> list pystr -> Prop :=
| bold_split_nil text : bold_split text []
| bold_split_cons pre g rest frags :
    bold_split rest frags ->
    bold_split (pre ++ py "<b>" ++ g ++ py "</b>" ++ rest) (g :: frags).

(** ** Exceptions and results *)

(** The exceptions the program can meet; all are subclasses of
    [Exception]. *)
Inductive exn :=
| KeyError (key : string)
| ValueError (msg : string)
| TypeError (msg : string)
| AttributeError (msg : string)
| JSONDecodeError
| RecursionError
| UnicodeDecodeError
| RequestException (msg : string)
| StoreError (msg : string).

Inductive result (A : Type) :=
| Ok (a : A)
| Raise (e : exn).
Arguments Ok {A} a.
Arguments Raise {A} e.

Definition rbind {A B} (r : result A) (k : A -> result B) : result B :=
  match r with
  | Ok a => k a
  | Raise e => Raise e
  end.

Declare Scope result_scope.
Delimit Scope result_scope with result.
Notation "x <- r ;; k" := (rbind r (fun x => k))
  (at level 100, r at next level, right associativity) : result_scope.

(** [d[key]] on a field that may be missing. *)
Definition getitem {A} (key : string) (field : option A) : result A :=
  match field with
  | Some v => Ok v
  | None => Raise (KeyError key)
  end.

(** [d.get(key, default)] *)
Definition get_default {A} (field : option A) (default : A) : A :=
  match field with
  | Some v => v
  | None => default
  end.

(** ** Python values that JSON can hold *)

(** A number is kept as the token that denotes it; a dictionary keeps its
    keys in insertion order. *)
Inductive pyval :=
| PNone
| PBool (b : bool)
| PNum (tok : pystr)
| PStr (s : pystr)
| PList (items : list pyval)
| PDict (entries : list (pystr * pyval)).

(** [d.get(k)] on the entries of a dictionary. *)
Fixpoint dict_get (k : pystr) (entries : list (pystr * pyval)) : option pyval :=
  match entries with
  | [] => None
  | (k', v) :: entries' => if decide (k = k') then Some v else dict_get k entries'
  end.

(** [d[k] = v]: the value of an existing key is replaced where it stands,
    a new key goes to the end. *)
Fixpoint dict_set (k : pystr) (v : pyval) (entries : list (pystr * pyval))
    : list (pystr * pyval) :=
  match entries with
  | [] => [(k, v)]
  | (k', v') :: entries' =>
      if decide (k = k') then (k, v) :: entries' else (k', v') :: dict_set k v entries'
  end.

(** [dict(pairs)] *)
Definition dict_of_pairs (pairs : list (pystr * pyval)) : list (pystr * pyval) :=
  fold_left (fun d kv => dict_set (fst kv) (snd kv) d) pairs [].

(** ** [json.dump] with its default settings *)

Definition hex_digit (n : N) : N := if n <? 10 then 48 + n else 87 + n.

(** ['\\u{0:04x}'.format(n)] for [n < 0x10000] *)
Definition u_escape (n : N) : pystr :=
  [92; 117; hex_digit (n / 4096); hex_digit ((n / 256) mod 16);
   hex_digit ((n / 16) mod 16); hex_digit (n mod 16)].

(** The replacement of one character under [ensure_ascii]: the short
    escapes, the printable ASCII characters as they are, [\uXXXX] for the
    rest, as a surrogate pair above the basic plane. *)
Definition escape_char (c : N) : pystr :=
  if c =? 34 then [92; 34]
  else if c =? 92 then [92; 92]
  else if c =? 10 then [92; 110]
  else if c =? 13 then [92; 114]
  else if c =? 9 then [92; 116]
  else if c =? 8 then [92; 98]
  else if c =? 12 then [92; 102]
  else if in_range 32 126 c then [c]
  else if c <? 0x10000 then u_escape c
  else
    let n := c - 0x10000 in
    u_escape (0xD800 + (n / 1024) mod 1024) ++ u_escape (0xDC00 + n mod 1024).

Definition encode_string (s : pystr) : pystr :=
  34 :: flat_map escape_char s ++ [34].

(** [sep.join(parts)] *)
Fixpoint join (sep : pystr) (parts : list pystr) : pystr :=
  match parts with
  | [] => []
  | [p] => p
  | p :: parts' => p ++ sep ++ join sep parts'
  end.

(** [json.dumps(v)]: separators [', '] and [': '].  A number is written by
    its token, where Python writes the number's own [repr], which denotes
    the same number. *)
Fixpoint json_dumps (v : pyval) : pystr :=
  match v with
  | PNone => py "null"
  | PBool true => py "true"
  | PBool false => py "false"
  | PNum tok => tok
  | PStr s => encode_string s
  | PList items => py "[" ++ join (py ", ") (List.map json_dumps items) ++ py "]"
  | PDict entries =>
      py "{"
      ++ join (py ", ")
           (List.map (fun kv => encode_string (fst kv) ++ py ": " ++ json_dumps (snd kv))
              entries)
      ++ py "}"
  end.

(** ** [json.load] *)

(** The white space between tokens: space, tab, line feed, carriage
    return. *)
Definition is_json_ws (c : N) : bool :=
  (c =? 32) || (c =? 9) || (c =? 10) || (c =? 13).

Fixpoint skip_ws (s : pystr) : pystr :=
  match s with
  | c :: s' => if is_json_ws c then skip_ws s' else s
  | [] => []
  end.

Definition hex_digit_value (c : N) : option N :=
  if in_range 48 57 c then Some (c - 48)
  else if in_range 97 102 c then Some (c - 87)
  else if in_range 65 70 c then Some (c - 55)
  else None.

(** The four hexadecimal digits of a [\uXXXX] escape. *)
Definition decode_u4 (s : pystr) : option (N * pystr) :=
  match s with
  | a :: b :: c :: d :: rest =>
      match hex_digit_value a, hex_digit_value b, hex_digit_value c, hex_digit_value d with
      | Some x3, Some x2, Some x1, Some x0 =>
          Some (((x3 * 16 + x2) * 16 + x1) * 16 + x0, rest)
      | _, _, _, _ => None
      end
  | _ => None
  end.

(** The character a one-letter escape stands for. *)
Definition simple_escape (c : N) : option N :=
  if c =? 34 then Some 34
  else if c =? 92 then Some 92
  else if c =? 47 then Some 47
  else if c =? 98 then Some 8
  else if c =? 102 then Some 12
  else if c =? 110 then Some 10
  else if c =? 114 then Some 13
  else if c =? 116 then Some 9
  else None.

(** A [\uXXXX] escape whose digits are already read as [uni], followed by
    [rest]: a high surrogate takes a following [\uXXXX] low surrogate
    with it. *)
Definition join_surrogates (uni : N) (rest : pystr) : option (N * pystr) :=
  if in_range 0xD800 0xDBFF uni then
    match strip_prefix [92; 117] rest with
    | Some rest1 =>
        match decode_u4 rest1 with
        | Some (uni2, rest2) =>
            if in_range 0xDC00 0xDFFF uni2
            then Some (0x10000 + ((uni - 0xD800) * 1024 + (uni2 - 0xDC00)), rest2)
            else Some (uni, rest)
        | None => None
        end
    | None => Some (uni, rest)
    end
  else Some (uni, rest).

(** One character of a string literal read at the head of [s], with what
    follows it; [inl] at the closing quote.  Control characters are
    refused (strict mode). *)
Definition scan_char (s : pystr) : option ((pystr + N) * pystr) :=
  match s with
  | [] => None
  | c :: s1 =>
      if c =? 34 then Some (inl [], s1)
      else if c =? 92 then
        match s1 with
        | [] => None
        | esc :: s2 =>
            if esc =? 117 then
              match decode_u4 s2 with
              | Some (uni, s3) =>
                  match join_surrogates uni s3 with
                  | Some (ch, s4) => Some (inr ch, s4)
                  | None => None
                  end
              | None => None
              end
            else
              match simple_escape esc with
              | Some ch => Some (inr ch, s2)
              | None => None
              end
        end
      else if c <? 32 then None
      else Some (inr c, s1)
  end.

(** [scanstring]: the text after an opening quote up to the closing one,
    decoded, and what follows it. *)
Fixpoint scanstring (fuel : nat) (s : pystr) : option (pystr * pystr) :=
  match fuel with
  | O => None
  | S fuel' =>
      match scan_char s with
      | Some (inl _, rest) => Some ([], rest)
      | Some (inr ch, rest) =>
          match scanstring fuel' rest with
          | Some (str, rest') => Some (ch :: str, rest')
          | None => None
          end
      | None => None
      end
  end.

(** The longest run of ASCII digits at the head of [s]. *)
Fixpoint span_digits (s : pystr) : pystr * pystr :=
  match s with
  | c :: s' =>
      if is_ascii_digit c
      then let (ds, rest) := span_digits s' in (c :: ds, rest)
      else ([], s)
  | [] => ([], [])
  end.

(** The integer part: an optional minus sign, then a single 0 or a run
    of digits that does not start with 0. *)
Definition scan_int_part (s : pystr) : option (pystr * pystr) :=
  let (sign, s1) :=
    match s with
    | c :: s' => if c =? 45 then ([45], s') else ([], s)
    | [] => ([], s)
    end in
  match s1 with
  | c :: s2 =>
      if c =? 48 then Some (sign ++ [48], s2)
      else if in_range 49 57 c
      then let (ds, rest) := span_digits s2 in Some (sign ++ c :: ds, rest)
      else None
  | [] => None
  end.

(** The optional fraction: a point and at least one digit. *)
Definition scan_frac (s : pystr) : pystr * pystr :=
  match s with
  | c :: s1 =>
      if c =? 46 then
        match span_digits s1 with
        | ([], _) => ([], s)
        | (ds, rest) => (46 :: ds, rest)
        end
      else ([], s)
  | [] => ([], s)
  end.

(** The optional exponent: e or E, an optional sign, at least one
    digit. *)
Definition scan_exp (s : pystr) : pystr * pystr :=
  match s with
  | c :: s1 =>
      if (c =? 101) || (c =? 69) then
        let (sign, s2) :=
          match s1 with
          | c1 :: s1' => if (c1 =? 45) || (c1 =? 43) then ([c1], s1') else ([], s1)
          | [] => ([], s1)
          end in
        match span_digits s2 with
        | ([], _) => ([], s)
        | (ds, rest) => (c :: sign ++ ds, rest)
        end
      else ([], s)
  | [] => ([], s)
  end.

(** The interpreter's limit on the digits of a string that [int]
    converts ([sys.int_info.default_max_str_digits]). *)
Definition int_max_str_digits : nat := 4300.

(** The value of a number token.  A token without fraction and exponent
    is converted by [int], which refuses more digits than the limit with
    a [ValueError]; any other token is converted by [float], which takes
    any length. *)
Definition number_of_token (int_part frac exp : pystr) : result pyval :=
  match frac, exp with
  | [], [] =>
      if (int_max_str_digits <? length (List.filter is_ascii_digit int_part))%nat
      then Raise (ValueError "Exceeds the limit (4300 digits) for integer string conversion")
      else Ok (PNum int_part)
  | _, _ => Ok (PNum (int_part ++ frac ++ exp))
  end.

(** A number token at the head of [s], by its parts. *)
Definition scan_number (s : pystr) : option (pystr * pystr * pystr * pystr) :=
  match scan_int_part s with
  | Some (int_part, s1) =>
      let (frac, s2) := scan_frac s1 in
      let (exp, s3) := scan_exp s2 in
      Some (int_part, frac, exp, s3)
  | None => None
  end.

(** A constant of the JSON syntax at the head of [s]. *)
Definition scan_constant (s : pystr) : result (pyval * pystr) :=
  match strip_prefix (py "null") s with
  | Some rest => Ok (PNone, rest)
  | None =>
  match strip_prefix (py "true") s with
  | Some rest => Ok (PBool true, rest)
  | None =>
  match strip_prefix (py "false") s with
  | Some rest => Ok (PBool false, rest)
  | None =>
  match scan_number s with
  | Some (int_part, frac, exp, rest) =>
      match number_of_token int_part frac exp with
      | Ok v => Ok (v, rest)
      | Raise e => Raise e
      end
  | None =>
  match strip_prefix (py "NaN") s with
  | Some rest => Ok (PNum (py "NaN"), rest)
  | None =>
  match strip_prefix (py "Infinity") s with
  | Some rest => Ok (PNum (py "Infinity"), rest)
  | None =>
  match strip_prefix (py "-Infinity") s with
  | Some rest => Ok (PNum (py "-Infinity"), rest)
  | None => Raise JSONDecodeError
  end end end end end end end.

(** The scanner: one value at the head of [s], and the text after it.
    [parse_elements] reads the items of an array up to its bracket,
    [parse_members] the pairs of an object up to its brace.  Text that is
    no JSON raises [JSONDecodeError].  [depth] is the number of arrays
    and objects that may still be entered one inside the other: the
    scanner calls itself for each, and the interpreter ends a call beyond
    its recursion limit with [RecursionError], before it looks at what
    the array or object holds.  [fuel] bounds the calls of this
    definition. *)
Fixpoint parse_value (fuel depth : nat) (s : pystr) : result (pyval * pystr) :=
  match fuel with
  | O => Raise JSONDecodeError
  | S fuel' =>
      match s with
      | [] => Raise JSONDecodeError
      | c :: s1 =>
          if c =? 34 then
            match scanstring (length s1) s1 with
            | Some (str, rest) => Ok (PStr str, rest)
            | None => Raise JSONDecodeError
            end
          else if c =? 123 then
            match depth with
            | O => Raise RecursionError
            | S depth' =>
                match skip_ws s1 with
                | c1 :: s2 =>
                    if c1 =? 125 then Ok (PDict [], s2)
                    else
                      match parse_members fuel' depth' (c1 :: s2) with
                      | Ok (pairs, rest) => Ok (PDict (dict_of_pairs pairs), rest)
                      | Raise e => Raise e
                      end
                | [] => Raise JSONDecodeError
                end
            end
          else if c =? 91 then
            match depth with
            | O => Raise RecursionError
            | S depth' =>
                match skip_ws s1 with
                | c1 :: s2 =>
                    if c1 =? 93 then Ok (PList [], s2)
                    else
                      match parse_elements fuel' depth' (c1 :: s2) with
                      | Ok (items, rest) => Ok (PList items, rest)
                      | Raise e => Raise e
                      end
                | [] => Raise JSONDecodeError
                end
            end
          else scan_constant s
      end
  end
with parse_elements (fuel depth : nat) (s : pystr) : result (list pyval * pystr) :=
  match fuel with
  | O => Raise JSONDecodeError
  | S fuel' =>
      match parse_value fuel' depth s with
      | Ok (v, rest) =>
          match skip_ws rest with
          | c :: rest1 =>
              if c =? 93 then Ok ([v], rest1)
              else if c =? 44 then
                match parse_elements fuel' depth (skip_ws rest1) with
                | Ok (items, rest2) => Ok (v :: items, rest2)
                | Raise e => Raise e
                end
              else Raise JSONDecodeError
          | [] => Raise JSONDecodeError
          end
      | Raise e => Raise e
      end
  end
with parse_members (fuel depth : nat) (s : pystr)
    : result (list (pystr * pyval) * pystr) :=
  match fuel with
  | O => Raise JSONDecodeError
  | S fuel' =>
      match s with
      | c :: s1 =>
          if c =? 34 then
            match scanstring (length s1) s1 with
            | Some (key, rest) =>
                match skip_ws rest with
                | c1 :: rest1 =>
                    if c1 =? 58 then
                      match parse_value fuel' depth (skip_ws rest1) with
                      | Ok (v, rest2) =>
                          match skip_ws rest2 with
                          | c2 :: rest3 =>
                              if c2 =? 125 then Ok ([(key, v)], rest3)
                              else if c2 =? 44 then
                                match parse_members fuel' depth (skip_ws rest3) with
                                | Ok (pairs, rest4) => Ok ((key, v) :: pairs, rest4)
                                | Raise e => Raise e
                                end
                              else Raise JSONDecodeError
                          | [] => Raise JSONDecodeError
                          end
                      | Raise e => Raise e
                      end
                    else Raise JSONDecodeError
                | [] => Raise JSONDecodeError
                end
            | None => Raise JSONDecodeError
            end
          else Raise JSONDecodeError
      | [] => Raise JSONDecodeError
      end
  end.

(** [json.loads(text)] when the interpreter leaves [depth] nested calls
    to the scanner: one value, white space allowed around it and nothing
    else after it. *)
Definition json_loads (depth : nat) (text : pystr) : result pyval :=
  match parse_value (2 * length text + 2) depth (skip_ws text) with
  | Ok (v, rest) =>
      match skip_ws rest with
      | [] => Ok v
      | _ :: _ => Raise JSONDecodeError
      end
  | Raise e => Raise e
  end.

(** ** Truth values *)

(** The number a run of ASCII digits writes. *)
Definition digit_chars_value (s : pystr) : Z :=
  fold_left (fun acc c => (10 * acc + Z.of_N (c - 48))%Z) s 0%Z.

(** Whether a number token denotes zero.  A token without fraction and
    exponent is an [int].  Any other is a [float], [m / 10^k] with [m] the
    digits of the mantissa: it is zero when [m] is, and also when it
    rounds to zero, which is at most half the least positive float,
    [2^-1075].  [NaN] and the infinities are not zero. *)
Definition number_is_zero (tok : pystr) : bool :=
  match scan_int_part tok with
  | None => false
  | Some (int_part, s1) =>
      let (frac, s2) := scan_frac s1 in
      let (exp, _) := scan_exp s2 in
      let frac_digits := List.filter is_ascii_digit frac in
      let m := digit_chars_value (List.filter is_ascii_digit int_part ++ frac_digits) in
      match frac, exp with
      | [], [] => (m =? 0)%Z
      | _, _ =>
          let e_abs := digit_chars_value (List.filter is_ascii_digit exp) in
          let e := if existsb (N.eqb 45) exp then (- e_abs)%Z else e_abs in
          let k := (Z.of_nat (length frac_digits) - e)%Z in
          (m =? 0)%Z || ((0 <? k)%Z && (m * 2 ^ 1075 <=? 10 ^ k)%Z)
      end
  end.

(** Truth value of an object, as [if] and [not] test it. *)
Definition truthy (v : pyval) : bool :=
  match v with
  | PNone => false
  | PBool b => b
  | PNum tok => negb (number_is_zero tok)
  | PStr s => match s with [] => false | _ => true end
  | PList items => match items with [] => false | _ => true end
  | PDict entries => match entries with [] => false | _ => true end
  end.

(** ** Records of the recipe source and of the document store *)

(** A record of the source, by the keys the program reads.  A key that is
    missing is [None]; a key that is there holds a value of the type the
    source documents for it.  Numbers the program formats ([amount]) are
    held by what [str] prints for them; values the program only hands on
    are [pyval]s. *)
Record Ingredient := {
  i_name : option pystr;
  i_amount : option pystr;
  i_unit : option pystr
}.

Record Equipment := { e_name : option pystr }.
Record Step := { s_equipment : option (list Equipment) }.
Record Instruction := { a_steps : option (list Step) }.

Record Recipe := {
  r_id : option Z;
  r_title : option pystr;
  r_extendedIngredients : option (list Ingredient);
  r_analyzedInstructions : option (list Instruction);
  r_summary : option pystr;
  r_instructions : option pyval;
  r_vegetarian : option pyval;
  r_vegan : option pyval;
  r_glutenFree : option pyval;
  r_dairyFree : option pyval;
  r_healthScore : option pyval;
  r_readyInMinutes : option pyval;
  r_servings : option pyval;
  r_image : option pyval;
  r_sourceUrl : option pyval
}.

(** The field map handed to [doc_ref.set]. *)
Record Document := {
  d_title : pystr;
  d_ingredients : gmap pystr pystr;
  d_instructions : pyval;
  d_vegetarian : pyval;
  d_vegan : pyval;
  d_glutenFree : pyval;
  d_dairyFree : pyval;
  d_healthiness : pyval;
  d_calories : Z;
  d_time : pyval;
  d_servings : pyval;
  d_image : pyval;
  d_source : pyval;
  d_equipment : list pystr;
  d_summary : pystr;
  d_nutritional : gmap string pystr;
  d_cost : pyval
}.

(** ** The pure steps of [store_recipes] *)

Local Open Scope result_scope.

(** A [for] loop that updates [acc] and can raise. *)
Fixpoint for_each {A S} (xs : list A) (acc : S) (body : A -> S -> result S) : result S :=
  match xs with
  | [] => Ok acc
  | x :: xs' => acc' <- body x acc ;; for_each xs' acc' body
  end.

(** [str(n)] of an integer. *)
Definition str_of_int (n : Z) : pystr :=
  py (DecimalString.NilZero.string_of_int (Z.to_int n)).

(** The dictionary comprehension over [recipe['extendedIngredients']]. *)
Definition ingredients_map_of (ingredients : list Ingredient) : result (gmap pystr pystr) :=
  for_each ingredients ∅ (fun ingredient acc =>
    name <- getitem "name" (i_name ingredient) ;;
    amount <- getitem "amount" (i_amount ingredient) ;;
    unit <- getitem "unit" (i_unit ingredient) ;;
    Ok (<[name := amount ++ py " " ++ unit]> acc)).

(** [extract_equipment]; the list of a set comes in no promised order,
    here in that of [elements]. *)
Definition extract_equipment (analyzed_instructions : list Instruction)
    : result (list pystr) :=
  equipment_set <-
    for_each analyzed_instructions (∅ : gset pystr) (fun instruction acc =>
      for_each (get_default (a_steps instruction) []) acc (fun step acc =>
        for_each (get_default (s_equipment step) []) acc (fun equipment acc =>
          name <- getitem "name" (e_name equipment) ;;
          Ok ({[name]} ∪ acc)))) ;;
  Ok (elements equipment_set).

(** The value of a string of decimal digits, most significant first. *)
Fixpoint digits_value (acc : Z) (s : pystr) : result Z :=
  match s with
  | [] => Ok acc
  | c :: s' =>
      match unicode_decimal c with
      | Some d => digits_value (10 * acc + Z.of_N d) s'
      | None => Raise (ValueError "invalid literal for int() with base 10")
      end
  end.

(** [int(s)] for the strings [re.sub(r'\D', '', _)] returns, which hold
    decimal digits only: the empty string is refused.  (Signs, underscores
    and surrounding white space, which [int] also reads, cannot occur.) *)
Definition py_int (s : pystr) : result Z :=
  match s with
  | [] => Raise (ValueError "invalid literal for int() with base 10")
  | _ :: _ => digits_value 0 s
  end.

(** The lines that set [caloriesInt]. *)
Definition derive_calories (nutritional_info : gmap string pystr) : result Z :=
  match nutritional_info !! "Calories"%string with
  | Some calories_str =>
      let calories_clean := List.filter re_d calories_str in
      py_int calories_clean
  | None => Ok 0%Z
  end.

(** Everything between the cache test and [doc_ref.set]: the field map
    of a new recipe, in the order the program evaluates it. *)
Definition build_document (recipe : Recipe) : result Document :=
  ingredients <- getitem "extendedIngredients" (r_extendedIngredients recipe) ;;
  ingredients_map <- ingredients_map_of ingredients ;;
  equipment_list <- extract_equipment (get_default (r_analyzedInstructions recipe) []) ;;
  let summary := get_default (r_summary recipe) [] in
  let nutritional_info := extract_and_categorize summary in
  caloriesInt <- derive_calories nutritional_info ;;
  title <- getitem "title" (r_title recipe) ;;
  instructions <- getitem "instructions" (r_instructions recipe) ;;
  summary_field <- getitem "summary" (r_summary recipe) ;;
  Ok {|
    d_title := title;
    d_ingredients := ingredients_map;
    d_instructions :=
      if truthy instructions then instructions
      else PStr (py "No instructions provided");
    d_vegetarian := get_default (r_vegetarian recipe) (PBool false);
    d_vegan := get_default (r_vegan recipe) (PBool false);
    d_glutenFree := get_default (r_glutenFree recipe) (PBool false);
    d_dairyFree := get_default (r_dairyFree recipe) (PBool false);
    d_healthiness := get_default (r_healthScore recipe) (PNum (py "0"));
    d_calories := caloriesInt;
    d_time := get_default (r_readyInMinutes recipe) (PNum (py "0"));
    d_servings := get_default (r_servings recipe) (PNum (py "0"));
    d_image := get_default (r_image recipe) (PStr []);
    d_source := get_default (r_sourceUrl recipe) (PStr []);
    d_equipment := equipment_list;
    d_summary := summary_field;
    d_nutritional := nutritional_info;
    d_cost :=
      match nutritional_info !! "Cost per serving"%string with
      | Some cost => PStr cost
      | None => PNum (py "0")
      end
  |}.

Local Close Scope result_scope.

(** ** The world of a run *)

(** What the program prints. *)
Inductive LogLine :=
| LogFetchError (e : exn)
| LogStored (title : pystr)
| LogDuplicate (title : pystr)
| LogStoreError (title : pystr) (e : exn)
| LogAllStored
| LogNothingToStore.

(** What a run does, in the order it does it: printing, the request to
    the source, the listing of the collection, a [doc_ref.set] that
    returned, an assignment [uid_cache[key] = True], a write of the cache
    file. *)
Inductive Event :=
| Printed (line : LogLine)
| HttpGet
| StoreList
| StoreSet (doc_id : pystr) (doc : Document)
| CacheAdd (key : pystr)
| FileWrite (text : pystr).

(** What is in a file opened for reading as text: the text that [read]
    returns, or bytes that the codec of the platform refuses, on which
    [read] raises [UnicodeDecodeError]. *)
Inductive FileContent :=
| FileText (text : pystr)
| FileUndecodable.

(** The global [uid_cache], the cache file ([None] when the path does not
    exist), the documents of the collection 'recipes' by identifier, and
    the events so far, oldest first. *)
Record World := {
  uid_cache : pyval;
  cache_file : option FileContent;
  firestore : gmap pystr Document;
  events : list Event
}.

(** The body of an HTTP response, by what [response.json()] and
    [data['recipes']] make of it: [json()] raises [e]; the decoded value
    is no object; it is an object, with or without the key 'recipes'. *)
Inductive HttpBody :=
| NotJson (e : exn)
| JsonNotObject
| JsonObject (recipes : option (list Recipe)).

Inductive HttpReply :=
| NetworkFailure (msg : string)
| HttpResponse (status : N) (body : HttpBody).

(** The outside of a run: the reply of the recipe source, and the error,
    if any, with which the document store refuses to set a document.
    The listing of the collection is taken to work, and so are the
    opening and the writing of the cache file. *)
Record Env := {
  http_reply : HttpReply;
  store_fault : pystr -> option string
}.

(** Programs that read and change the world and can raise; what was done
    before an exception stays done. *)
Definition M (A : Type) : Type := World -> result A * World.

Definition ret {A} (a : A) : M A := fun w => (Ok a, w).

Definition raise {A} (e : exn) : M A := fun w => (Raise e, w).

Definition bind {A B} (m : M A) (k : A -> M B) : M B :=
  fun w =>
    match m w with
    | (Ok a, w') => k a w'
    | (Raise e, w') => (Raise e, w')
    end.

Definition lift {A} (r : result A) : M A := fun w => (r, w).

(** [try: body except <class> as e: handler e], the class given by
    [catches]. *)
Definition try_except {A} (body : M A) (catches : exn -> bool) (handler : exn -> M A)
    : M A :=
  fun w =>
    match body w with
    | (Ok a, w') => (Ok a, w')
    | (Raise e, w') => if catches e then handler e w' else (Raise e, w')
    end.

Declare Scope M_scope.
Delimit Scope M_scope with M.
Notation "x <- m ;; k" := (bind m (fun x => k))
  (at level 100, m at next level, right associativity) : M_scope.
Notation "m ;; k" := (bind m (fun _ => k))
  (at level 100, right associativity) : M_scope.

Local Open Scope M_scope.

Definition emit (ev : Event) : M unit :=
  fun w =>
    (Ok tt,
     {| uid_cache := uid_cache w; cache_file := cache_file w;
        firestore := firestore w; events := events w ++ [ev] |}).

Definition print (line : LogLine) : M unit := emit (Printed line).

Definition get_uid_cache : M pyval := fun w => (Ok (uid_cache w), w).

Definition set_uid_cache (cache : pyval) : M unit :=
  fun w =>
    (Ok tt,
     {| uid_cache := cache; cache_file := cache_file w;
        firestore := firestore w; events := events w |}).

(** A [for] loop over [xs] in the world. *)
Fixpoint for_each_M {A} (xs : list A) (body : A -> M unit) : M unit :=
  match xs with
  | [] => ret tt
  | x :: xs' => body x ;; for_each_M xs' body
  end.

(** ** The cache store *)

Definition is_json_decode_error (e : exn) : bool :=
  match e with JSONDecodeError => true | _ => false end.

(** [f.read()] on the file opened as text. *)
Definition read_text (content : FileContent) : result pystr :=
  match content with
  | FileText text => Ok text
  | FileUndecodable => Raise UnicodeDecodeError
  end.

(** The nesting left to the scanner when [json.load] is called from
    [load_uid_cache]: with the recursion limit of 1000 that CPython 3.11
    starts with, and the calls from the script down to the scanner, the
    993rd array or object inside one another is refused. *)
Definition scanner_depth : nat := 992.

(** [json.load(f)] is [json.loads(f.read())]. *)
Definition json_load (content : FileContent) : result pyval :=
  (text <- read_text content ;; json_loads scanner_depth text)%result.

Definition load_uid_cache : M pyval :=
  fun w =>
    match cache_file w with
    | Some content =>
        try_except (lift (json_load content)) is_json_decode_error
          (fun _ => ret (PDict [])) w
    | None => (Ok (PDict []), w)
    end.

Definition save_uid_cache : M unit :=
  fun w =>
    let text := json_dumps (uid_cache w) in
    (Ok tt,
     {| uid_cache := uid_cache w; cache_file := Some (FileText text);
        firestore := firestore w; events := events w ++ [FileWrite text] |}).

(** [uid_cache[key] = True]; only a dictionary takes it. *)
Definition cache_setitem (key : pystr) : M unit :=
  cache <- get_uid_cache ;;
  match cache with
  | PDict entries =>
      set_uid_cache (PDict (dict_set key (PBool true) entries)) ;;
      emit (CacheAdd key)
  | _ => raise (TypeError "object does not support item assignment")
  end.

(** [recipes_ref.stream()], by the identifiers of the documents. *)
Definition stream_recipes : M (list pystr) :=
  emit StoreList ;;
  fun w => (Ok (List.map fst (map_to_list (firestore w))), w).

Definition initialize_uid_cache : M unit :=
  loaded <- load_uid_cache ;;
  set_uid_cache loaded ;;
  cache <- get_uid_cache ;;
  if negb (truthy cache) then
    docs <- stream_recipes ;;
    for_each_M docs cache_setitem ;;
    save_uid_cache
  else ret tt.

(** [uid_cache.get(str(recipe_id), False)] *)
Definition recipe_exists (recipe_id : Z) : M pyval :=
  cache <- get_uid_cache ;;
  match cache with
  | PDict entries =>
      ret (get_default (dict_get (str_of_int recipe_id) entries) (PBool false))
  | _ => raise (AttributeError "object has no attribute 'get'")
  end.

(** The two statements that add an identifier: the assignment and the
    rewrite of the file. *)
Definition cache_add (key : pystr) : M unit :=
  cache_setitem key ;;
  save_uid_cache.

(** ** The recipe source client *)

Definition is_request_exception (e : exn) : bool :=
  match e with RequestException _ => true | _ => false end.

(** [raise_for_status] raises for the client and server error codes. *)
Definition is_error_status (status : N) : bool := in_range 400 599 status.

Definition fetch_recipes (env : Env) : M (list Recipe) :=
  try_except
    (emit HttpGet ;;
     match http_reply env with
     | NetworkFailure msg => raise (RequestException msg)
     | HttpResponse status body =>
         if is_error_status status then raise (RequestException "HTTPError")
         else
           match body with
           | NotJson e => raise e
           | JsonNotObject => raise (TypeError "indices must be integers")
           | JsonObject recipes => lift (getitem "recipes" recipes)
           end
     end)
    is_request_exception
    (fun e => print (LogFetchError e) ;; ret []).

(** ** The ingestion pipeline *)

(** [doc_ref.set(doc)] on the document [doc_id] of 'recipes': create or
    overwrite, unless the store refuses. *)
Definition store_set (env : Env) (doc_id : pystr) (doc : Document) : M unit :=
  match store_fault env doc_id with
  | Some msg => raise (StoreError msg)
  | None =>
      (fun w =>
         (Ok tt,
          {| uid_cache := uid_cache w; cache_file := cache_file w;
             firestore := <[doc_id := doc]> (firestore w);
             events := events w |})) ;;
      emit (StoreSet doc_id doc)
  end.

(** The body of the [try] for one recipe. *)
Definition store_recipe (env : Env) (recipe : Recipe) : M unit :=
  recipe_id <- lift (getitem "id" (r_id recipe)) ;;
  known <- recipe_exists recipe_id ;;
  if negb (truthy known) then
    doc <- lift (build_document recipe) ;;
    store_set env (str_of_int recipe_id) doc ;;
    title <- lift (getitem "title" (r_title recipe)) ;;
    print (LogStored title) ;;
    cache_add (str_of_int recipe_id)
  else
    title <- lift (getitem "title" (r_title recipe)) ;;
    print (LogDuplicate title).

(** The [except Exception as e] clause: it prints the title again. *)
Definition report_failure (recipe : Recipe) (e : exn) : M unit :=
  title <- lift (getitem "title" (r_title recipe)) ;;
  print (LogStoreError title e).

Fixpoint store_recipes (env : Env) (recipes : list Recipe) : M unit :=
  match recipes with
  | [] => ret tt
  | recipe :: recipes' =>
      try_except (store_recipe env recipe) (fun _ => true) (report_failure recipe) ;;
      store_recipes env recipes'
  end.

(** The script: [if recipes:] tests the list for emptiness. *)
Definition main (env : Env) : M unit :=
  initialize_uid_cache ;;
  recipes <- fetch_recipes env ;;
  match recipes with
  | _ :: _ =>
      store_recipes env recipes ;;
      print LogAllStored
  | [] => print LogNothingToStore
  end.

Local Close Scope M_scope.

(** ** Sample data *)

(** A record with no key at all. *)
Definition bare_recipe : Recipe :=
  {| r_id := None; r_title := None; r_extendedIngredients := None;
     r_analyzedInstructions := None; r_summary := None; r_instructions := None;
     r_vegetarian := None; r_vegan := None; r_glutenFree := None;
     r_dairyFree := None; r_healthScore := None; r_readyInMinutes := None;
     r_servings := None; r_image := None; r_sourceUrl := None |}.

(** A record with the keys the program subscripts. *)
Definition plain_recipe (n : Z) (title summary : pystr) (instructions : pyval) : Recipe :=
  {| r_id := Some n; r_title := Some title;
     r_extendedIngredients :=
       Some [ {| i_name := Some (py "salt"); i_amount := Some (py "1.0");
                 i_unit := Some (py "pinch") |} ];
     r_analyzedInstructions := None; r_summary := Some summary;
     r_instructions := Some instructions;
     r_vegetarian := None; r_vegan := None; r_glutenFree := None;
     r_dairyFree := None; r_healthScore := None; r_readyInMinutes := None;
     r_servings := None; r_image := None; r_sourceUrl := None |}.

(** A world before the first run: no cache file, an empty collection. *)
Definition fresh_world : World :=
  {| uid_cache := PDict []; cache_file := None; firestore := ∅; events := [] |}.

(** A world whose cache knows the identifier 7. *)
Definition world_knowing_7 : World :=
  {| uid_cache := PDict [(py "7", PBool true)];
     cache_file := Some (FileText (json_dumps (PDict [(py "7", PBool true)])));
     firestore := ∅; events := [] |}.

(** A source that answers [reply] and a store that takes every write. *)
Definition env_of (reply : HttpReply) : Env :=
  {| http_reply := reply; store_fault := fun _ => None |}.

Definition quiet_env : Env := env_of (HttpResponse 200 (JsonObject (Some []))).

(** The summary of the specification's example, cut into its segments. *)
Definition example_segments : list segment :=
  [ Plain (py "It has "); Bold (py "450 calories"); Plain (py " and ");
    Bold (py "12g of protein"); Plain (py ".") ].

(** ** Vocabulary of the properties *)

(** The world [w] after the further events [evs]. *)
Definition with_events (w : World) (evs : list Event) : World :=
  {| uid_cache := uid_cache w; cache_file := cache_file w;
     firestore := firestore w; events := events w ++ evs |}.

(** The world [w] with [file] for its cache file. *)
Definition with_file (w : World) (file : option FileContent) : World :=
  {| uid_cache := uid_cache w; cache_file := file;
     firestore := firestore w; events := events w |}.

(** One record of a batch: the [try] with its [except] clause. *)
Definition attempt (env : Env) (recipe : Recipe) : M unit :=
  try_except (store_recipe env recipe) (fun _ => true) (report_failure recipe).

(** The writes to the document store and the additions to the cache
    among some events. *)
Definition is_write_or_add (ev : Event) : bool :=
  match ev with
  | StoreSet _ _ | CacheAdd _ => true
  | _ => false
  end.

Definition is_store_list (ev : Event) : bool :=
  match ev with StoreList => true | _ => false end.

(** The entry of [key] in a cache; a cache that is no dictionary has
    none. *)
Definition cache_get (cache : pyval) (key : pystr) : option pyval :=
  match cache with
  | PDict entries => dict_get key entries
  | _ => None
  end.

(** [key] is marked present: the membership test of [recipe_exists]. *)
Definition contains (cache : pyval) (key : pystr) : bool :=
  truthy (get_default (cache_get cache key) (PBool false)).

(** Nothing leaves the cache: every key of [c] is a key of [c'], and what
    is marked present in [c] is marked present in [c']. *)
Definition cache_le (c c' : pyval) : Prop :=
  forall key,
    (is_Some (cache_get c key) -> is_Some (cache_get c' key))
    /\ (contains c key = true -> contains c' key = true).

(** The identifiers of a cache. *)
Definition cache_keys (cache : pyval) : list pystr :=
  match cache with
  | PDict entries => List.map fst entries
  | _ => []
  end.

(** A code point that stands for a character: below 0x110000 and no
    surrogate. *)
Definition is_scalar (c : N) : bool :=
  (c <? 0xD800) || ((0xDFFF <? c) && (c <? 0x110000)).

(** A cache as the data model has it: a dictionary from identifiers,
    each once, to [True]. *)
Definition cache_ok (cache : pyval) : Prop :=
  exists entries,
    cache = PDict entries
    /\ NoDup (List.map fst entries)
    /\ Forall (fun kv => forallb is_scalar (fst kv) = true /\ snd kv = PBool true) entries.

(** The source did not deliver: no connection, or a status that
    [raise_for_status] takes for an error. *)
Definition fetch_failed (reply : HttpReply) : Prop :=
  (exists msg, reply = NetworkFailure msg)
  \/ (exists status body, reply = HttpResponse status body /\ is_error_status status = true).

(** A program under which nothing leaves the cache, whether it returns
    or raises. *)
Definition grows {A} (m : M A) : Prop :=
  forall w, cache_le (uid_cache w) (uid_cache (snd (m w))).

(** A batch that cannot be stored: the record 7 is known, the record 8
    has no list of ingredients. *)
Definition known_recipe_7 : Recipe := plain_recipe 7 (py "A") (py "s") (PStr (py "Mix.")).

Definition broken_recipe_8 : Recipe :=
  {| r_id := Some 8%Z; r_title := Some (py "B"); r_extendedIngredients := None;
     r_analyzedInstructions := None; r_summary := Some (py "s");
     r_instructions := Some (PStr (py "Mix."));
     r_vegetarian := None; r_vegan := None; r_glutenFree := None;
     r_dairyFree := None; r_healthScore := None; r_readyInMinutes := None;
     r_servings := None; r_image := None; r_sourceUrl := None |}.

Definition new_recipe_8 : Recipe := plain_recipe 8 (py "B") (py "s") (PStr []).

(** A store that refuses every write. *)
Definition env_store_down : Env :=
  {| http_reply := HttpResponse 200 (JsonObject (Some []));
     store_fault := fun _ => Some "unavailable"%string |}.

(** The cache is as the data model has it and the file holds what
    [save_uid_cache] writes for it. *)
Definition synced (w : World) : Prop :=
  cache_ok (uid_cache w) /\ cache_file w = Some (FileText (json_dumps (uid_cache w))).

(** The dictionary that marks every identifier of [ids] present. *)
Definition all_present (ids : list pystr) : list (pystr * pyval) :=
  List.map (fun doc_id => (doc_id, PBool true)) ids.

(** A stored document, and a world whose collection holds it under the
    identifier 41 while no cache file exists. *)
Definition sample_document : Document :=
  {| d_title := py "Soup"; d_ingredients := ∅; d_instructions := PStr (py "Boil.");
     d_vegetarian := PBool true; d_vegan := PBool false; d_glutenFree := PBool false;
     d_dairyFree := PBool false; d_healthiness := PNum (py "12"); d_calories := 120%Z;
     d_time := PNum (py "30"); d_servings := PNum (py "2"); d_image := PStr [];
     d_source := PStr []; d_equipment := [py "pot"]; d_summary := py "A soup.";
     d_nutritional := ∅; d_cost := PNum (py "0") |}.

Definition world_with_remote_41 : World :=
  {| uid_cache := PNone; cache_file := None;
     firestore := {[ py "41" := sample_document ]}; events := [] |}.

(** A world whose cache file holds [null] while the collection holds the
    document 41. *)
Definition world_with_null_file : World :=
  {| uid_cache := PNone; cache_file := Some (FileText (py "null"));
     firestore := {[ py "41" := sample_document ]}; events := [] |}.

(** ** Vocabulary of the further properties *)

(** The equipment entries of all steps of all instruction groups, in the
    order the loops of [extract_equipment] meet them; a group without
    'steps' and a step without 'equipment' have none. *)
Definition listed_equipment (analyzed_instructions : list Instruction) : list Equipment :=
  flat_map
    (fun instruction =>
       flat_map (fun step => get_default (s_equipment step) [])
         (get_default (a_steps instruction) []))
    analyzed_instructions.

(** Two groups of steps that use an oven twice and a pan once. *)
Definition sample_instructions : list Instruction :=
  [ {| a_steps :=
         Some [ {| s_equipment := Some [ {| e_name := Some (py "oven") |} ] |};
                {| s_equipment := None |} ] |};
    {| a_steps := None |};
    {| a_steps :=
         Some [ {| s_equipment :=
                     Some [ {| e_name := Some (py "oven") |};
                            {| e_name := Some (py "pan") |} ] |} ] |} ].

(** The pair an ingredient contributes to the ingredients mapping: its
    name and "amount unit"; none when one of the three keys is missing. *)
Definition ingredient_entry (ingredient : Ingredient) : option (pystr * pystr) :=
  match i_name ingredient, i_amount ingredient, i_unit ingredient with
  | Some name, Some amount, Some unit => Some (name, amount ++ py " " ++ unit)
  | _, _, _ => None
  end.

(** The first of the keys 'name', 'amount', 'unit' an ingredient lacks. *)
Definition missing_key (ingredient : Ingredient) : option string :=
  match i_name ingredient, i_amount ingredient, i_unit ingredient with
  | None, _, _ => Some "name"%string
  | Some _, None, _ => Some "amount"%string
  | Some _, Some _, None => Some "unit"%string
  | Some _, Some _, Some _ => None
  end.

(** Salt is listed twice, with different amounts. *)
Definition sample_ingredients : list Ingredient :=
  [ {| i_name := Some (py "salt"); i_amount := Some (py "1.0"); i_unit := Some (py "pinch") |};
    {| i_name := Some (py "flour"); i_amount := Some (py "200.0"); i_unit := Some (py "g") |};
    {| i_name := Some (py "salt"); i_amount := Some (py "2.0"); i_unit := Some (py "tsp") |} ].

(** The cache, the cache file and the store of [w'] are those of [w]. *)
Definition same_state (w w' : World) : Prop :=
  uid_cache w' = uid_cache w
  /\ cache_file w' = cache_file w
  /\ firestore w' = firestore w.

(** In the world [w], trying [recipe] would write it: it has an
    identifier that the cache, a dictionary, does not mark present, its
    document is built without error and the store accepts it. *)
Definition would_store (env : Env) (w : World) (recipe : Recipe) : Prop :=
  exists n doc entries,
    r_id recipe = Some n
    /\ build_document recipe = Ok doc
    /\ store_fault env (str_of_int n) = None
    /\ uid_cache w = PDict entries
    /\ contains (PDict entries) (str_of_int n) = false.

(** A reply that [fetch_recipes] and the loop over the recipes take
    without a fatal error: a failure of the request, an error status, a
    body that [json()] refuses with a [RequestException], or an object
    whose 'recipes' all carry a title. *)
Definition reply_accepted (reply : HttpReply) : Prop :=
  match reply with
  | NetworkFailure _ => True
  | HttpResponse status body =>
      is_error_status status = true
      \/ match body with
         | NotJson e => is_request_exception e = true
         | JsonNotObject => False
         | JsonObject None => False
         | JsonObject (Some recipes) =>
             Forall (fun recipe => is_Some (r_title recipe)) recipes
         end
  end.

(** The last line a run prints when it ends without exception. *)
Definition is_closing_line (line : LogLine) : Prop :=
  line = LogAllStored \/ line = LogNothingToStore.

(** A source that delivers a new version of the stored recipe 41. *)
Definition env_delivering_41 : Env :=
  env_of (HttpResponse 200
            (JsonObject (Some [plain_recipe 41 (py "Soup again") (py "s") (PStr [])]))).

(** A program that leaves the documents of the store as they are,
    whether it returns or raises. *)
Definition keeps_store {A} (m : M A) : Prop :=
  forall w, firestore (snd (m w)) = firestore w.

(** A record that can be stored: it has an identifier, its document is
    built without error and the store accepts it. *)
Definition storable (env : Env) (recipe : Recipe) (n : Z) (doc : Document) : Prop :=
  r_id recipe = Some n
  /\ build_document recipe = Ok doc
  /\ store_fault env (str_of_int n) = None.

(** * Properties *)

(** ** Facts about the scanner *)

Lemma strip_prefix_Some p s r : strip_prefix p s = Some r <-> s = p ++ r.
Proof.
  revert s; induction p as [|a p IH]; intros [|b s]; simpl.
  - split; congruence.
  - split; congruence.
  - split; [discriminate | intros H; discriminate H].
  - destruct (N.eqb_spec a b) as [->|Hne].
    + rewrite IH. split; [intros ->; reflexivity | intros H; congruence].
    + split; [discriminate | intros H; congruence].
Qed.

Lemma strip_prefix_app p r : strip_prefix p (p ++ r) = Some r.
Proof. apply strip_prefix_Some; reflexivity. Qed.

Lemma lazy_dot_until_Some close s g rest :
  lazy_dot_until close s = Some (g, rest) -> s = g ++ close ++ rest.
Proof.
  revert g; induction s as [|c s IH]; intros g; simpl.
  - destruct (strip_prefix close []) eqn:E.
    + intros [= <- <-]. apply strip_prefix_Some in E. exact E.
    + discriminate.
  - destruct (strip_prefix close (c :: s)) eqn:E.
    + intros [= <- <-]. apply strip_prefix_Some in E. exact E.
    + destruct (re_dot c); [|discriminate].
      destruct (lazy_dot_until close s) as [[g' rest']|]; [|discriminate].
      intros [= <- <-]. simpl. f_equal. apply IH. reflexivity.
Qed.

Lemma match_b_tag_Some s g rest :
  match_b_tag s = Some (g, rest) -> s = py "<b>" ++ g ++ py "</b>" ++ rest.
Proof.
  unfold match_b_tag. destruct (strip_prefix (py "<b>") s) as [s1|] eqn:E; [|discriminate].
  intros H. apply lazy_dot_until_Some in H. apply strip_prefix_Some in E.
  rewrite E, H. reflexivity.
Qed.

Lemma match_b_tag_shorter s g rest :
  match_b_tag s = Some (g, rest) -> (length rest < length s)%nat.
Proof.
  intros H. apply match_b_tag_Some in H. subst s.
  rewrite !length_app. simpl. lia.
Qed.

Lemma findall_b_from_fuel f1 : forall f2 s,
  (length s < f1)%nat -> (length s < f2)%nat ->
  findall_b_from f1 s = findall_b_from f2 s.
Proof.
  induction f1 as [|f1 IH]; intros [|f2] s H1 H2; try lia.
  simpl. destruct (match_b_tag s) as [[g rest]|] eqn:E.
  - apply match_b_tag_shorter in E. f_equal. apply IH; lia.
  - destruct s as [|c s]; [reflexivity|]. simpl in *. apply IH; lia.
Qed.

(** The scan, one position at a time. *)
Lemma findall_b_unfold s :
  findall_b s =
  match match_b_tag s with
  | Some (g, rest) => g :: findall_b rest
  | None => match s with [] => [] | _ :: s' => findall_b s' end
  end.
Proof.
  unfold findall_b at 1. simpl.
  destruct (match_b_tag s) as [[g rest]|] eqn:E.
  - apply match_b_tag_shorter in E. f_equal.
    apply findall_b_from_fuel; lia.
  - destruct s as [|c s]; [reflexivity|].
    apply findall_b_from_fuel; simpl; lia.
Qed.

Lemma bold_split_prepend pre s frags :
  bold_split s frags -> bold_split (pre ++ s) frags.
Proof.
  intros H. destruct H as [text | pre' g rest frags H].
  - constructor.
  - rewrite app_assoc. constructor. exact H.
Qed.

Lemma findall_b_bold_split text : bold_split text (findall_b text).
Proof.
  remember (length text) as n eqn:Hn.
  revert text Hn. induction n as [n IH] using lt_wf_ind. intros text ->.
  rewrite findall_b_unfold.
  destruct (match_b_tag text) as [[g rest]|] eqn:E.
  - pose proof (match_b_tag_shorter _ _ _ E) as Hlt.
    apply match_b_tag_Some in E. subst text.
    apply (bold_split_cons []). eapply IH; [exact Hlt | reflexivity].
  - destruct text as [|c s]; [constructor|].
    apply (bold_split_prepend [c]). eapply IH; [|reflexivity]. simpl; lia.
Qed.

Lemma strip_prefix_head_ne a p c s :
  negb (c =? a) = true -> strip_prefix (a :: p) (c :: s) = None.
Proof.
  intros H. apply negb_true_iff in H. simpl. rewrite N.eqb_sym, H. reflexivity.
Qed.

Lemma findall_b_plain s rest :
  no_lt s = true -> findall_b (s ++ rest) = findall_b rest.
Proof.
  induction s as [|c s IH]; simpl; [reflexivity|].
  intros H. apply andb_true_iff in H as [Hc Hs].
  rewrite findall_b_unfold.
  assert (match_b_tag (c :: s ++ rest) = None) as ->.
  { unfold match_b_tag. change (py "<b>") with [60; 98; 62].
    rewrite strip_prefix_head_ne by exact Hc. reflexivity. }
  apply IH, Hs.
Qed.

Lemma lazy_dot_until_here close rest :
  lazy_dot_until close (close ++ rest) = Some ([], rest).
Proof.
  pose proof (strip_prefix_app close rest) as H.
  destruct (close ++ rest) as [|c s]; cbn [lazy_dot_until]; rewrite H; reflexivity.
Qed.

Lemma lazy_dot_until_fragment g rest :
  no_lt g = true -> forallb re_dot g = true ->
  lazy_dot_until (py "</b>") (g ++ py "</b>" ++ rest) = Some (g, rest).
Proof.
  induction g as [|c g IH]; intros Hlt Hdot.
  - rewrite app_nil_l. apply lazy_dot_until_here.
  - simpl in Hlt, Hdot.
    apply andb_true_iff in Hlt as [Hc Hlt]. apply andb_true_iff in Hdot as [Hd Hdot].
    rewrite <- app_comm_cons. cbn [lazy_dot_until].
    assert (strip_prefix (py "</b>") (c :: g ++ py "</b>" ++ rest) = None) as ->.
    { change (py "</b>") with [60; 47; 98; 62].
      apply strip_prefix_head_ne, Hc. }
    rewrite Hd, IH by assumption. reflexivity.
Qed.

Lemma findall_b_fragment g rest :
  no_lt g = true -> forallb re_dot g = true ->
  findall_b (py "<b>" ++ g ++ py "</b>" ++ rest) = g :: findall_b rest.
Proof.
  intros Hlt Hdot. rewrite findall_b_unfold.
  unfold match_b_tag. rewrite strip_prefix_app, lazy_dot_until_fragment by assumption.
  reflexivity.
Qed.

Lemma findall_b_render_all segs :
  forallb segment_ok segs = true -> findall_b (render_all segs) = bold_of segs.
Proof.
  induction segs as [|seg segs IH]; intros H.
  - reflexivity.
  - cbn [forallb] in H. apply andb_true_iff in H as [Hseg H].
    change (render_all (seg :: segs)) with (render seg ++ render_all segs).
    destruct seg as [s|s]; cbn [render bold_of segment_ok] in *.
    + rewrite findall_b_plain by assumption. apply IH, H.
    + apply andb_true_iff in Hseg as [Hlt Hdot].
      rewrite <- !app_assoc.
      rewrite findall_b_fragment by assumption. f_equal. apply IH, H.
Qed.

(** [re.search] finds the pattern exactly when some decimal digit is
    directly followed by the literal. *)
Lemma match_digits_then_spec lit s :
  match_digits_then lit s = true <->
  exists ds post, s = ds ++ lit ++ post /\ ds <> [] /\ forallb re_d ds = true.
Proof.
  induction s as [|c s IH]; simpl.
  - split; [discriminate|]. intros (ds & post & H & Hne & _).
    destruct ds; [congruence | discriminate].
  - rewrite andb_true_iff, orb_true_iff, IH. unfold starts_with. split.
    + intros [Hc [Hl | (ds & post & -> & Hne & Hds)]].
      * destruct (strip_prefix lit s) as [r|] eqn:E; [|discriminate].
        apply strip_prefix_Some in E. subst s.
        exists [c], r. simpl. rewrite Hc. split; [reflexivity | split; [discriminate | reflexivity]].
      * exists (c :: ds), post. simpl. rewrite Hc, Hds.
        split; [reflexivity | split; [discriminate | reflexivity]].
    + intros (ds & post & H & Hne & Hds).
      destruct ds as [|d ds]; [congruence|].
      simpl in H, Hds. injection H as -> ->.
      apply andb_true_iff in Hds as [Hc Hds]. split; [exact Hc|].
      destruct ds as [|d' ds].
      * left. simpl. rewrite strip_prefix_app. reflexivity.
      * right. exists (d' :: ds), post. split; [reflexivity | split; [discriminate | exact Hds]].
Qed.

Lemma re_search_digits_then_spec lit s :
  re_search_digits_then lit s = true <->
  exists pre d post, s = pre ++ d :: lit ++ post /\ re_d d = true.
Proof.
  induction s as [|c s IH]; simpl.
  - split; [discriminate|]. intros (pre & d & post & H & _).
    destruct pre; discriminate.
  - rewrite orb_true_iff, andb_true_iff, orb_true_iff. split.
    + intros [[Hc [Hl | Hm]] | Hs].
      * unfold starts_with in Hl.
        destruct (strip_prefix lit s) as [r|] eqn:E; [|discriminate].
        apply strip_prefix_Some in E. subst s. exists [], c, r. auto.
      * apply match_digits_then_spec in Hm as (ds & post & -> & Hne & Hds).
        destruct (exists_last Hne) as (ds' & d & ->).
        exists (c :: ds'), d, post. rewrite <- !app_assoc. simpl.
        rewrite forallb_app in Hds. simpl in Hds.
        apply andb_true_iff in Hds as [_ Hd]. apply andb_true_iff in Hd as [Hd _].
        auto.
      * apply IH in Hs as (pre & d & post & -> & Hd).
        exists (c :: pre), d, post. auto.
    + intros (pre & d & post & H & Hd).
      destruct pre as [|p pre]; simpl in H; injection H as -> ->.
      * left. split; [exact Hd|]. left. unfold starts_with.
        rewrite strip_prefix_app. reflexivity.
      * right. apply IH. exists pre, d, post. auto.
Qed.

(** ** [extract_and_categorize]: one category per fragment, last match wins *)

(** The inner loop stores under the category [classify] names, and only
    there. *)
Lemma categorize_tag_classify tag data :
  categorize_tag categories tag data =
  match classify tag with
  | Some category => <[category := clean tag]> data
  | None => data
  end.
Proof.
  unfold classify, categories. cbn [categorize_tag List.find fst snd].
  repeat (destruct (re_search_digits_then _ tag); [reflexivity|]).
  reflexivity.
Qed.

Lemma classify_order tag :
  classify tag =
  if re_search_digits_then (py " cents per serving") tag
  then Some "Cost per serving"%string
  else if re_search_digits_then (py "g of protein") tag then Some "Protein"%string
  else if re_search_digits_then (py "g of fat") tag then Some "Fat"%string
  else if re_search_digits_then (py " calories") tag then Some "Calories"%string
  else None.
Proof.
  unfold classify, categories. cbn [List.find fst snd].
  repeat (destruct (re_search_digits_then _ tag); [reflexivity|]).
  reflexivity.
Qed.

Lemma categorize_tags_lookup tags : forall start category,
  categorize_tags tags start !! category =
  match last (filter (fun tag => classify tag = Some category) tags) with
  | Some tag => Some (clean tag)
  | None => start !! category
  end.
Proof.
  induction tags as [|tag tags IH]; intros start category.
  - reflexivity.
  - change (categorize_tags (tag :: tags) start)
      with (categorize_tags tags (categorize_tag categories tag start)).
    rewrite IH, categorize_tag_classify, filter_cons.
    destruct (decide (classify tag = Some category)) as [E|E].
    + rewrite last_cons, E.
      destruct (last _); [reflexivity | apply lookup_insert_eq].
    + destruct (last _); [reflexivity|].
      destruct (classify tag) as [c|]; [|reflexivity].
      apply lookup_insert_ne. congruence.
Qed.

(** C3.  Nutrition categorization takes the bold-wrapped fragments in the
    order they appear in the summary: what [re.findall] returns lies in the
    text bold-wrapped and in that order, and a text made of stretches
    without markup and of bold-wrapped fragments gives back exactly its
    fragments.  A fragment changes the entry of at most one category, the
    first of Cost per serving, Protein, Fat, Calories, in this order,
    whose pattern it matches ([classify]); the entry of a category is the
    last fragment classified under it, with every character that is not
    an ASCII letter, an ASCII digit or whitespace removed. *)
Theorem extract_and_categorize_spec (text : pystr) (segs : list segment)
    (Hsegs : forallb segment_ok segs = true) :
  bold_split text (findall_b text)
  /\ findall_b (render_all segs) = bold_of segs
  /\ (forall tag,
        classify tag =
        if re_search_digits_then (py " cents per serving") tag
        then Some "Cost per serving"%string
        else if re_search_digits_then (py "g of protein") tag then Some "Protein"%string
        else if re_search_digits_then (py "g of fat") tag then Some "Fat"%string
        else if re_search_digits_then (py " calories") tag then Some "Calories"%string
        else None)
  /\ (forall tag data category,
        classify tag <> Some category ->
        categorize_tag categories tag data !! category = data !! category)
  /\ (forall category,
        extract_and_categorize text !! category =
        match last (filter (fun tag => classify tag = Some category) (findall_b text)) with
        | Some tag =>
            Some (List.filter (fun c => is_ascii_digit c || is_ascii_letter c || re_s c) tag)
        | None => None
        end).
Proof.
  split; [apply findall_b_bold_split|].
  split; [apply findall_b_render_all, Hsegs|].
  split; [intros tag; apply classify_order|].
  split.
  - intros tag data category Hne. rewrite categorize_tag_classify.
    destruct (classify tag) as [c|]; [|reflexivity].
    apply lookup_insert_ne. congruence.
  - intros category. unfold extract_and_categorize.
    rewrite categorize_tags_lookup, lookup_empty. reflexivity.
Qed.

Lemma extract_and_categorize_spec_witness :
  forallb segment_ok example_segments = true
  /\ findall_b (render_all example_segments) = [py "450 calories"; py "12g of protein"]
  /\ extract_and_categorize (render_all example_segments) !! "Calories"%string
     = Some (py "450 calories")
  /\ extract_and_categorize (render_all example_segments) !! "Protein"%string
     = Some (py "12g of protein").
Proof.
  assert (Hok : forallb segment_ok example_segments = true) by reflexivity.
  destruct (extract_and_categorize_spec (render_all example_segments)
              example_segments Hok) as (_ & Hfind & _ & _ & Hcat).
  split; [exact Hok|]. split; [exact Hfind|].
  split; vm_compute; reflexivity.
Defined.

(** ** The steps of the pipeline, case by case *)

Arguments str_of_int : simpl never.
Arguments json_dumps : simpl never.
Arguments build_document : simpl never.
Arguments extract_and_categorize : simpl never.

Lemma with_events_nil w : with_events w [] = w.
Proof. destruct w. unfold with_events. simpl. rewrite app_nil_r. reflexivity. Qed.

Lemma with_events_app w evs1 evs2 :
  with_events (with_events w evs1) evs2 = with_events w (evs1 ++ evs2).
Proof. unfold with_events. simpl. rewrite app_assoc. reflexivity. Qed.

Lemma rbind_Ok {A B} (r : result A) (k : A -> result B) b :
  rbind r k = Ok b -> exists a, r = Ok a /\ k a = Ok b.
Proof. destruct r as [a|e]; simpl; [eauto | discriminate]. Qed.

Lemma getitem_Ok {A} key (field : option A) v :
  getitem key field = Ok v -> field = Some v.
Proof. destruct field; simpl; congruence. Qed.

(** Take a chain of [rbind]s that ended well apart. *)
Ltac split_rbind H :=
  repeat (let a := fresh "a" in
          let Ha := fresh "Ha" in
          apply rbind_Ok in H as (a & Ha & H)).

Lemma build_document_Ok recipe doc :
  build_document recipe = Ok doc ->
  exists raw,
    r_title recipe = Some (d_title doc)
    /\ r_instructions recipe = Some raw
    /\ d_instructions doc
       = (if truthy raw then raw else PStr (py "No instructions provided"))
    /\ derive_calories (extract_and_categorize (get_default (r_summary recipe) []))
       = Ok (d_calories doc).
Proof.
  unfold build_document. intros H. split_rbind H.
  injection H as <-. cbn.
  repeat match goal with
         | Hg : getitem _ _ = Ok _ |- _ => apply getitem_Ok in Hg
         end.
  eauto 10.
Qed.

Lemma build_document_title recipe doc :
  build_document recipe = Ok doc -> r_title recipe = Some (d_title doc).
Proof. intros H. apply build_document_Ok in H as (raw & H & _). exact H. Qed.

(** What the [try] body does, by the state it meets. *)
Lemma store_recipe_cases env recipe w :
  store_recipe env recipe w =
  match r_id recipe with
  | None => (Raise (KeyError "id"), w)
  | Some n =>
      match uid_cache w with
      | PDict entries =>
          if truthy (get_default (dict_get (str_of_int n) entries) (PBool false)) then
            match r_title recipe with
            | Some title => (Ok tt, with_events w [Printed (LogDuplicate title)])
            | None => (Raise (KeyError "title"), w)
            end
          else
            match build_document recipe with
            | Raise e => (Raise e, w)
            | Ok doc =>
                match store_fault env (str_of_int n) with
                | Some msg => (Raise (StoreError msg), w)
                | None =>
                    let cache := PDict (dict_set (str_of_int n) (PBool true) entries) in
                    (Ok tt,
                     {| uid_cache := cache;
                        cache_file := Some (FileText (json_dumps cache));
                        firestore := <[str_of_int n := doc]> (firestore w);
                        events := events w ++
                          [StoreSet (str_of_int n) doc; Printed (LogStored (d_title doc));
                           CacheAdd (str_of_int n); FileWrite (json_dumps cache)] |})
                end
            end
      | _ => (Raise (AttributeError "object has no attribute 'get'"), w)
      end
  end.
Proof.
  unfold store_recipe, recipe_exists, store_set, cache_add, cache_setitem,
    save_uid_cache, set_uid_cache, print, emit, get_uid_cache, lift, getitem,
    ret, raise, bind.
  destruct (r_id recipe) as [n|]; [|reflexivity].
  destruct (uid_cache w) as [| | | | |entries] eqn:Hc; try reflexivity.
  destruct (truthy _) eqn:Hk; cbn [negb].
  - destruct (r_title recipe); reflexivity.
  - destruct (build_document recipe) as [doc|e] eqn:Hb; [|reflexivity].
    destruct (store_fault env (str_of_int n)); [reflexivity|].
    rewrite (build_document_title _ _ Hb). cbn. rewrite Hc. cbn.
    rewrite <- !app_assoc. reflexivity.
Qed.

Lemma report_failure_cases recipe e w :
  report_failure recipe e w =
  match r_title recipe with
  | Some title => (Ok tt, with_events w [Printed (LogStoreError title e)])
  | None => (Raise (KeyError "title"), w)
  end.
Proof.
  unfold report_failure, print, emit, lift, getitem, bind.
  destruct (r_title recipe); reflexivity.
Qed.

Lemma attempt_cases env recipe w :
  attempt env recipe w =
  match store_recipe env recipe w with
  | (Ok _, w') => (Ok tt, w')
  | (Raise e, w') => report_failure recipe e w'
  end.
Proof.
  unfold attempt, try_except.
  destruct (store_recipe env recipe w) as [[[]|e] w']; reflexivity.
Qed.

Lemma store_recipes_cons env recipe recipes w :
  store_recipes env (recipe :: recipes) w =
  match attempt env recipe w with
  | (Ok _, w') => store_recipes env recipes w'
  | (Raise e, w') => (Raise e, w')
  end.
Proof. reflexivity. Qed.

(** ** Calories *)

Lemma py_int_no_digit s :
  List.filter re_d s = [] ->
  py_int (List.filter re_d s) = Raise (ValueError "invalid literal for int() with base 10").
Proof. intros ->. reflexivity. Qed.

(** Whatever the other entries: a Calories entry without a digit makes
    the conversion raise. *)
Lemma derive_calories_no_digit (nutritional_info : gmap string pystr) calories_str :
  nutritional_info !! "Calories"%string = Some calories_str ->
  List.filter re_d calories_str = [] ->
  derive_calories nutritional_info
  = Raise (ValueError "invalid literal for int() with base 10").
Proof.
  intros Hc Hd. unfold derive_calories. rewrite Hc. apply py_int_no_digit, Hd.
Qed.

(** C1.  The calorie value at the inputs the contract names.  For the
    entry "450 calories" it is 450 and without a Calories entry it is 0;
    for an entry without a digit the conversion raises [ValueError] where
    the contract asks for 0.  A summary reaches that case with a decimal
    digit outside ASCII (here U+0663), which the category pattern accepts
    and the cleaning removes: the recipe is then reported as failed and
    not stored. *)
Theorem derive_calories_at_contract_inputs :
  let summary := py "<b>" ++ 0x663 :: py " calories</b>" in
  let recipe := plain_recipe 8 (py "B") summary (PStr []) in
  derive_calories {[ "Calories"%string := py "450 calories" ]} = Ok 450%Z
  /\ derive_calories ∅ = Ok 0%Z
  /\ derive_calories {[ "Calories"%string := py "calories" ]}
     = Raise (ValueError "invalid literal for int() with base 10")
  /\ extract_and_categorize summary !! "Calories"%string = Some (py " calories")
  /\ derive_calories (extract_and_categorize summary)
     = Raise (ValueError "invalid literal for int() with base 10")
  /\ store_recipes quiet_env [recipe] fresh_world
     = (Ok tt,
        with_events fresh_world
          [Printed (LogStoreError (py "B")
                    (ValueError "invalid literal for int() with base 10"))]).
Proof.
  repeat split; vm_compute; reflexivity.
Qed.

(** ** Loading the cache file *)

Lemma json_loads_empty depth : json_loads depth [] = Raise JSONDecodeError.
Proof. reflexivity. Qed.

(** [load_uid_cache] contains [JSONDecodeError] and lets every other
    exception of [json.load] through. *)
Lemma load_uid_cache_cases w :
  load_uid_cache w =
  match cache_file w with
  | Some content =>
      match json_load content with
      | Ok v => (Ok v, w)
      | Raise e => if is_json_decode_error e then (Ok (PDict []), w) else (Raise e, w)
      end
  | None => (Ok (PDict []), w)
  end.
Proof.
  unfold load_uid_cache, try_except, lift, ret.
  destruct (cache_file w) as [content|]; [|reflexivity].
  destruct (json_load content) as [v|e]; reflexivity.
Qed.

Lemma load_uid_cache_outcomes w :
  (exists cache, load_uid_cache w = (Ok cache, w))
  \/ (exists e, load_uid_cache w = (Raise e, w) /\ is_json_decode_error e = false).
Proof.
  rewrite load_uid_cache_cases.
  destruct (cache_file w) as [content|]; [|eauto].
  destruct (json_load content) as [v|e]; [eauto|].
  destruct (is_json_decode_error e) eqn:He; eauto.
Qed.

Lemma load_uid_cache_text w text :
  cache_file w = Some (FileText text) ->
  load_uid_cache w =
  match json_loads scanner_depth text with
  | Ok v => (Ok v, w)
  | Raise e => if is_json_decode_error e then (Ok (PDict []), w) else (Raise e, w)
  end.
Proof. intros H. rewrite load_uid_cache_cases, H. reflexivity. Qed.

Lemma skip_ws_brackets n rest :
  (0 < n)%nat -> skip_ws (repeat 91 n ++ rest) = repeat 91 n ++ rest.
Proof. intros Hn. destruct n; [lia | reflexivity]. Qed.

(** Arrays opened one inside the other beyond the depth left to the
    scanner end it with [RecursionError], whatever follows them. *)
Lemma parse_value_too_deep depth rest : forall fuel n,
  (depth < n)%nat -> (2 * depth + 1 <= fuel)%nat ->
  parse_value fuel depth (repeat 91 n ++ rest) = Raise RecursionError.
Proof.
  induction depth as [|depth IH]; intros fuel n Hn Hfuel.
  - destruct fuel as [|fuel]; [lia|]. destruct n as [|n]; [lia|]. reflexivity.
  - destruct fuel as [|[|fuel]]; [lia | lia |].
    destruct n as [|[|n]]; [lia | lia |].
    change (repeat 91 (S (S n)) ++ rest) with (91 :: 91 :: repeat 91 n ++ rest).
    cbn [parse_value N.eqb Pos.eqb skip_ws is_json_ws orb].
    cbn [parse_elements].
    change (91 :: repeat 91 n ++ rest) with (repeat 91 (S n) ++ rest).
    rewrite IH by lia. reflexivity.
Qed.

Lemma json_loads_too_deep depth n rest :
  (depth < n)%nat -> json_loads depth (repeat 91 n ++ rest) = Raise RecursionError.
Proof.
  intros Hn. unfold json_loads.
  rewrite skip_ws_brackets by lia.
  rewrite parse_value_too_deep; [reflexivity | exact Hn |].
  rewrite length_app, repeat_length. lia.
Qed.

Lemma span_digits_ones n : span_digits (repeat 49 n) = (repeat 49 n, []).
Proof.
  induction n as [|n IH]; [reflexivity|].
  change (repeat 49 (S n)) with (49 :: repeat 49 n).
  cbn [span_digits]. change (is_ascii_digit 49) with true. cbn iota.
  rewrite IH. reflexivity.
Qed.

Lemma filter_digits_ones n : List.filter is_ascii_digit (repeat 49 n) = repeat 49 n.
Proof.
  induction n as [|n IH]; [reflexivity|].
  change (repeat 49 (S n)) with (49 :: repeat 49 n).
  cbn [List.filter]. change (is_ascii_digit 49) with true. cbn iota.
  rewrite IH. reflexivity.
Qed.

(** An integer of more digits than [int] converts ends the scanner with
    [ValueError]. *)
Lemma json_loads_long_integer depth n :
  (int_max_str_digits < n)%nat ->
  json_loads depth (repeat 49 n)
  = Raise (ValueError "Exceeds the limit (4300 digits) for integer string conversion").
Proof.
  intros Hn. destruct n as [|n]; [lia|].
  assert (Hscan : scan_constant (repeat 49 (S n))
                  = Raise (ValueError
                             "Exceeds the limit (4300 digits) for integer string conversion")).
  { change (repeat 49 (S n)) with (49 :: repeat 49 n).
    unfold scan_constant.
    change (strip_prefix (py "null") (49 :: repeat 49 n)) with (@None pystr).
    change (strip_prefix (py "true") (49 :: repeat 49 n)) with (@None pystr).
    change (strip_prefix (py "false") (49 :: repeat 49 n)) with (@None pystr).
    cbn iota. unfold scan_number, scan_int_part.
    change (49 =? 45) with false. cbn iota.
    change (49 =? 48) with false. cbn iota.
    change (in_range 49 57 49) with true. cbn iota.
    rewrite span_digits_ones. cbn [scan_frac scan_exp].
    unfold number_of_token. cbn [app].
    change (49 :: repeat 49 n) with (repeat 49 (S n)).
    rewrite filter_digits_ones, repeat_length.
    rewrite (proj2 (Nat.ltb_lt _ _) Hn). reflexivity. }
  unfold json_loads.
  change (skip_ws (repeat 49 (S n))) with (repeat 49 (S n)).
  replace (2 * length (repeat 49%N (S n)) + 2)%nat
    with (S (2 * length (repeat 49%N (S n)) + 1)) by lia.
  change (parse_value (S ?fuel) depth (repeat 49 (S n)))
    with (scan_constant (repeat 49 (S n))).
  rewrite Hscan. reflexivity.
Qed.

(** An exception that [load_uid_cache] lets through ends the
    initialization before anything is assigned, and with it the run. *)
Lemma initialize_uid_cache_raises w e :
  load_uid_cache w = (Raise e, w) -> initialize_uid_cache w = (Raise e, w).
Proof. intros Hl. unfold initialize_uid_cache, bind at 1. rewrite Hl. reflexivity. Qed.

Lemma main_raises_at_load env w e :
  load_uid_cache w = (Raise e, w) -> main env w = (Raise e, w).
Proof.
  intros Hl. unfold main, bind at 1.
  rewrite (initialize_uid_cache_raises w e Hl). reflexivity.
Qed.

(** C5.  When the cache file is missing, is empty, or holds text that
    [json.load] refuses with [JSONDecodeError] (as a file cut off in the
    middle of an object), [load_uid_cache] returns the empty dictionary
    and leaves the world as it is.  Other malformed files it does not
    contain: on bytes that the codec refuses it raises
    [UnicodeDecodeError], on arrays opened one inside the other beyond
    the depth left to the scanner [RecursionError], whatever follows
    them, on an integer of more than 4300 digits [ValueError]; the
    exception ends the run before anything else is done. *)
Theorem load_uid_cache_at_bad_files (env : Env) (w : World) :
  (forall file,
     file = None
     \/ file = Some (FileText [])
     \/ (exists text, file = Some (FileText text)
                      /\ json_loads scanner_depth text = Raise JSONDecodeError) ->
     load_uid_cache (with_file w file) = (Ok (PDict []), with_file w file))
  /\ json_loads scanner_depth (py "{ 7: true, ") = Raise JSONDecodeError
  /\ load_uid_cache (with_file w (Some FileUndecodable))
     = (Raise UnicodeDecodeError, with_file w (Some FileUndecodable))
  /\ (forall n rest,
        (scanner_depth < n)%nat ->
        load_uid_cache (with_file w (Some (FileText (repeat 91 n ++ rest))))
        = (Raise RecursionError, with_file w (Some (FileText (repeat 91 n ++ rest)))))
  /\ (forall n,
        (int_max_str_digits < n)%nat ->
        load_uid_cache (with_file w (Some (FileText (repeat 49 n))))
        = (Raise (ValueError "Exceeds the limit (4300 digits) for integer string conversion"),
           with_file w (Some (FileText (repeat 49 n)))))
  /\ (forall file e,
        load_uid_cache (with_file w file) = (Raise e, with_file w file) ->
        main env (with_file w file) = (Raise e, with_file w file)).
Proof.
  split; [|split; [|split; [|split; [|split]]]].
  - intros file Hbad. rewrite load_uid_cache_cases. cbn [with_file cache_file].
    destruct Hbad as [-> | [-> | (text & -> & Htext)]]; [reflexivity | reflexivity |].
    unfold json_load. cbn [read_text rbind]. rewrite Htext. reflexivity.
  - vm_compute. reflexivity.
  - reflexivity.
  - intros n rest Hn. rewrite load_uid_cache_cases. cbn [with_file cache_file].
    unfold json_load. cbn [read_text rbind].
    rewrite (json_loads_too_deep _ _ rest Hn). reflexivity.
  - intros n Hn. rewrite load_uid_cache_cases. cbn [with_file cache_file].
    unfold json_load. cbn [read_text rbind].
    rewrite (json_loads_long_integer _ _ Hn). reflexivity.
  - intros file e Hl. apply main_raises_at_load, Hl.
Qed.

(** ** Fetching *)

Lemma fetch_recipes_cases env w :
  fetch_recipes env w =
  match http_reply env with
  | NetworkFailure msg =>
      (Ok [], with_events w [HttpGet; Printed (LogFetchError (RequestException msg))])
  | HttpResponse status body =>
      if is_error_status status then
        (Ok [], with_events w [HttpGet; Printed (LogFetchError (RequestException "HTTPError"))])
      else
        match body with
        | NotJson e =>
            if is_request_exception e
            then (Ok [], with_events w [HttpGet; Printed (LogFetchError e)])
            else (Raise e, with_events w [HttpGet])
        | JsonNotObject => (Raise (TypeError "indices must be integers"), with_events w [HttpGet])
        | JsonObject None => (Raise (KeyError "recipes"), with_events w [HttpGet])
        | JsonObject (Some recipes) => (Ok recipes, with_events w [HttpGet])
        end
  end.
Proof.
  unfold fetch_recipes, try_except, print, emit, lift, getitem, ret, raise, bind, with_events.
  destruct (http_reply env) as [msg | status body]; cbn.
  - rewrite <- app_assoc. reflexivity.
  - destruct (is_error_status status); cbn.
    + rewrite <- app_assoc. reflexivity.
    + destruct body as [e | | [recipes|]]; cbn; try reflexivity.
      destruct (is_request_exception e); cbn; [|reflexivity].
      rewrite <- app_assoc. reflexivity.
Qed.

Lemma main_cases env w :
  main env w =
  match initialize_uid_cache w with
  | (Ok _, w1) =>
      match fetch_recipes env w1 with
      | (Ok [], w2) => (Ok tt, with_events w2 [Printed LogNothingToStore])
      | (Ok (recipe :: recipes), w2) =>
          match store_recipes env (recipe :: recipes) w2 with
          | (Ok _, w3) => (Ok tt, with_events w3 [Printed LogAllStored])
          | (Raise e, w3) => (Raise e, w3)
          end
      | (Raise e, w2) => (Raise e, w2)
      end
  | (Raise e, w1) => (Raise e, w1)
  end.
Proof.
  unfold main, bind at 1 2.
  destruct (initialize_uid_cache w) as [[[]|e] w1]; [|reflexivity].
  destruct (fetch_recipes env w1) as [[[|recipe recipes]|e] w2]; reflexivity.
Qed.


(** C7.  When the request fails, by the network or by an error status,
    [fetch_recipes] prints the failure and returns the empty list, and the
    run then prints that there is nothing to store and ends without an
    exception.  When the body decodes to an object with the key 'recipes',
    [fetch_recipes] returns that list as it is.  When the decoded body has
    no such key, or is no object, the exception leaves [fetch_recipes] and
    the run. *)
Theorem fetch_recipes_outcomes (env : Env) (w : World) :
  (fetch_failed (http_reply env) ->
     exists e,
       fetch_recipes env w = (Ok [], with_events w [HttpGet; Printed (LogFetchError e)])
       /\ forall w0 w1,
            initialize_uid_cache w0 = (Ok tt, w1) ->
            main env w0
            = (Ok tt,
               with_events w1
                 [HttpGet; Printed (LogFetchError e); Printed LogNothingToStore]))
  /\ (forall status recipes,
        http_reply env = HttpResponse status (JsonObject (Some recipes)) ->
        is_error_status status = false ->
        fetch_recipes env w = (Ok recipes, with_events w [HttpGet]))
  /\ (forall status body,
        http_reply env = HttpResponse status body ->
        body = JsonObject None \/ body = JsonNotObject ->
        is_error_status status = false ->
        exists e,
          fetch_recipes env w = (Raise e, with_events w [HttpGet])
          /\ forall w0 w1,
               initialize_uid_cache w0 = (Ok tt, w1) ->
               main env w0 = (Raise e, with_events w1 [HttpGet])).
Proof.
  split; [|split].
  - intros [(msg & Hr) | (status & body & Hr & Hs)].
    + exists (RequestException msg). split.
      * rewrite fetch_recipes_cases, Hr. reflexivity.
      * intros w0 w1 Hi. rewrite main_cases, Hi, fetch_recipes_cases, Hr.
        rewrite with_events_app. reflexivity.
    + exists (RequestException "HTTPError"). split.
      * rewrite fetch_recipes_cases, Hr, Hs. reflexivity.
      * intros w0 w1 Hi. rewrite main_cases, Hi, fetch_recipes_cases, Hr, Hs.
        rewrite with_events_app. reflexivity.
  - intros status recipes Hr Hs. rewrite fetch_recipes_cases, Hr, Hs. reflexivity.
  - intros status body Hr Hb Hs.
    destruct Hb as [-> | ->].
    + exists (KeyError "recipes"). split.
      * rewrite fetch_recipes_cases, Hr, Hs. reflexivity.
      * intros w0 w1 Hi. rewrite main_cases, Hi, fetch_recipes_cases, Hr, Hs. reflexivity.
    + exists (TypeError "indices must be integers"). split.
      * rewrite fetch_recipes_cases, Hr, Hs. reflexivity.
      * intros w0 w1 Hi. rewrite main_cases, Hi, fetch_recipes_cases, Hr, Hs. reflexivity.
Qed.

Lemma fetch_recipes_outcomes_witness :
  exists e,
    fetch_recipes (env_of (HttpResponse 503 (JsonObject None))) fresh_world
    = (Ok [], with_events fresh_world [HttpGet; Printed (LogFetchError e)]).
Proof.
  destruct (fetch_recipes_outcomes (env_of (HttpResponse 503 (JsonObject None))) fresh_world)
    as (Hfail & _).
  destruct Hfail as (e & He & _).
  - right. exists 503, (JsonObject None). split; reflexivity.
  - exists e. exact He.
Defined.

(** ** The stored instructions *)

Lemma store_recipe_set env recipe w result w' evs doc_id doc :
  store_recipe env recipe w = (result, w') ->
  events w' = events w ++ evs ->
  In (StoreSet doc_id doc) evs ->
  build_document recipe = Ok doc.
Proof.
  rewrite store_recipe_cases. intros H Hev Hin.
  assert (Hnone : (result, w') = (result, w) \/
                  (exists title, w' = with_events w [Printed (LogDuplicate title)]) \/
                  exists n entries d,
                    build_document recipe = Ok d
                    /\ events w' = events w ++
                         [StoreSet (str_of_int n) d; Printed (LogStored (d_title d));
                          CacheAdd (str_of_int n);
                          FileWrite (json_dumps (PDict (dict_set (str_of_int n) (PBool true) entries)))]).
  { destruct (r_id recipe) as [n|]; [|left; congruence].
    destruct (uid_cache w) as [| | | | |entries]; try (left; congruence).
    destruct (truthy _).
    - destruct (r_title recipe) as [title|]; [|left; congruence].
      right. left. exists title. congruence.
    - destruct (build_document recipe) as [d|e]; [|left; congruence].
      destruct (store_fault env (str_of_int n)); [left; congruence|].
      right. right. exists n, entries, d. split; [reflexivity|].
      injection H as _ <-. reflexivity. }
  destruct Hnone as [Hsame | [(title & ->) | (n & entries & d & Hb & He)]].
  - injection Hsame as ->. rewrite <- (app_nil_r (events w)) in Hev at 1.
    apply app_inv_head in Hev. subst evs. destruct Hin.
  - cbn in Hev. apply app_inv_head in Hev. subst evs.
    destruct Hin as [Hin | []]. discriminate.
  - rewrite He in Hev. apply app_inv_head in Hev. subst evs.
    destruct Hin as [Hin | [Hin | [Hin | [Hin | []]]]]; try discriminate.
    injection Hin as _ <-. exact Hb.
Qed.

Lemma store_recipe_raises_early env recipe w e w' :
  store_recipe env recipe w = (Raise e, w') -> w' = w.
Proof.
  rewrite store_recipe_cases.
  destruct (r_id recipe); [|congruence].
  destruct (uid_cache w); try congruence.
  destruct (truthy _).
  - destruct (r_title recipe); [discriminate | congruence].
  - destruct (build_document recipe); [|congruence].
    destruct (store_fault env _); [congruence | discriminate].
Qed.

(** C10.  A document that processing a record has written holds, as its
    instructions, 'No instructions provided' when the record's
    instructions are the empty string or another false value, and the
    record's instructions themselves otherwise; a string that is not
    empty is such a value. *)
Theorem stored_instructions (env : Env) (recipe : Recipe) (w : World)
    (evs : list Event) (doc_id : pystr) (doc : Document)
    (Hevs : events (snd (attempt env recipe w)) = events w ++ evs)
    (Hset : In (StoreSet doc_id doc) evs) :
  exists raw,
    r_instructions recipe = Some raw
    /\ (truthy raw = false -> d_instructions doc = PStr (py "No instructions provided"))
    /\ (truthy raw = true -> d_instructions doc = raw)
    /\ truthy (PStr []) = false
    /\ (forall c s, truthy (PStr (c :: s)) = true).
Proof.
  assert (Hb : build_document recipe = Ok doc).
  { rewrite attempt_cases in Hevs.
    destruct (store_recipe env recipe w) as [[[]|e] w'] eqn:Hs.
    - eapply store_recipe_set; eauto.
    - (* the body raised before it changed anything *)
      apply store_recipe_raises_early in Hs. subst w'.
      rewrite report_failure_cases in Hevs.
      destruct (r_title recipe) as [title|]; cbn in Hevs.
      + apply app_inv_head in Hevs. subst evs.
        destruct Hset as [Hset | []]. discriminate.
      + rewrite <- (app_nil_r (events w)) in Hevs at 1.
        apply app_inv_head in Hevs. subst evs. destruct Hset. }
  apply build_document_Ok in Hb as (raw & _ & Hraw & Hinstr & _).
  exists raw. split; [exact Hraw|].
  split; [intros Ht; rewrite Hinstr, Ht; reflexivity|].
  split; [intros Ht; rewrite Hinstr, Ht; reflexivity|].
  split; reflexivity.
Qed.

Lemma stored_instructions_witness :
  exists doc,
    In (StoreSet (py "8") doc) (events (snd (attempt quiet_env new_recipe_8 fresh_world)))
    /\ d_instructions doc = PStr (py "No instructions provided").
Proof.
  assert (Hev : exists doc,
             In (StoreSet (py "8") doc)
               (events (snd (attempt quiet_env new_recipe_8 fresh_world)))).
  { eexists. vm_compute. left. reflexivity. }
  destruct Hev as (doc & Hin). exists doc. split; [exact Hin|].
  destruct (stored_instructions quiet_env new_recipe_8 fresh_world
              (events (snd (attempt quiet_env new_recipe_8 fresh_world)))
              (py "8") doc eq_refl Hin)
    as (raw & Hraw & Hfalse & _).
  apply Hfalse. injection Hraw as <-. reflexivity.
Defined.

(** ** One failure does not end the batch *)

Lemma store_recipes_app env before after w :
  store_recipes env (before ++ after) w =
  match store_recipes env before w with
  | (Ok _, w1) => store_recipes env after w1
  | (Raise e, w1) => (Raise e, w1)
  end.
Proof.
  revert w. induction before as [|recipe before IH]; intros w.
  - reflexivity.
  - rewrite <- app_comm_cons, !store_recipes_cons.
    destruct (attempt env recipe w) as [[[]|e] w1]; [apply IH | reflexivity].
Qed.

Lemma attempt_titled env recipe title w :
  r_title recipe = Some title ->
  attempt env recipe w =
  (Ok tt,
   match store_recipe env recipe w with
   | (Ok _, w2) => w2
   | (Raise e, w2) => with_events w2 [Printed (LogStoreError title e)]
   end).
Proof.
  intros Ht. rewrite attempt_cases.
  destruct (store_recipe env recipe w) as [[[]|e] w2]; [reflexivity|].
  rewrite report_failure_cases, Ht. reflexivity.
Qed.

Lemma store_recipes_titled env batch : forall w,
  Forall (fun recipe => is_Some (r_title recipe)) batch ->
  exists w', store_recipes env batch w = (Ok tt, w').
Proof.
  induction batch as [|recipe batch IH]; intros w Ht.
  - exists w. reflexivity.
  - apply Forall_cons in Ht as [[title Hr] Ht].
    rewrite store_recipes_cons, (attempt_titled _ _ _ _ Hr). apply IH, Ht.
Qed.

(** In a batch whose records all carry a title, [store_recipes] never
    raises; every record is tried in the world the records before it
    left; when its processing raises, the line with its title and the
    error is printed, and the records after it are processed from
    there. *)
Theorem store_recipes_continues (env : Env) (batch : list Recipe) (w : World)
    (Htitles : Forall (fun recipe => is_Some (r_title recipe)) batch) :
  (exists w', store_recipes env batch w = (Ok tt, w'))
  /\ forall before recipe after,
       batch = before ++ recipe :: after ->
       exists title,
         r_title recipe = Some title
         /\ store_recipes env batch w
            = store_recipes env after
                match store_recipe env recipe (snd (store_recipes env before w)) with
                | (Ok _, w2) => w2
                | (Raise e, w2) => with_events w2 [Printed (LogStoreError title e)]
                end.
Proof.
  split; [apply store_recipes_titled, Htitles|].
  intros before recipe after ->.
  apply Forall_app in Htitles as [Hbefore Hrest].
  apply Forall_cons in Hrest as [[title Hr] _].
  exists title. split; [exact Hr|].
  rewrite store_recipes_app.
  destruct (store_recipes_titled env before w Hbefore) as (w1 & ->).
  rewrite store_recipes_cons, (attempt_titled _ _ _ _ Hr). reflexivity.
Qed.

Lemma store_recipes_continues_witness :
  store_recipes quiet_env [known_recipe_7; broken_recipe_8; new_recipe_8] world_knowing_7
  = store_recipes quiet_env [new_recipe_8]
      (with_events world_knowing_7
         [Printed (LogDuplicate (py "A"));
          Printed (LogStoreError (py "B") (KeyError "extendedIngredients"))]).
Proof.
  assert (Ht : Forall (fun recipe => is_Some (r_title recipe))
                 [known_recipe_7; broken_recipe_8; new_recipe_8]).
  { repeat constructor; eexists; reflexivity. }
  destruct (store_recipes_continues quiet_env _ world_knowing_7 Ht) as (_ & Hstep).
  destruct (Hstep [known_recipe_7] broken_recipe_8 [new_recipe_8] eq_refl)
    as (title & Htitle & ->).
  injection Htitle as <-. reflexivity.
Defined.

(** C2.  The error of a record that has a title is caught: the line with
    its title and the error is printed and the next record is tried.  The
    error of a record without the key 'title' is not: such a record
    always raises in the [try] body, the [except] clause, which formats
    the title, raises [KeyError] in its turn, and the batch ends there,
    with nothing printed, nothing changed and the records after it never
    tried. *)
Theorem store_recipes_aborts_without_title :
  store_recipes quiet_env [known_recipe_7; broken_recipe_8; new_recipe_8] world_knowing_7
  = store_recipes quiet_env [new_recipe_8]
      (with_events world_knowing_7
         [Printed (LogDuplicate (py "A"));
          Printed (LogStoreError (py "B") (KeyError "extendedIngredients"))])
  /\ store_recipes quiet_env [bare_recipe; new_recipe_8] fresh_world
     = (Raise (KeyError "title"), fresh_world)
  /\ forall env recipe rest w,
       r_title recipe = None ->
       store_recipes env (recipe :: rest) w = (Raise (KeyError "title"), w).
Proof.
  split; [reflexivity|]. split; [reflexivity|].
  intros env recipe rest w Hnone.
  assert (Hbuild : forall doc, build_document recipe <> Ok doc).
  { intros doc Hb. apply build_document_title in Hb. congruence. }
  rewrite store_recipes_cons, attempt_cases, store_recipe_cases, Hnone.
  destruct (r_id recipe) as [n|];
    [|rewrite report_failure_cases, Hnone; reflexivity].
  destruct (uid_cache w) as [| | | | |entries];
    try (rewrite report_failure_cases, Hnone; reflexivity).
  destruct (truthy _); [rewrite report_failure_cases, Hnone; reflexivity|].
  destruct (build_document recipe) as [doc|e] eqn:Hb;
    [destruct (Hbuild doc eq_refl) | rewrite report_failure_cases, Hnone; reflexivity].
Qed.

(** ** The cache only grows *)

Lemma dict_get_set_eq k v entries : dict_get k (dict_set k v entries) = Some v.
Proof.
  induction entries as [|[k' v'] entries IH]; simpl.
  - rewrite decide_True by reflexivity. reflexivity.
  - destruct (decide (k = k')) as [->|Hne]; simpl.
    + rewrite decide_True by reflexivity. reflexivity.
    + rewrite decide_False by exact Hne. exact IH.
Qed.

Lemma dict_get_set_ne k k' v entries :
  k <> k' -> dict_get k' (dict_set k v entries) = dict_get k' entries.
Proof.
  intros Hne. induction entries as [|[k0 v0] entries IH]; simpl.
  - rewrite decide_False by congruence. reflexivity.
  - destruct (decide (k = k0)) as [->|Hne0]; simpl.
    + rewrite !decide_False by congruence. reflexivity.
    + destruct (decide (k' = k0)); [reflexivity | exact IH].
Qed.

Lemma cache_le_refl c : cache_le c c.
Proof. intros key. split; auto. Qed.

Lemma cache_le_trans c1 c2 c3 : cache_le c1 c2 -> cache_le c2 c3 -> cache_le c1 c3.
Proof.
  intros H12 H23 key. destruct (H12 key) as [Ha Hb], (H23 key) as [Hc Hd].
  split; auto.
Qed.

Lemma cache_le_dict_set key entries :
  cache_le (PDict entries) (PDict (dict_set key (PBool true) entries)).
Proof.
  intros k. unfold contains, cache_get.
  destruct (decide (key = k)) as [->|Hne].
  - rewrite dict_get_set_eq. split; [eauto | reflexivity].
  - rewrite dict_get_set_ne by exact Hne. split; auto.
Qed.

Lemma grows_ret {A} (a : A) : grows (ret a).
Proof. intros w. apply cache_le_refl. Qed.

Lemma grows_raise {A} e : grows (@raise A e).
Proof. intros w. apply cache_le_refl. Qed.

Lemma grows_lift {A} (r : result A) : grows (lift r).
Proof. intros w. apply cache_le_refl. Qed.

Lemma grows_emit ev : grows (emit ev).
Proof. intros w. apply cache_le_refl. Qed.

Lemma grows_bind {A B} (m : M A) (k : A -> M B) :
  grows m -> (forall a, grows (k a)) -> grows (bind m k).
Proof.
  intros Hm Hk w. unfold bind. specialize (Hm w).
  destruct (m w) as [[a|e] w1]; simpl in *; [|exact Hm].
  eapply cache_le_trans; [exact Hm | apply Hk].
Qed.

Lemma grows_try_except {A} (body : M A) catches handler :
  grows body -> (forall e, grows (handler e)) -> grows (try_except body catches handler).
Proof.
  intros Hb Hh w. unfold try_except. specialize (Hb w).
  destruct (body w) as [[a|e] w1]; simpl in *; [exact Hb|].
  destruct (catches e); [|exact Hb].
  eapply cache_le_trans; [exact Hb | apply Hh].
Qed.

Lemma grows_cache_setitem key : grows (cache_setitem key).
Proof.
  intros w. unfold cache_setitem, bind, get_uid_cache, set_uid_cache, emit, raise.
  destruct (uid_cache w) as [| | | | |entries] eqn:Hc; simpl; rewrite ?Hc;
    try apply cache_le_refl.
  apply cache_le_dict_set.
Qed.

Lemma grows_save_uid_cache : grows save_uid_cache.
Proof. intros w. apply cache_le_refl. Qed.

Lemma grows_cache_add key : grows (cache_add key).
Proof.
  apply grows_bind; [apply grows_cache_setitem | intros _; apply grows_save_uid_cache].
Qed.

Lemma grows_for_each_setitem keys : grows (for_each_M keys cache_setitem).
Proof.
  induction keys as [|key keys IH]; simpl.
  - apply grows_ret.
  - apply grows_bind; [apply grows_cache_setitem | intros _; exact IH].
Qed.

Lemma grows_store_set env doc_id doc : grows (store_set env doc_id doc).
Proof.
  unfold store_set. destruct (store_fault env doc_id); [apply grows_raise|].
  apply grows_bind; [|intros _; apply grows_emit].
  intros w. apply cache_le_refl.
Qed.

Lemma grows_recipe_exists n : grows (recipe_exists n).
Proof.
  intros w. unfold recipe_exists, bind, get_uid_cache, ret, raise.
  destruct (uid_cache w) eqn:Hc; simpl; rewrite ?Hc; apply cache_le_refl.
Qed.

Lemma grows_store_recipe env recipe : grows (store_recipe env recipe).
Proof.
  unfold store_recipe.
  apply grows_bind; [apply grows_lift | intros n].
  apply grows_bind; [apply grows_recipe_exists | intros known].
  destruct (negb (truthy known)).
  - apply grows_bind; [apply grows_lift | intros doc].
    apply grows_bind; [apply grows_store_set | intros _].
    apply grows_bind; [apply grows_lift | intros title].
    apply grows_bind; [apply grows_emit | intros _].
    apply grows_cache_add.
  - apply grows_bind; [apply grows_lift | intros title]. apply grows_emit.
Qed.

Lemma grows_report_failure recipe e : grows (report_failure recipe e).
Proof.
  apply grows_bind; [apply grows_lift | intros title]. apply grows_emit.
Qed.

Lemma grows_store_recipes env recipes : grows (store_recipes env recipes).
Proof.
  induction recipes as [|recipe recipes IH]; simpl.
  - apply grows_ret.
  - apply grows_bind; [|intros _; exact IH].
    apply grows_try_except; [apply grows_store_recipe | apply grows_report_failure].
Qed.

Lemma grows_fetch_recipes env : grows (fetch_recipes env).
Proof.
  unfold fetch_recipes. apply grows_try_except.
  - apply grows_bind; [apply grows_emit | intros _].
    destruct (http_reply env) as [msg | status body]; [apply grows_raise|].
    destruct (is_error_status status); [apply grows_raise|].
    destruct body; try apply grows_raise. apply grows_lift.
  - intros e. apply grows_bind; [apply grows_emit | intros _; apply grows_ret].
Qed.

(** What [initialize_uid_cache] does after it has assigned the loaded
    cache. *)
Lemma initialize_uid_cache_cases w loaded :
  load_uid_cache w = (Ok loaded, w) ->
  initialize_uid_cache w =
  let w1 := {| uid_cache := loaded; cache_file := cache_file w;
               firestore := firestore w; events := events w |} in
  if truthy loaded then (Ok tt, w1)
  else
    bind (for_each_M (List.map fst (map_to_list (firestore w))) cache_setitem)
      (fun _ => save_uid_cache) (with_events w1 [StoreList]).
Proof.
  intros Hl.
  unfold initialize_uid_cache, bind at 1. rewrite Hl.
  unfold set_uid_cache, get_uid_cache, stream_recipes, emit, bind, ret. cbn.
  destruct (truthy loaded); reflexivity.
Qed.

Lemma grows_initialize_uid_cache w loaded :
  load_uid_cache w = (Ok loaded, w) ->
  cache_le loaded (uid_cache (snd (initialize_uid_cache w))).
Proof.
  intros Hl. rewrite (initialize_uid_cache_cases w loaded Hl). cbn zeta.
  destruct (truthy loaded); [apply cache_le_refl|].
  match goal with
  | |- cache_le _ (uid_cache (snd (?m ?w1))) =>
      assert (Hg : grows m)
        by (apply grows_bind; [apply grows_for_each_setitem
                              | intros _; apply grows_save_uid_cache]);
      apply (Hg w1)
  end.
Qed.

Lemma grows_after_initialize env w :
  cache_le (uid_cache (snd (initialize_uid_cache w))) (uid_cache (snd (main env w))).
Proof.
  unfold main, bind at 1.
  destruct (initialize_uid_cache w) as [[[]|e] w1]; [|apply cache_le_refl].
  match goal with
  | |- cache_le _ (uid_cache (snd (?m w1))) => assert (Hg : grows m); [|apply (Hg w1)]
  end.
  apply grows_bind; [apply grows_fetch_recipes | intros recipes].
  destruct recipes as [|recipe recipes]; [apply grows_emit|].
  apply grows_bind; [apply grows_store_recipes | intros _; apply grows_emit].
Qed.

(** C9.  Nothing leaves the cache within a run.  Adding an identifier,
    processing a batch (also one that raises), hydration after the cache
    has been loaded, and the rest of the run after initialization keep
    every key of the cache and keep marked present whatever was marked
    present.  When the file cannot be loaded, the exception ends the
    initialization and the world is as it was. *)
Theorem cache_only_grows (env : Env) (w : World) :
  (forall key, cache_le (uid_cache w) (uid_cache (snd (cache_add key w))))
  /\ (forall recipes,
        cache_le (uid_cache w) (uid_cache (snd (store_recipes env recipes w))))
  /\ ((exists loaded,
         load_uid_cache w = (Ok loaded, w)
         /\ cache_le loaded (uid_cache (snd (initialize_uid_cache w))))
      \/ (exists e,
            load_uid_cache w = (Raise e, w)
            /\ initialize_uid_cache w = (Raise e, w)))
  /\ cache_le (uid_cache (snd (initialize_uid_cache w))) (uid_cache (snd (main env w))).
Proof.
  split; [intros key; apply grows_cache_add|].
  split; [intros recipes; apply grows_store_recipes|].
  split; [|apply grows_after_initialize].
  destruct (load_uid_cache_outcomes w) as [(loaded & Hl) | (e & Hl & _)].
  - left. exists loaded. split; [exact Hl | apply grows_initialize_uid_cache, Hl].
  - right. exists e. split; [exact Hl | apply initialize_uid_cache_raises, Hl].
Qed.

(** ** A known record and a new one *)

Lemma contains_dict entries key :
  contains (PDict entries) key
  = truthy (get_default (dict_get key entries) (PBool false)).
Proof. reflexivity. Qed.

Lemma contains_true_dict cache key :
  contains cache key = true -> exists entries, cache = PDict entries.
Proof. destruct cache; try discriminate. eauto. Qed.

Lemma attempt_duplicate env recipe n title entries w :
  r_id recipe = Some n -> r_title recipe = Some title ->
  uid_cache w = PDict entries ->
  contains (PDict entries) (str_of_int n) = true ->
  attempt env recipe w = (Ok tt, with_events w [Printed (LogDuplicate title)]).
Proof.
  intros Hid Ht Hc Hk. rewrite contains_dict in Hk.
  rewrite attempt_cases, store_recipe_cases, Hid, Hc, Hk, Ht. reflexivity.
Qed.

Lemma attempt_new env recipe n doc entries w :
  r_id recipe = Some n -> build_document recipe = Ok doc ->
  store_fault env (str_of_int n) = None ->
  uid_cache w = PDict entries ->
  contains (PDict entries) (str_of_int n) = false ->
  attempt env recipe w =
  (Ok tt,
   let cache := PDict (dict_set (str_of_int n) (PBool true) entries) in
   {| uid_cache := cache;
      cache_file := Some (FileText (json_dumps cache));
      firestore := <[str_of_int n := doc]> (firestore w);
      events := events w ++
        [StoreSet (str_of_int n) doc; Printed (LogStored (d_title doc));
         CacheAdd (str_of_int n); FileWrite (json_dumps cache)] |}).
Proof.
  intros Hid Hb Hs Hc Hk. rewrite contains_dict in Hk.
  rewrite attempt_cases, store_recipe_cases, Hid, Hc, Hk, Hb, Hs. reflexivity.
Qed.

(** C4, as the code has it.  Take a batch of a record whose identifier is
    marked present in the cache and a record whose identifier is not, in
    either order, the first with a title, the second one that is built
    without error and that the store accepts.  Then the batch is processed
    without exception; among its events there is one write to the document
    store and one addition to the cache, both for the new identifier and
    the write first; the store and the cache change by that document and
    that key only, and the attempt on the known record changes neither the
    store nor the cache nor the cache file. *)
Theorem one_write_then_one_add (env : Env) (w : World) (dup new : Recipe)
    (n_dup n_new : Z) (doc : Document)
    (Hdup_id : r_id dup = Some n_dup)
    (Hdup_title : is_Some (r_title dup))
    (Hdup : contains (uid_cache w) (str_of_int n_dup) = true)
    (Hnew_id : r_id new = Some n_new)
    (Hnew : contains (uid_cache w) (str_of_int n_new) = false)
    (Hdoc : build_document new = Ok doc)
    (Hstore : store_fault env (str_of_int n_new) = None) :
  (forall batch, batch = [dup; new] \/ batch = [new; dup] ->
     exists w' evs entries,
       store_recipes env batch w = (Ok tt, w')
       /\ events w' = events w ++ evs
       /\ List.filter is_write_or_add evs
          = [StoreSet (str_of_int n_new) doc; CacheAdd (str_of_int n_new)]
       /\ firestore w' = <[str_of_int n_new := doc]> (firestore w)
       /\ uid_cache w = PDict entries
       /\ uid_cache w' = PDict (dict_set (str_of_int n_new) (PBool true) entries))
  /\ (exists title,
        attempt env dup w = (Ok tt, with_events w [Printed (LogDuplicate title)])).
Proof.
  destruct Hdup_title as [title Hdup_title].
  destruct (contains_true_dict _ _ Hdup) as (entries & Hc).
  rewrite Hc in Hdup, Hnew.
  assert (Hne : str_of_int n_new <> str_of_int n_dup) by congruence.
  split.
  - intros batch [-> | ->].
    + eexists _, _, entries.
      rewrite store_recipes_cons.
      rewrite (attempt_duplicate env dup n_dup title entries w) by assumption.
      cbv beta iota. rewrite store_recipes_cons.
      rewrite (attempt_new env new n_new doc entries) by assumption.
      split; [reflexivity|]. simpl.
      split; [rewrite <- app_assoc; reflexivity|].
      simpl. auto.
    + eexists _, _, entries.
      rewrite store_recipes_cons.
      rewrite (attempt_new env new n_new doc entries w) by assumption.
      cbv beta iota zeta. rewrite store_recipes_cons.
      erewrite (attempt_duplicate env dup n_dup title); [| assumption | assumption | reflexivity |].
      * split; [reflexivity|]. simpl.
        split; [rewrite <- app_assoc; reflexivity|].
        simpl. auto.
      * rewrite contains_dict, dict_get_set_ne by exact Hne. exact Hdup.
  - exists title. apply (attempt_duplicate env dup n_dup title entries); assumption.
Qed.

Lemma one_write_then_one_add_witness :
  exists w' doc,
    store_recipes quiet_env [known_recipe_7; new_recipe_8] world_knowing_7 = (Ok tt, w')
    /\ firestore w' = <[py "8" := doc]> ∅
    /\ uid_cache w' = PDict [(py "7", PBool true); (py "8", PBool true)].
Proof.
  destruct (build_document new_recipe_8) as [doc|e] eqn:Hdoc; [|discriminate Hdoc].
  destruct (one_write_then_one_add quiet_env world_knowing_7 known_recipe_7 new_recipe_8
              7 8 doc eq_refl (ex_intro _ _ eq_refl) eq_refl eq_refl eq_refl Hdoc eq_refl)
    as (Hbatch & _).
  destruct (Hbatch _ (or_introl eq_refl))
    as (w' & evs & entries & Hrun & _ & _ & Hstore & Hc & Hc').
  exists w', doc. split; [exact Hrun|]. split; [exact Hstore|].
  injection Hc as <-. exact Hc'.
Defined.

(** C4, as it is stated, fails: when the new record cannot be built, or
    when the store refuses it, the batch of a known and a new record ends
    with no write and no addition to the cache. *)
Lemma no_write_when_new_record_fails :
  contains (uid_cache world_knowing_7) (str_of_int 7) = true
  /\ contains (uid_cache world_knowing_7) (str_of_int 8) = false
  /\ store_recipes quiet_env [known_recipe_7; broken_recipe_8] world_knowing_7
     = (Ok tt,
        with_events world_knowing_7
          [Printed (LogDuplicate (py "A"));
           Printed (LogStoreError (py "B") (KeyError "extendedIngredients"))])
  /\ store_recipes env_store_down [known_recipe_7; new_recipe_8] world_knowing_7
     = (Ok tt,
        with_events world_knowing_7
          [Printed (LogDuplicate (py "A"));
           Printed (LogStoreError (py "B") (StoreError "unavailable"))]).
Proof. repeat split; reflexivity. Qed.

(** ** Writing the cache file and reading it back *)

#[local] Ltac Zify.zify_post_hook ::= Z.to_euclidean_division_equations.

Lemma hex_digit_value_hex_digit d : d < 16 -> hex_digit_value (hex_digit d) = Some d.
Proof.
  intros H.
  assert (Hd : In d (List.map N.of_nat (seq 0 16))).
  { apply in_map_iff. exists (N.to_nat d). split; [lia|]. apply in_seq. lia. }
  clear H. revert d Hd.
  apply (proj1 (List.Forall_forall (fun d => hex_digit_value (hex_digit d) = Some d) _)).
  repeat constructor.
Qed.

Lemma decode_u4_hex n rest :
  n < 65536 ->
  decode_u4 (hex_digit (n / 4096) :: hex_digit ((n / 256) mod 16)
             :: hex_digit ((n / 16) mod 16) :: hex_digit (n mod 16) :: rest)
  = Some (n, rest).
Proof.
  intros H. unfold decode_u4.
  rewrite !hex_digit_value_hex_digit by lia.
  f_equal. f_equal. lia.
Qed.

Lemma scan_char_u rest0 :
  scan_char (92 :: 117 :: rest0) =
  match decode_u4 rest0 with
  | Some (uni, s3) =>
      match join_surrogates uni s3 with
      | Some (ch, s4) => Some (inr ch, s4)
      | None => None
      end
  | None => None
  end.
Proof. reflexivity. Qed.

Lemma scan_char_u_escape n rest :
  n < 65536 ->
  scan_char (u_escape n ++ rest) =
  match join_surrogates n rest with
  | Some (ch, s4) => Some (inr ch, s4)
  | None => None
  end.
Proof.
  intros H. unfold u_escape. rewrite <- !app_comm_cons, app_nil_l.
  rewrite scan_char_u, decode_u4_hex by exact H. reflexivity.
Qed.

Lemma scan_char_plain c rest :
  in_range 32 126 c = true -> (c =? 34) = false -> (c =? 92) = false ->
  scan_char (c :: rest) = Some (inr c, rest).
Proof.
  intros Hr H34 H92. unfold scan_char. rewrite H34, H92.
  unfold in_range in Hr. apply andb_true_iff in Hr as [Hlo _].
  apply N.leb_le in Hlo.
  destruct (N.ltb_spec c 32); [lia | reflexivity].
Qed.

(** Reading gives back the character that was written. *)
Lemma scan_char_escape_char c rest :
  is_scalar c = true -> scan_char (escape_char c ++ rest) = Some (inr c, rest).
Proof.
  intros Hs. unfold escape_char.
  destruct (N.eqb_spec c 34) as [->|H34]; [reflexivity|].
  destruct (N.eqb_spec c 92) as [->|H92]; [reflexivity|].
  destruct (N.eqb_spec c 10) as [->|H10]; [reflexivity|].
  destruct (N.eqb_spec c 13) as [->|H13]; [reflexivity|].
  destruct (N.eqb_spec c 9) as [->|H9]; [reflexivity|].
  destruct (N.eqb_spec c 8) as [->|H8]; [reflexivity|].
  destruct (N.eqb_spec c 12) as [->|H12]; [reflexivity|].
  destruct (in_range 32 126 c) eqn:Hp.
  { apply scan_char_plain; [exact Hp | |]; apply N.eqb_neq; assumption. }
  unfold is_scalar in Hs.
  destruct (N.ltb_spec c 0x10000) as [Hlt|Hge].
  - rewrite scan_char_u_escape by exact Hlt.
    unfold join_surrogates.
    assert (in_range 0xD800 0xDBFF c = false) as ->; [|reflexivity].
    unfold in_range. apply andb_false_iff.
    apply orb_true_iff in Hs as [Hs | Hs].
    + apply N.ltb_lt in Hs. left. apply N.leb_gt. exact Hs.
    + apply andb_true_iff in Hs as [Hs _]. apply N.ltb_lt in Hs.
      right. apply N.leb_gt. lia.
  - assert (Hc : c < 0x110000).
    { apply orb_true_iff in Hs as [Hs | Hs].
      - apply N.ltb_lt in Hs. lia.
      - apply andb_true_iff in Hs as [_ Hs]. apply N.ltb_lt in Hs. exact Hs. }
    cbv zeta. rewrite <- app_assoc.
    rewrite scan_char_u_escape by lia.
    unfold join_surrogates.
    assert (in_range 0xD800 0xDBFF (0xD800 + ((c - 0x10000) / 1024) mod 1024) = true) as ->.
    { unfold in_range. apply andb_true_iff. split; apply N.leb_le; lia. }
    unfold u_escape at 1. rewrite <- !app_comm_cons, app_nil_l.
    cbn [strip_prefix]. rewrite !N.eqb_refl.
    rewrite decode_u4_hex by lia.
    assert (in_range 0xDC00 0xDFFF (0xDC00 + (c - 0x10000) mod 1024) = true) as ->.
    { unfold in_range. apply andb_true_iff. split; apply N.leb_le; lia. }
    f_equal. f_equal. f_equal. lia.
Qed.

Lemma scanstring_encoded s : forall rest fuel,
  forallb is_scalar s = true -> (length s < fuel)%nat ->
  scanstring fuel (flat_map escape_char s ++ 34 :: rest) = Some (s, rest).
Proof.
  induction s as [|c s IH]; intros rest fuel Hs Hf.
  - destruct fuel as [|fuel]; [simpl in Hf; lia|]. reflexivity.
  - destruct fuel as [|fuel]; [simpl in Hf; lia|].
    cbn [forallb] in Hs. apply andb_true_iff in Hs as [Hc Hs].
    cbn [flat_map]. rewrite <- app_assoc. cbn [scanstring].
    rewrite scan_char_escape_char by exact Hc.
    rewrite IH; [reflexivity | exact Hs | simpl in Hf; lia].
Qed.

Lemma escape_char_length c : (1 <= length (escape_char c))%nat.
Proof.
  unfold escape_char.
  repeat match goal with
         | |- context [if ?b then _ else _] => destruct b
         end; cbv zeta; rewrite ?length_app; simpl; lia.
Qed.

Lemma flat_map_escape_length s : (length s <= length (flat_map escape_char s))%nat.
Proof.
  induction s as [|c s IH]; simpl; [lia|].
  rewrite length_app. pose proof (escape_char_length c). lia.
Qed.

(** One pair of a cache, as [json.dumps] writes it. *)
Lemma json_dumps_dict entries :
  json_dumps (PDict entries) =
  123 :: join (py ", ")
           (List.map (fun kv => encode_string (fst kv) ++ py ": " ++ json_dumps (snd kv))
              entries)
         ++ [125].
Proof. reflexivity. Qed.

Lemma member_true key :
  encode_string key ++ py ": " ++ json_dumps (PBool true)
  = 34 :: flat_map escape_char key ++ 34 :: 58 :: 32 :: py "true".
Proof.
  unfold encode_string. rewrite <- app_comm_cons, <- app_assoc. reflexivity.
Qed.

Lemma parse_members_quote fuel depth s1 :
  parse_members (S fuel) depth (34 :: s1) =
  match scanstring (length s1) s1 with
  | Some (key, rest) =>
      match skip_ws rest with
      | c1 :: rest1 =>
          if c1 =? 58 then
            match parse_value fuel depth (skip_ws rest1) with
            | Ok (v, rest2) =>
                match skip_ws rest2 with
                | c2 :: rest3 =>
                    if c2 =? 125 then Ok ([(key, v)], rest3)
                    else if c2 =? 44 then
                      match parse_members fuel depth (skip_ws rest3) with
                      | Ok (pairs, rest4) => Ok ((key, v) :: pairs, rest4)
                      | Raise e => Raise e
                      end
                    else Raise JSONDecodeError
                | [] => Raise JSONDecodeError
                end
            | Raise e => Raise e
            end
          else Raise JSONDecodeError
      | [] => Raise JSONDecodeError
      end
  | None => Raise JSONDecodeError
  end.
Proof. reflexivity. Qed.

Lemma skip_ws_true rest : skip_ws (py "true" ++ rest) = py "true" ++ rest.
Proof. reflexivity. Qed.

Lemma parse_value_true fuel depth rest :
  parse_value (S fuel) depth (py "true" ++ rest) = Ok (PBool true, rest).
Proof. reflexivity. Qed.

(** The text of one pair, followed by [tail], scanned up to its value. *)
Lemma scan_member key tail :
  forallb is_scalar key = true ->
  scanstring (length (flat_map escape_char key ++ 34 :: 58 :: 32 :: py "true" ++ tail))
    (flat_map escape_char key ++ 34 :: 58 :: 32 :: py "true" ++ tail)
  = Some (key, 58 :: 32 :: py "true" ++ tail).
Proof.
  intros Hk. apply scanstring_encoded; [exact Hk|].
  rewrite length_app. pose proof (flat_map_escape_length key). simpl. lia.
Qed.

Lemma parse_members_dumped depth entries : forall rest fuel,
  entries <> [] ->
  Forall (fun kv => forallb is_scalar (fst kv) = true /\ snd kv = PBool true) entries ->
  (length entries < fuel)%nat ->
  parse_members fuel depth
    (join (py ", ")
       (List.map (fun kv => encode_string (fst kv) ++ py ": " ++ json_dumps (snd kv))
          entries)
     ++ 125 :: rest)
  = Ok (entries, rest).
Proof.
  induction entries as [|[key v] entries IH]; intros rest fuel Hne Hok Hf; [congruence|].
  apply Forall_cons in Hok as [[Hkey Hv] Hok]. simpl in Hkey, Hv. subst v.
  destruct fuel as [|fuel]; [simpl in Hf; lia|].
  destruct fuel as [|fuel]; [simpl in Hf; lia|].
  destruct entries as [|[key' v'] entries].
  - cbn [List.map join fst snd]. rewrite member_true.
    rewrite <- app_comm_cons, <- app_assoc, <- !app_comm_cons.
    rewrite parse_members_quote.
    rewrite scan_member by exact Hkey.
    cbn [skip_ws is_json_ws N.eqb Pos.eqb orb].
    rewrite skip_ws_true, parse_value_true. reflexivity.
  - remember ((key', v') :: entries) as more eqn:Hmore.
    assert (Hjoin : join (py ", ")
              (List.map (fun kv => encode_string (fst kv) ++ py ": " ++ json_dumps (snd kv))
                 ((key, PBool true) :: more))
            = (34 :: flat_map escape_char key ++ 34 :: 58 :: 32 :: py "true")
              ++ py ", "
              ++ join (py ", ")
                   (List.map (fun kv => encode_string (fst kv) ++ py ": " ++ json_dumps (snd kv))
                      more)).
    { subst more. cbn [List.map join fst snd]. rewrite member_true. reflexivity. }
    rewrite Hjoin. clear Hjoin.
    rewrite <- !app_assoc, <- !app_comm_cons, <- app_assoc, <- !app_comm_cons.
    rewrite parse_members_quote.
    rewrite scan_member by exact Hkey.
    cbn [skip_ws is_json_ws N.eqb Pos.eqb orb].
    rewrite skip_ws_true, parse_value_true.
    change (py ", " ++ ?x) with (44 :: 32 :: x).
    cbn [skip_ws is_json_ws N.eqb Pos.eqb orb].
    assert (Hskip : forall x, skip_ws
              (join (py ", ")
                 (List.map (fun kv => encode_string (fst kv) ++ py ": " ++ json_dumps (snd kv))
                    more) ++ x)
            = join (py ", ")
                (List.map (fun kv => encode_string (fst kv) ++ py ": " ++ json_dumps (snd kv))
                   more) ++ x).
    { intros x. subst more. cbn [List.map join fst snd].
      destruct entries; unfold encode_string; rewrite <- ?app_assoc, <- !app_comm_cons;
        reflexivity. }
    rewrite Hskip, IH; [reflexivity | subst more; discriminate | exact Hok |].
    simpl in Hf |- *. lia.
Qed.

Lemma dict_set_fresh key v entries :
  ~ In key (List.map fst entries) -> dict_set key v entries = entries ++ [(key, v)].
Proof.
  induction entries as [|[k' v'] entries IH]; intros Hnin; simpl.
  - reflexivity.
  - simpl in Hnin. rewrite decide_False by (intros ->; apply Hnin; left; reflexivity).
    rewrite IH by (intros Hin; apply Hnin; right; exact Hin). reflexivity.
Qed.

Lemma dict_set_known key v entries :
  In key (List.map fst entries) ->
  List.map fst (dict_set key v entries) = List.map fst entries.
Proof.
  induction entries as [|[k' v'] entries IH]; intros Hin; simpl in *; [destruct Hin|].
  destruct (decide (key = k')) as [->|Hne]; simpl; [reflexivity|].
  f_equal. apply IH. destruct Hin as [Heq | Hin]; [congruence | exact Hin].
Qed.

Lemma dict_set_entries key v entries kv :
  In kv (dict_set key v entries) -> kv = (key, v) \/ In kv entries.
Proof.
  induction entries as [|[k' v'] entries IH]; simpl.
  - intros [<- | []]. left. reflexivity.
  - destruct (decide (key = k')) as [->|Hne]; simpl.
    + intros [<- | Hin]; auto.
    + intros [<- | Hin]; [auto|]. destruct (IH Hin); auto.
Qed.

Lemma fold_dict_set_fresh pairs : forall acc,
  NoDup (List.map fst acc ++ List.map fst pairs) ->
  fold_left (fun d kv => dict_set (fst kv) (snd kv) d) pairs acc = acc ++ pairs.
Proof.
  induction pairs as [|[k v] pairs IH]; intros acc Hnd; simpl.
  - rewrite app_nil_r. reflexivity.
  - simpl in Hnd. apply NoDup_ListNoDup in Hnd.
    rewrite dict_set_fresh.
    + rewrite IH; [rewrite <- app_assoc; reflexivity|].
      apply NoDup_ListNoDup. rewrite map_app, <- app_assoc. exact Hnd.
    + apply List.NoDup_remove_2 in Hnd. intros Hin. apply Hnd.
      apply in_or_app. left. exact Hin.
Qed.

Lemma dict_of_pairs_nodup pairs :
  NoDup (List.map fst pairs) -> dict_of_pairs pairs = pairs.
Proof. intros Hnd. unfold dict_of_pairs. rewrite fold_dict_set_fresh; auto. Qed.

Lemma join_members_length (parts : list pystr) sep :
  Forall (fun p => (1 <= length p)%nat) parts ->
  (length parts <= length (join sep parts))%nat.
Proof.
  induction parts as [|p parts IH]; intros H; [simpl; lia|].
  apply Forall_cons in H as [Hp H]. specialize (IH H).
  destruct parts as [|q parts]; simpl in *; [lia|].
  rewrite !length_app. lia.
Qed.

(** What [save_uid_cache] writes for a cache of the data model,
    [load_uid_cache] reads back as that cache: the text holds one
    object and nothing inside it. *)
Lemma json_loads_dumped depth entries :
  (0 < depth)%nat ->
  NoDup (List.map fst entries) ->
  Forall (fun kv => forallb is_scalar (fst kv) = true /\ snd kv = PBool true) entries ->
  json_loads depth (json_dumps (PDict entries)) = Ok (PDict entries).
Proof.
  intros Hdepth Hnd Hok.
  destruct depth as [|depth]; [lia|]. clear Hdepth.
  destruct entries as [|kv entries]; [reflexivity|].
  remember (kv :: entries) as es eqn:Hes.
  rewrite json_dumps_dict. unfold json_loads.
  set (members := join (py ", ")
         (List.map (fun kv => encode_string (fst kv) ++ py ": " ++ json_dumps (snd kv)) es)).
  assert (Hlen : (length es <= length members)%nat).
  { unfold members. etransitivity; [|apply join_members_length].
    - rewrite length_map. reflexivity.
    - apply List.Forall_forall. intros p Hp. apply in_map_iff in Hp as (x & <- & _).
      unfold encode_string. simpl. lia. }
  assert (Hhead : exists tail, members = 34 :: tail).
  { unfold members. subst es. destruct kv as [k v]. cbn [List.map join fst snd].
    unfold encode_string. destruct entries; rewrite <- ?app_comm_cons; eauto. }
  destruct Hhead as (tail & Hhead).
  cbn [skip_ws is_json_ws N.eqb Pos.eqb orb length].
  set (text := members ++ [125]).
  replace (2 * S (length text) + 2)%nat with (S (S (2 * length text + 2)))%nat by lia.
  subst text.
  cbn [parse_value N.eqb Pos.eqb].
  rewrite Hhead at 1. cbn [app skip_ws is_json_ws N.eqb Pos.eqb orb].
  rewrite app_comm_cons, <- Hhead. subst members.
  rewrite (parse_members_dumped depth es []).
  - rewrite dict_of_pairs_nodup by exact Hnd. reflexivity.
  - subst es. discriminate.
  - exact Hok.
  - rewrite length_app. cbn [length]. lia.
Qed.

Lemma load_uid_cache_dumped w entries :
  cache_file w = Some (FileText (json_dumps (PDict entries))) ->
  NoDup (List.map fst entries) ->
  Forall (fun kv => forallb is_scalar (fst kv) = true /\ snd kv = PBool true) entries ->
  load_uid_cache w = (Ok (PDict entries), w).
Proof.
  intros Hfile Hnd Hok.
  rewrite (load_uid_cache_text w _ Hfile), json_loads_dumped;
    [reflexivity | unfold scanner_depth; lia | exact Hnd | exact Hok].
Qed.

(** ** Hydration *)

Lemma fold_left_all_present ids : forall acc,
  fold_left (fun d doc_id => dict_set doc_id (PBool true) d) ids acc
  = fold_left (fun d kv => dict_set (fst kv) (snd kv) d) (all_present ids) acc.
Proof.
  induction ids as [|doc_id ids IH]; intros acc; simpl; [reflexivity | apply IH].
Qed.

Lemma all_present_keys ids : List.map fst (all_present ids) = ids.
Proof.
  unfold all_present. rewrite List.map_map. simpl. apply List.map_id.
Qed.

Lemma for_each_setitem_run ids : forall w acc,
  uid_cache w = PDict acc ->
  for_each_M ids cache_setitem w =
  (Ok tt,
   {| uid_cache := PDict (fold_left (fun d doc_id => dict_set doc_id (PBool true) d) ids acc);
      cache_file := cache_file w; firestore := firestore w;
      events := events w ++ List.map CacheAdd ids |}).
Proof.
  induction ids as [|doc_id ids IH]; intros w acc Hc.
  - destruct w as [c f s e]. simpl in *. subst c. rewrite app_nil_r. reflexivity.
  - cbn [for_each_M]. unfold bind at 1.
    unfold cache_setitem at 1, bind, get_uid_cache, set_uid_cache, emit. rewrite Hc.
    cbn -[for_each_M]. erewrite IH by reflexivity.
    cbn. rewrite <- app_assoc. reflexivity.
Qed.

Lemma initialize_keeps w entries :
  load_uid_cache w = (Ok (PDict entries), w) -> entries <> [] ->
  initialize_uid_cache w =
  (Ok tt,
   {| uid_cache := PDict entries; cache_file := cache_file w;
      firestore := firestore w; events := events w |}).
Proof.
  intros Hl Hne. rewrite (initialize_uid_cache_cases w _ Hl).
  destruct entries; [congruence | reflexivity].
Qed.

Lemma initialize_hydrates w :
  load_uid_cache w = (Ok (PDict []), w) ->
  initialize_uid_cache w =
  (Ok tt,
   let cache := PDict (all_present (List.map fst (map_to_list (firestore w)))) in
   {| uid_cache := cache; cache_file := Some (FileText (json_dumps cache));
      firestore := firestore w;
      events := events w ++
        [StoreList] ++ List.map CacheAdd (List.map fst (map_to_list (firestore w)))
        ++ [FileWrite (json_dumps cache)] |}).
Proof.
  intros Hl. rewrite (initialize_uid_cache_cases w _ Hl). cbn [truthy]. cbv zeta.
  unfold bind. erewrite for_each_setitem_run by reflexivity.
  rewrite fold_left_all_present, fold_dict_set_fresh.
  - unfold save_uid_cache. cbn. rewrite <- !app_assoc. reflexivity.
  - rewrite all_present_keys. cbn [List.map app].
    apply (NoDup_fst_map_to_list (firestore w)).
Qed.

Lemma listing_ids (w : World) doc_id :
  In doc_id (List.map fst (map_to_list (firestore w))) <-> is_Some (firestore w !! doc_id).
Proof.
  rewrite in_map_iff. split.
  - intros ([k d] & <- & Hin). apply list_elem_of_In, elem_of_map_to_list in Hin.
    simpl. eauto.
  - intros [d Hd]. exists (doc_id, d). split; [reflexivity|].
    apply list_elem_of_In, elem_of_map_to_list. exact Hd.
Qed.

Lemma all_present_ok ids :
  Forall (fun doc_id => forallb is_scalar doc_id = true) ids ->
  Forall (fun kv => forallb is_scalar (fst kv) = true /\ snd kv = PBool true)
    (all_present ids).
Proof.
  intros H. unfold all_present. apply Forall_map.
  eapply Forall_impl; [exact H|]. simpl. auto.
Qed.

(** C6.  Let the cache file be such that loading it gives a dictionary.
    Then [initialize_uid_cache] returns, and it lists the remote
    collection exactly when that dictionary is empty.  In that case the
    cache file afterwards holds what [json.dump] writes for the dictionary
    that marks present exactly the identifiers of the listing, and loading
    that file gives this dictionary back. *)
Theorem hydration_iff_empty (w : World) (entries : list (pystr * pyval))
    (Hload : load_uid_cache w = (Ok (PDict entries), w))
    (Hids : forall doc_id,
        is_Some (firestore w !! doc_id) -> forallb is_scalar doc_id = true) :
  let w' := snd (initialize_uid_cache w) in
  let ids := List.map fst (map_to_list (firestore w)) in
  fst (initialize_uid_cache w) = Ok tt
  /\ (exists evs,
        events w' = events w ++ evs
        /\ (existsb is_store_list evs = true <-> entries = []))
  /\ (entries = [] ->
        uid_cache w' = PDict (all_present ids)
        /\ cache_file w' = Some (FileText (json_dumps (PDict (all_present ids))))
        /\ load_uid_cache w' = (Ok (PDict (all_present ids)), w')
        /\ forall doc_id,
             In doc_id (cache_keys (PDict (all_present ids)))
             <-> is_Some (firestore w !! doc_id)).
Proof.
  cbv zeta. destruct entries as [|kv entries].
  - rewrite (initialize_hydrates w Hload). cbn [fst snd].
    split; [reflexivity|]. split.
    + eexists. cbn [events]. split; [reflexivity|]. split; reflexivity.
    + intros _. cbn [uid_cache cache_file].
      split; [reflexivity|]. split; [reflexivity|]. split.
      * apply load_uid_cache_dumped; [reflexivity | |].
        -- rewrite all_present_keys. apply (NoDup_fst_map_to_list (firestore w)).
        -- apply all_present_ok, List.Forall_forall. intros doc_id Hin.
           apply Hids, listing_ids, Hin.
      * intros doc_id. cbn [cache_keys]. rewrite all_present_keys. apply listing_ids.
  - rewrite (initialize_keeps w _ Hload) by discriminate. cbn [fst snd].
    split; [reflexivity|]. split.
    + exists []. cbn [events]. rewrite app_nil_r. split; [reflexivity|].
      split; discriminate.
    + discriminate.
Qed.

Lemma hydration_iff_empty_witness :
  let w' := snd (initialize_uid_cache world_with_remote_41) in
  uid_cache w' = PDict [(py "41", PBool true)]
  /\ load_uid_cache w' = (Ok (PDict [(py "41", PBool true)]), w').
Proof.
  assert (Hids : forall doc_id,
             is_Some (firestore world_with_remote_41 !! doc_id) ->
             forallb is_scalar doc_id = true).
  { intros doc_id [d Hd]. unfold world_with_remote_41 in Hd. cbn [firestore] in Hd.
    apply lookup_singleton_Some in Hd as [<- _]. reflexivity. }
  destruct (hydration_iff_empty world_with_remote_41 [] eq_refl Hids)
    as (_ & _ & Hhydrated).
  destruct (Hhydrated eq_refl) as (Hcache & _ & Hreload & _).
  split; [exact Hcache | exact Hreload].
Defined.

(** Outside the data model: a cache file that holds a false value which
    is no dictionary is taken for an empty cache as well; hydration then
    stops at the first listed document, at the assignment. *)
Lemma initialize_on_null_file :
  initialize_uid_cache world_with_null_file
  = (Raise (TypeError "object does not support item assignment"),
     with_events world_with_null_file [StoreList]).
Proof. reflexivity. Qed.

(** ** An added identifier stays *)

Lemma uint_chars_scalar d :
  forallb is_scalar (py (NilEmpty.string_of_uint d)) = true.
Proof. induction d; [reflexivity | exact IHd ..]. Qed.

Lemma str_of_int_scalar n : forallb is_scalar (str_of_int n) = true.
Proof.
  unfold str_of_int, NilZero.string_of_int, NilZero.string_of_uint.
  destruct (Z.to_int n) as [d|d].
  - destruct d; try reflexivity; apply uint_chars_scalar.
  - change (forallb is_scalar (py (String "-" ?s)))
      with (is_scalar 45 && forallb is_scalar (py s)).
    destruct d; try reflexivity; apply uint_chars_scalar.
Qed.

Lemma cache_ok_dict_set key entries :
  forallb is_scalar key = true ->
  cache_ok (PDict entries) ->
  cache_ok (PDict (dict_set key (PBool true) entries)).
Proof.
  intros Hkey (es & Hes & Hnd & Hok). injection Hes as <-.
  exists (dict_set key (PBool true) entries). split; [reflexivity|]. split.
  - destruct (decide (key ∈ List.map fst entries)) as [Hin|Hnin].
    + rewrite dict_set_known by (apply list_elem_of_In, Hin). exact Hnd.
    + rewrite dict_set_fresh by (intros Hin; apply Hnin, list_elem_of_In, Hin).
      rewrite map_app. cbn [List.map fst]. apply NoDup_app.
      split; [exact Hnd|]. split; [|apply NoDup_singleton].
      intros k Hk Hk'. apply list_elem_of_singleton in Hk'. subst k.
      apply Hnin, Hk.
  - apply List.Forall_forall. intros kv Hin.
    apply dict_set_entries in Hin as [-> | Hin]; [split; [exact Hkey | reflexivity]|].
    apply (proj1 (List.Forall_forall _ _) Hok kv Hin).
Qed.

Lemma cache_add_run key entries w :
  uid_cache w = PDict entries ->
  cache_add key w =
  (Ok tt,
   let cache := PDict (dict_set key (PBool true) entries) in
   {| uid_cache := cache; cache_file := Some (FileText (json_dumps cache));
      firestore := firestore w;
      events := events w ++ [CacheAdd key; FileWrite (json_dumps cache)] |}).
Proof.
  intros Hc.
  unfold cache_add, cache_setitem, save_uid_cache, set_uid_cache, emit, get_uid_cache, bind.
  rewrite Hc. cbn. rewrite <- app_assoc. reflexivity.
Qed.

Lemma synced_store_recipe env recipe w :
  synced w -> synced (snd (store_recipe env recipe w)).
Proof.
  intros Hs. pose proof Hs as [Hok Hfile].
  pose proof Hok as (entries & Hc & _).
  rewrite store_recipe_cases, Hc.
  destruct (r_id recipe) as [n|]; [|exact Hs].
  destruct (truthy _).
  - destruct (r_title recipe); exact Hs.
  - destruct (build_document recipe) as [doc|e]; [|exact Hs].
    destruct (store_fault env (str_of_int n)); [exact Hs|].
    split; cbn; [|reflexivity].
    apply cache_ok_dict_set; [apply str_of_int_scalar | rewrite <- Hc; exact Hok].
Qed.

Lemma synced_attempt env recipe w : synced w -> synced (snd (attempt env recipe w)).
Proof.
  intros Hs. rewrite attempt_cases.
  pose proof (synced_store_recipe env recipe w Hs) as Hs'.
  destruct (store_recipe env recipe w) as [[[]|e] w1]; [exact Hs'|].
  rewrite report_failure_cases. destruct (r_title recipe); exact Hs'.
Qed.

Lemma synced_store_recipes env recipes : forall w,
  synced w -> synced (snd (store_recipes env recipes w)).
Proof.
  induction recipes as [|recipe recipes IH]; intros w Hs; [exact Hs|].
  rewrite store_recipes_cons.
  pose proof (synced_attempt env recipe w Hs) as Hs'.
  destruct (attempt env recipe w) as [[[]|e] w1]; [apply IH, Hs' | exact Hs'].
Qed.

Lemma contains_ok cache key :
  cache_ok cache -> contains cache key = true ->
  exists entries, cache = PDict entries /\ entries <> []
                  /\ dict_get key entries = Some (PBool true).
Proof.
  intros (entries & -> & _ & Hok) Hc. exists entries. split; [reflexivity|].
  rewrite contains_dict in Hc.
  destruct (dict_get key entries) as [v|] eqn:Hg; [|discriminate].
  split; [destruct entries; [discriminate | discriminate]|].
  f_equal. clear Hc. induction entries as [|[k' v'] entries IH]; [discriminate|].
  apply Forall_cons in Hok as [[_ Hv] Hok]. simpl in Hg, Hv.
  destruct (decide (key = k')); [congruence | apply IH; assumption].
Qed.

Lemma recipe_exists_ok n w :
  cache_ok (uid_cache w) -> contains (uid_cache w) (str_of_int n) = true ->
  recipe_exists n w = (Ok (PBool true), w).
Proof.
  intros Hok Hc. destruct (contains_ok _ _ Hok Hc) as (entries & He & _ & Hg).
  unfold recipe_exists, bind, get_uid_cache, ret. rewrite He, Hg. reflexivity.
Qed.

(** A later run that finds the file of a synced world with a cache that
    is not empty takes that cache over, without hydration. *)
Lemma initialize_from_saved w w_next key :
  synced w -> contains (uid_cache w) key = true ->
  cache_file w_next = cache_file w ->
  initialize_uid_cache w_next =
  (Ok tt,
   {| uid_cache := uid_cache w; cache_file := cache_file w_next;
      firestore := firestore w_next; events := events w_next |}).
Proof.
  intros [Hok Hfile] Hc Hnext.
  destruct (contains_ok _ _ Hok Hc) as (entries & He & Hne & _).
  destruct Hok as (es & Hes & Hnd & Hforall).
  rewrite He in Hes. injection Hes as <-.
  rewrite He. apply initialize_keeps; [|exact Hne].
  apply load_uid_cache_dumped; [|assumption..].
  rewrite Hnext, Hfile, He. reflexivity.
Qed.

(** C8.  Once [cache_add] has added the identifier of a recipe to a cache
    of the data model, [recipe_exists] finds it: right after the
    addition, after any further batch of the same run, and in a later run
    that initializes its cache from the file this run left. *)
Theorem added_identifier_is_found (env : Env) (w : World) (n : Z)
    (recipes : list Recipe) (w_next : World)
    (Hok : cache_ok (uid_cache w))
    (Hnext : cache_file w_next
             = cache_file (snd (store_recipes env recipes
                                  (snd (cache_add (str_of_int n) w))))) :
  let w1 := snd (cache_add (str_of_int n) w) in
  let w2 := snd (store_recipes env recipes w1) in
  let w3 := snd (initialize_uid_cache w_next) in
  fst (cache_add (str_of_int n) w) = Ok tt
  /\ recipe_exists n w1 = (Ok (PBool true), w1)
  /\ recipe_exists n w2 = (Ok (PBool true), w2)
  /\ fst (initialize_uid_cache w_next) = Ok tt
  /\ recipe_exists n w3 = (Ok (PBool true), w3).
Proof.
  cbv zeta.
  destruct Hok as (entries & Hc & Hnd & Hforall).
  assert (Hok : cache_ok (PDict entries)) by (exists entries; auto).
  rewrite (cache_add_run _ entries w Hc) in *. cbn [fst snd] in *. cbv zeta in *.
  set (w1 := {| uid_cache := PDict (dict_set (str_of_int n) (PBool true) entries);
                cache_file := _; firestore := _; events := _ |}) in *.
  assert (Hs1 : synced w1).
  { split; [|reflexivity]. apply cache_ok_dict_set; [apply str_of_int_scalar | exact Hok]. }
  assert (Hc1 : contains (uid_cache w1) (str_of_int n) = true).
  { cbn [w1 uid_cache]. rewrite contains_dict, dict_get_set_eq. reflexivity. }
  pose proof (synced_store_recipes env recipes w1 Hs1) as Hs2.
  assert (Hc2 : contains (uid_cache (snd (store_recipes env recipes w1))) (str_of_int n) = true).
  { apply (grows_store_recipes env recipes w1), Hc1. }
  split; [reflexivity|].
  split; [apply recipe_exists_ok; [apply Hs1 | exact Hc1]|].
  split; [apply recipe_exists_ok; [apply Hs2 | exact Hc2]|].
  rewrite (initialize_from_saved _ w_next _ Hs2 Hc2 Hnext). cbn [fst snd].
  split; [reflexivity|].
  apply recipe_exists_ok; [apply Hs2 | exact Hc2].
Qed.

Lemma added_identifier_is_found_witness :
  let w1 := snd (cache_add (str_of_int 8) world_knowing_7) in
  let w3 := snd (initialize_uid_cache
                   {| uid_cache := PNone; cache_file := cache_file w1;
                      firestore := ∅; events := [] |}) in
  recipe_exists 8 w1 = (Ok (PBool true), w1)
  /\ recipe_exists 8 w3 = (Ok (PBool true), w3).
Proof.
  assert (Hok : cache_ok (uid_cache world_knowing_7)).
  { exists [(py "7", PBool true)]. split; [reflexivity|]. split.
    - apply NoDup_singleton.
    - repeat constructor. }
  destruct (added_identifier_is_found quiet_env world_knowing_7 8 []
              {| uid_cache := PNone;
                 cache_file := cache_file (snd (cache_add (str_of_int 8) world_knowing_7));
                 firestore := ∅; events := [] |} Hok eq_refl)
    as (_ & Hnow & _ & _ & Hlater).
  split; [exact Hnow | exact Hlater].
Defined.

(** * Further properties *)

(** ** [extract_equipment] *)

Lemma for_each_app {A S} (xs ys : list A) (acc : S) body :
  for_each (xs ++ ys) acc body
  = rbind (for_each xs acc body) (fun acc' => for_each ys acc' body).
Proof.
  revert acc. induction xs as [|x xs IH]; intros acc; simpl; [reflexivity|].
  destruct (body x acc) as [acc'|e]; simpl; [apply IH | reflexivity].
Qed.

Lemma for_each_flat_map {A B S} (f : A -> list B) (xs : list A) (acc : S) body :
  for_each xs acc (fun x acc => for_each (f x) acc body)
  = for_each (flat_map f xs) acc body.
Proof.
  revert acc. induction xs as [|x xs IH]; intros acc; simpl; [reflexivity|].
  rewrite for_each_app.
  destruct (for_each (f x) acc body) as [acc'|e]; simpl; [apply IH | reflexivity].
Qed.

Lemma for_each_ext {A S} (xs : list A) (acc : S) body body' :
  (forall x acc, body x acc = body' x acc) ->
  for_each xs acc body = for_each xs acc body'.
Proof.
  intros H. revert acc. induction xs as [|x xs IH]; intros acc; simpl; [reflexivity|].
  rewrite H. destruct (body' x acc); simpl; [apply IH | reflexivity].
Qed.

(** The three loops are one loop over the listed equipment. *)
Lemma extract_equipment_flat analyzed_instructions :
  extract_equipment analyzed_instructions =
  rbind
    (for_each (listed_equipment analyzed_instructions) (∅ : gset pystr)
       (fun equipment acc =>
          rbind (getitem "name" (e_name equipment)) (fun name => Ok ({[name]} ∪ acc))))
    (fun equipment_set => Ok (elements equipment_set)).
Proof.
  unfold extract_equipment, listed_equipment. f_equal.
  rewrite <- for_each_flat_map. apply for_each_ext. intros instruction acc.
  apply for_each_flat_map.
Qed.

Lemma collect_names_named (es : list Equipment) : forall acc : gset pystr,
  Forall (fun equipment => is_Some (e_name equipment)) es ->
  exists names : gset pystr,
    for_each es acc
      (fun equipment acc =>
         rbind (getitem "name" (e_name equipment)) (fun name => Ok ({[name]} ∪ acc)))
    = Ok names
    /\ forall name,
         name ∈ names
         <-> name ∈ acc \/ exists equipment, In equipment es /\ e_name equipment = Some name.
Proof.
  induction es as [|equipment es IH]; intros acc Hall.
  - exists acc. split; [reflexivity|]. intros name. split; [auto|].
    intros [H | (e & [] & _)]. exact H.
  - apply Forall_cons in Hall as [[name0 Hname] Hall].
    cbn [for_each]. rewrite Hname. cbn [getitem rbind].
    destruct (IH ({[name0]} ∪ acc) Hall) as (names & Hrun & Hmem).
    exists names. split; [exact Hrun|]. intros name. rewrite Hmem.
    rewrite elem_of_union, elem_of_singleton. split.
    + intros [[-> | H] | (e & Hin & He)].
      * right. exists equipment. split; [left; reflexivity | exact Hname].
      * left. exact H.
      * right. exists e. split; [right; exact Hin | exact He].
    + intros [H | (e & [<- | Hin] & He)].
      * left. right. exact H.
      * left. left. congruence.
      * right. exists e. auto.
Qed.

Lemma collect_names_unnamed (es : list Equipment) : forall acc : gset pystr,
  Exists (fun equipment => e_name equipment = None) es ->
  for_each es acc
    (fun equipment acc =>
       rbind (getitem "name" (e_name equipment)) (fun name => Ok ({[name]} ∪ acc)))
  = Raise (KeyError "name").
Proof.
  induction es as [|equipment es IH]; intros acc Hex; [inversion Hex|].
  cbn [for_each]. destruct (e_name equipment) as [name|] eqn:Hname; [|reflexivity].
  cbn [getitem rbind]. apply IH.
  inversion Hex as [? ? H | ? ? H]; subst; [congruence | exact H].
Qed.

(** When every listed equipment has a name, [extract_equipment] returns
    the names that occur, each once, however often and in whichever step
    or group a name occurs. *)
Theorem extract_equipment_names (analyzed_instructions : list Instruction)
    (Hnamed : Forall (fun equipment => is_Some (e_name equipment))
                (listed_equipment analyzed_instructions)) :
  exists equipment_list,
    extract_equipment analyzed_instructions = Ok equipment_list
    /\ NoDup equipment_list
    /\ forall name,
         In name equipment_list
         <-> exists equipment,
               In equipment (listed_equipment analyzed_instructions)
               /\ e_name equipment = Some name.
Proof.
  rewrite extract_equipment_flat.
  destruct (collect_names_named _ ∅ Hnamed) as (names & -> & Hmem).
  exists (elements names). split; [reflexivity|]. split; [apply NoDup_elements|].
  intros name. rewrite <- list_elem_of_In, elem_of_elements, Hmem.
  split; [intros [H | H]; [set_solver | exact H] | auto].
Qed.

Lemma extract_equipment_names_witness :
  exists equipment_list,
    extract_equipment sample_instructions = Ok equipment_list
    /\ NoDup equipment_list
    /\ (In (py "oven") equipment_list /\ In (py "pan") equipment_list).
Proof.
  assert (Hnamed : Forall (fun equipment => is_Some (e_name equipment))
                     (listed_equipment sample_instructions)).
  { repeat constructor; eexists; reflexivity. }
  destruct (extract_equipment_names sample_instructions Hnamed)
    as (equipment_list & Hrun & Hnd & Hmem).
  exists equipment_list. split; [exact Hrun|]. split; [exact Hnd|]. split.
  - apply Hmem. exists {| e_name := Some (py "oven") |}.
    split; [left; reflexivity | reflexivity].
  - apply Hmem. exists {| e_name := Some (py "pan") |}.
    split; [right; right; left; reflexivity | reflexivity].
Defined.

(** [extract_equipment] raises, and then [KeyError] for 'name', exactly
    when some listed equipment has no name; groups without 'steps' and
    steps without 'equipment' never make it raise. *)
Theorem extract_equipment_raises_iff (analyzed_instructions : list Instruction) :
  (extract_equipment analyzed_instructions = Raise (KeyError "name")
   <-> Exists (fun equipment => e_name equipment = None)
         (listed_equipment analyzed_instructions))
  /\ ((exists equipment_list, extract_equipment analyzed_instructions = Ok equipment_list)
      \/ extract_equipment analyzed_instructions = Raise (KeyError "name")).
Proof.
  destruct (decide (Exists (fun equipment => e_name equipment = None)
                      (listed_equipment analyzed_instructions))) as [Hex | Hnex].
  - assert (Hr : extract_equipment analyzed_instructions = Raise (KeyError "name")).
    { rewrite extract_equipment_flat, collect_names_unnamed by exact Hex. reflexivity. }
    split; [split; auto | right; exact Hr].
  - assert (Hnamed : Forall (fun equipment => is_Some (e_name equipment))
                       (listed_equipment analyzed_instructions)).
    { apply List.Forall_forall. intros equipment Hin.
      destruct (e_name equipment) as [name|] eqn:Hname; [eauto|].
      exfalso. apply Hnex, List.Exists_exists. eauto. }
    rewrite extract_equipment_flat.
    destruct (collect_names_named _ ∅ Hnamed) as (names & -> & _).
    split; [|left; eexists; reflexivity].
    split; [discriminate | intros Hex; contradiction].
Qed.

(** ** The ingredients mapping *)

Lemma ingredient_step (ingredient : Ingredient) (acc : gmap pystr pystr) :
  rbind (getitem "name" (i_name ingredient)) (fun name =>
    rbind (getitem "amount" (i_amount ingredient)) (fun amount =>
      rbind (getitem "unit" (i_unit ingredient)) (fun unit =>
        Ok (<[name := amount ++ py " " ++ unit]> acc))))
  = match ingredient_entry ingredient with
    | Some (name, value) => Ok (<[name := value]> acc)
    | None =>
        match missing_key ingredient with
        | Some key => Raise (KeyError key)
        | None => Ok acc
        end
    end.
Proof.
  unfold ingredient_entry, missing_key.
  destruct (i_name ingredient), (i_amount ingredient), (i_unit ingredient); reflexivity.
Qed.

Lemma ingredient_entry_missing (ingredient : Ingredient) :
  ingredient_entry ingredient = None <-> is_Some (missing_key ingredient).
Proof.
  unfold ingredient_entry, missing_key.
  destruct (i_name ingredient), (i_amount ingredient), (i_unit ingredient);
    split; intros H; try discriminate; try (eexists; reflexivity);
    destruct H; discriminate.
Qed.

Lemma ingredients_loop_complete (ingredients : list Ingredient) :
  forall acc : gmap pystr pystr,
  Forall (fun ingredient => is_Some (ingredient_entry ingredient)) ingredients ->
  exists m,
    for_each ingredients acc (fun ingredient acc =>
      rbind (getitem "name" (i_name ingredient)) (fun name =>
        rbind (getitem "amount" (i_amount ingredient)) (fun amount =>
          rbind (getitem "unit" (i_unit ingredient)) (fun unit =>
            Ok (<[name := amount ++ py " " ++ unit]> acc)))))
    = Ok m
    /\ forall name,
         m !! name =
         match last (filter (fun kv => fst kv = name) (omap ingredient_entry ingredients)) with
         | Some kv => Some (snd kv)
         | None => acc !! name
         end.
Proof.
  induction ingredients as [|ingredient ingredients IH]; intros acc Hall.
  - exists acc. split; reflexivity.
  - apply Forall_cons in Hall as [[[name0 value0] Hentry] Hall].
    cbn [for_each]. rewrite ingredient_step, Hentry. cbn [rbind].
    destruct (IH (<[name0 := value0]> acc) Hall) as (m & Hrun & Hlook).
    exists m. split; [exact Hrun|]. intros name. rewrite Hlook.
    change (omap ingredient_entry (ingredient :: ingredients))
      with (match ingredient_entry ingredient with
            | Some y => y :: omap ingredient_entry ingredients
            | None => omap ingredient_entry ingredients
            end).
    rewrite Hentry. rewrite filter_cons. cbn [fst].
    destruct (decide (name0 = name)) as [->|Hne].
    + rewrite last_cons. destruct (last _); [reflexivity|].
      cbn [snd]. apply lookup_insert_eq.
    + destruct (last _); [reflexivity|]. apply lookup_insert_ne, Hne.
Qed.

(** When every ingredient has a name, an amount and a unit, the
    ingredients mapping holds, for each name, "amount unit" of the last
    ingredient of that name, and nothing for a name that does not occur. *)
Theorem ingredients_map_last_wins (ingredients : list Ingredient)
    (Hcomplete : Forall (fun ingredient => is_Some (ingredient_entry ingredient))
                   ingredients) :
  exists ingredients_map,
    ingredients_map_of ingredients = Ok ingredients_map
    /\ forall name,
         ingredients_map !! name =
         match last (filter (fun kv => fst kv = name) (omap ingredient_entry ingredients)) with
         | Some kv => Some (snd kv)
         | None => None
         end.
Proof.
  destruct (ingredients_loop_complete ingredients ∅ Hcomplete) as (m & Hrun & Hlook).
  exists m. split; [exact Hrun|]. intros name. rewrite Hlook, lookup_empty. reflexivity.
Qed.

Lemma ingredients_map_last_wins_witness :
  exists ingredients_map,
    ingredients_map_of sample_ingredients = Ok ingredients_map
    /\ ingredients_map !! py "salt" = Some (py "2.0 tsp")
    /\ ingredients_map !! py "flour" = Some (py "200.0 g")
    /\ ingredients_map !! py "sugar" = None.
Proof.
  assert (Hcomplete : Forall (fun ingredient => is_Some (ingredient_entry ingredient))
                        sample_ingredients).
  { repeat constructor; eexists; reflexivity. }
  destruct (ingredients_map_last_wins sample_ingredients Hcomplete) as (m & Hrun & Hlook).
  exists m. split; [exact Hrun|].
  rewrite !Hlook. repeat split; reflexivity.
Defined.

(** Building the ingredients mapping raises exactly when some ingredient
    lacks a key, and then [KeyError] for the first key, of 'name',
    'amount', 'unit', that the first such ingredient lacks. *)
Theorem ingredients_map_first_missing_key (ingredients : list Ingredient) :
  match List.find (fun ingredient =>
                     match missing_key ingredient with Some _ => true | None => false end)
          ingredients with
  | Some ingredient =>
      exists key,
        missing_key ingredient = Some key
        /\ ingredients_map_of ingredients = Raise (KeyError key)
  | None => exists ingredients_map, ingredients_map_of ingredients = Ok ingredients_map
  end.
Proof.
  unfold ingredients_map_of. generalize (∅ : gmap pystr pystr).
  induction ingredients as [|ingredient ingredients IH]; intros acc.
  - exists acc. reflexivity.
  - cbn [List.find for_each]. rewrite ingredient_step.
    destruct (missing_key ingredient) as [key|] eqn:Hkey.
    + assert (ingredient_entry ingredient = None) as ->
        by (apply ingredient_entry_missing; eauto).
      exists key. split; [first [exact Hkey | reflexivity] | reflexivity].
    + destruct (ingredient_entry ingredient) as [[name value]|] eqn:Hentry.
      * cbn [rbind]. apply IH.
      * apply ingredient_entry_missing in Hentry as [key Hk]. congruence.
Qed.

(** ** Where the nutrition entries come from *)

Lemma classify_Some tag category :
  classify tag = Some category ->
  exists lit,
    In (category, lit) categories
    /\ exists pre d post, tag = pre ++ d :: lit ++ post /\ re_d d = true.
Proof.
  unfold classify.
  destruct (List.find _ categories) as [[c lit]|] eqn:Hfind; [|discriminate].
  intros [= <-]. apply List.find_some in Hfind as [Hin Hmatch].
  exists lit. split; [exact Hin|].
  apply re_search_digits_then_spec. exact Hmatch.
Qed.

Lemma clean_kept tag : forallb keeps (clean tag) = true.
Proof.
  unfold clean. apply forallb_forall. intros c Hc.
  apply filter_In in Hc as [_ Hc]. exact Hc.
Qed.

(** An entry of the nutrition mapping is always the cleaning of a
    fragment of the summary that holds a decimal digit directly followed
    by the words of the entry's category, one of the four; it consists of
    ASCII letters, ASCII digits and whitespace only. *)
Theorem nutrition_entry_origin (text : pystr) (category : string) (value : pystr)
    (Hentry : extract_and_categorize text !! category = Some value) :
  (exists tag lit,
     In tag (findall_b text)
     /\ value = clean tag
     /\ In (category, lit) categories
     /\ exists pre d post, tag = pre ++ d :: lit ++ post /\ re_d d = true)
  /\ In category ["Cost per serving"; "Protein"; "Fat"; "Calories"]%string
  /\ forallb (fun c => is_ascii_digit c || is_ascii_letter c || re_s c) value = true.
Proof.
  unfold extract_and_categorize in Hentry.
  rewrite categorize_tags_lookup, lookup_empty in Hentry.
  destruct (last _) as [tag|] eqn:Hlast; [|discriminate].
  injection Hentry as <-.
  apply last_Some_elem_of, list_elem_of_filter in Hlast as [Hclass Hin].
  destruct (classify_Some _ _ Hclass) as (lit & Hcat & Hmatch).
  split; [|split].
  - exists tag, lit. split; [apply list_elem_of_In, Hin|]. auto.
  - unfold categories in Hcat. cbn [In] in Hcat |- *.
    destruct Hcat as [H | [H | [H | [H | []]]]]; injection H as <- _; auto.
  - apply clean_kept.
Qed.

Lemma nutrition_entry_origin_witness :
  exists tag,
    In tag (findall_b (render_all example_segments))
    /\ py "450 calories" = clean tag.
Proof.
  destruct (nutrition_entry_origin (render_all example_segments) "Calories"
              (py "450 calories") eq_refl)
    as ((tag & lit & Hin & Hclean & _) & _).
  exists tag. split; assumption.
Defined.

(** ** What a fragment is *)

Lemma lazy_dot_until_group close s : forall g rest,
  close <> [] ->
  lazy_dot_until close s = Some (g, rest) ->
  forallb re_dot g = true /\ forall pre post, g <> pre ++ close ++ post.
Proof.
  induction s as [|c s IH]; intros g rest Hclose; cbn [lazy_dot_until].
  - destruct (strip_prefix close []) eqn:E; [|discriminate].
    intros [= <- <-]. split; [reflexivity|].
    intros pre post H. symmetry in H. apply app_eq_nil in H as [_ H].
    apply app_eq_nil in H as [H _]. contradiction.
  - destruct (strip_prefix close (c :: s)) eqn:E.
    + intros [= <- <-]. split; [reflexivity|].
      intros pre post H. symmetry in H. apply app_eq_nil in H as [_ H].
      apply app_eq_nil in H as [H _]. contradiction.
    + destruct (re_dot c) eqn:Hc; [|discriminate].
      destruct (lazy_dot_until close s) as [[g' rest']|] eqn:Hrec; [|discriminate].
      intros [= <- <-].
      destruct (IH g' rest' Hclose eq_refl) as [Hdot Hfree].
      split; [cbn [forallb]; rewrite Hc, Hdot; reflexivity|].
      intros pre post H. destruct pre as [|p pre].
      * (* the closing tag would stand at the head, where it was not found *)
        apply lazy_dot_until_Some in Hrec.
        assert (Hs : c :: s = close ++ (post ++ close ++ rest')).
        { rewrite Hrec. rewrite app_comm_cons, H. cbn [app].
          rewrite <- !app_assoc. reflexivity. }
        apply strip_prefix_Some in Hs. congruence.
      * cbn [app] in H. injection H as _ H. apply (Hfree pre post H).
Qed.

Lemma findall_b_all (P : pystr -> Prop) :
  (forall s g rest, match_b_tag s = Some (g, rest) -> P g) ->
  forall text, Forall P (findall_b text).
Proof.
  intros HP text. remember (length text) as n eqn:Hn.
  revert text Hn. induction n as [n IH] using lt_wf_ind. intros text ->.
  rewrite findall_b_unfold.
  destruct (match_b_tag text) as [[g rest]|] eqn:E.
  - constructor; [eapply HP, E|].
    eapply IH; [apply (match_b_tag_shorter _ _ _ E) | reflexivity].
  - destruct text as [|c s]; [constructor|].
    eapply IH; [|reflexivity]. simpl. lia.
Qed.

(** A fragment that [re.findall] extracts holds no line feed and no
    closing tag: a bold stretch that runs over a line break is not
    extracted, and a fragment ends at the first closing tag. *)
Theorem fragments_are_minimal (text : pystr) :
  Forall (fun g => forallb re_dot g = true
                   /\ forall pre post, g <> pre ++ py "</b>" ++ post)
    (findall_b text).
Proof.
  apply findall_b_all. intros s g rest Hm. unfold match_b_tag in Hm.
  destruct (strip_prefix (py "<b>") s) as [s1|]; [|discriminate].
  eapply lazy_dot_until_group; [discriminate | exact Hm].
Qed.

(** ** The calorie value *)

Lemma digit_value_in_range zeros c d :
  digit_value_in zeros c = Some d ->
  exists z, In z zeros /\ z <= c /\ c <= z + 9 /\ d = c - z.
Proof.
  induction zeros as [|z zeros IH]; cbn [digit_value_in]; [discriminate|].
  destruct (in_range z (z + 9) c) eqn:Hr.
  - intros [= <-]. unfold in_range in Hr. apply andb_true_iff in Hr as [Hlo Hhi].
    apply N.leb_le in Hlo, Hhi. exists z. cbn [In]. auto.
  - intros H. destruct (IH H) as (z' & Hin & Hz). exists z'. cbn [In]. auto.
Qed.

Lemma unicode_decimal_ascii c :
  is_ascii_digit c = true -> unicode_decimal c = Some (c - 48).
Proof.
  intros H. unfold unicode_decimal, unicode_Nd_zeros. cbn [digit_value_in].
  change (in_range 48 (48 + 9) c) with (is_ascii_digit c). rewrite H. reflexivity.
Qed.

(** Below 128 only the ASCII digits are decimal digits. *)
Lemma re_d_below_128 c : re_d c = true -> c < 128 -> is_ascii_digit c = true.
Proof.
  unfold re_d. destruct (unicode_decimal c) as [d|] eqn:Hd; [|discriminate].
  intros _ Hc. apply digit_value_in_range in Hd as (z & Hin & Hlo & Hhi & _).
  assert (Hz : z = 48 \/ 128 <= z).
  { clear Hlo Hhi. revert z Hin.
    apply (proj1 (List.Forall_forall (fun z => z = 48 \/ 128 <= z) unicode_Nd_zeros)).
    unfold unicode_Nd_zeros.
    repeat (constructor; [first [left; reflexivity | right; apply N.leb_le; reflexivity]|]).
    constructor. }
  destruct Hz as [-> | Hz]; [|lia].
  unfold is_ascii_digit, in_range. apply andb_true_iff. split; apply N.leb_le; lia.
Qed.

Lemma in_N_range lo len c :
  lo <= c -> c < lo + N.of_nat len -> In c (List.map (fun i => lo + N.of_nat i) (seq 0 len)).
Proof.
  intros Hlo Hhi. apply in_map_iff. exists (N.to_nat (c - lo)). split; [lia|].
  apply in_seq. lia.
Qed.

(** No whitespace character is a decimal digit. *)
Lemma re_s_not_digit c : re_s c = true -> re_d c = false.
Proof.
  intros Hs.
  assert (Hin : In c (List.map (fun i => 0x09 + N.of_nat i) (seq 0 5)
                      ++ List.map (fun i => 0x1C + N.of_nat i) (seq 0 5)
                      ++ [0x85; 0xA0; 0x1680]
                      ++ List.map (fun i => 0x2000 + N.of_nat i) (seq 0 11)
                      ++ [0x2028; 0x2029; 0x202F; 0x205F; 0x3000])).
  { unfold re_s, in_range in Hs.
    repeat (apply orb_true_iff in Hs as [Hs | Hs]).
    - apply andb_true_iff in Hs as [H1 H2]. apply N.leb_le in H1, H2.
      apply in_or_app. left. apply in_N_range; simpl; lia.
    - apply andb_true_iff in Hs as [H1 H2]. apply N.leb_le in H1, H2.
      apply in_or_app. right. apply in_or_app. left. apply in_N_range; simpl; lia.
    - apply N.eqb_eq in Hs. subst c. do 2 (apply in_or_app; right).
      apply in_or_app. left. cbn. auto.
    - apply N.eqb_eq in Hs. subst c. do 2 (apply in_or_app; right).
      apply in_or_app. left. cbn. auto.
    - apply N.eqb_eq in Hs. subst c. do 2 (apply in_or_app; right).
      apply in_or_app. left. cbn. auto.
    - apply andb_true_iff in Hs as [H1 H2]. apply N.leb_le in H1, H2.
      do 3 (apply in_or_app; right). apply in_or_app. left. apply in_N_range; simpl; lia.
    - apply N.eqb_eq in Hs. subst c. do 4 (apply in_or_app; right). cbn. auto.
    - apply N.eqb_eq in Hs. subst c. do 4 (apply in_or_app; right). cbn. auto.
    - apply N.eqb_eq in Hs. subst c. do 4 (apply in_or_app; right). cbn. auto.
    - apply N.eqb_eq in Hs. subst c. do 4 (apply in_or_app; right). cbn. auto.
    - apply N.eqb_eq in Hs. subst c. do 4 (apply in_or_app; right). cbn. auto 6. }
  clear Hs. revert c Hin.
  apply (proj1 (List.Forall_forall (fun c => re_d c = false) _)).
  cbn [List.map seq app]. repeat constructor.
Qed.

(** Of what the cleaning keeps, the decimal digits are the ASCII
    digits. *)
Lemma keeps_digit c : re_d c && keeps c = is_ascii_digit c.
Proof.
  unfold keeps. destruct (is_ascii_digit c) eqn:Hd.
  - unfold re_d. rewrite unicode_decimal_ascii by exact Hd. reflexivity.
  - cbn [orb]. destruct (is_ascii_letter c) eqn:Hl.
    + cbn [orb]. rewrite andb_true_r. destruct (re_d c) eqn:Hr; [|reflexivity].
      rewrite <- Hd. symmetry. apply re_d_below_128; [exact Hr|].
      unfold is_ascii_letter, in_range in Hl.
      apply orb_true_iff in Hl as [Hl | Hl]; apply andb_true_iff in Hl as [_ Hl];
        apply N.leb_le in Hl; lia.
    + cbn [orb]. destruct (re_s c) eqn:Hs.
      * rewrite (re_s_not_digit c Hs). reflexivity.
      * apply andb_false_r.
Qed.

Lemma calories_clean_digits tag :
  List.filter re_d (clean tag) = List.filter is_ascii_digit tag.
Proof.
  unfold clean. induction tag as [|c tag IH]; [reflexivity|].
  cbn [List.filter]. rewrite <- (keeps_digit c).
  destruct (keeps c); cbn [List.filter].
  - rewrite andb_true_r. destruct (re_d c); rewrite IH; reflexivity.
  - rewrite andb_false_r. exact IH.
Qed.

Lemma digits_value_ascii s : forall acc,
  forallb is_ascii_digit s = true ->
  digits_value acc s
  = Ok (fold_left (fun acc c => (10 * acc + Z.of_N (c - 48))%Z) s acc).
Proof.
  induction s as [|c s IH]; intros acc Hs; [reflexivity|].
  cbn [forallb] in Hs. apply andb_true_iff in Hs as [Hc Hs].
  cbn [digits_value fold_left]. rewrite unicode_decimal_ascii by exact Hc.
  apply IH, Hs.
Qed.

Lemma filter_all {A} (f : A -> bool) l : forallb f (List.filter f l) = true.
Proof.
  apply forallb_forall. intros x Hx. apply filter_In in Hx as [_ Hx]. exact Hx.
Qed.

Lemma calories_of_last_fragment (summary : pystr) :
  derive_calories (extract_and_categorize summary) =
  match last (filter (fun tag => classify tag = Some "Calories"%string)
                (findall_b summary)) with
  | None => Ok 0%Z
  | Some tag =>
      match List.filter is_ascii_digit tag with
      | [] => Raise (ValueError "invalid literal for int() with base 10")
      | c :: ds => Ok (digit_chars_value (c :: ds))
      end
  end.
Proof.
  unfold derive_calories, extract_and_categorize.
  rewrite categorize_tags_lookup, lookup_empty.
  destruct (last _) as [tag|]; [|reflexivity].
  rewrite calories_clean_digits. unfold py_int.
  pose proof (filter_all is_ascii_digit tag) as Hall.
  destruct (List.filter is_ascii_digit tag) as [|c ds]; [reflexivity|].
  rewrite digits_value_ascii by exact Hall. reflexivity.
Qed.

(** The calorie value of a summary whose digits stay within the
    interpreter's limit of 4300 digits for a string converted to [int]:
    it is 0 when no fragment is classified as Calories; otherwise the
    ASCII digits of the last such fragment, all of them and in their
    order, are read as one number, and without an ASCII digit the
    conversion raises [ValueError]. *)
Theorem calories_value (summary : pystr)
    (Hlimit : (length (List.filter is_ascii_digit summary) <= 4300)%nat) :
  derive_calories (extract_and_categorize summary) =
  match last (filter (fun tag => classify tag = Some "Calories"%string)
                (findall_b summary)) with
  | None => Ok 0%Z
  | Some tag =>
      match List.filter is_ascii_digit tag with
      | [] => Raise (ValueError "invalid literal for int() with base 10")
      | c :: ds => Ok (digit_chars_value (c :: ds))
      end
  end.
Proof. exact (calories_of_last_fragment summary). Qed.

Lemma calories_value_witness :
  derive_calories
    (extract_and_categorize (py "<b>2 servings of 450 calories</b>")) = Ok 2450%Z.
Proof.
  rewrite (calories_value (py "<b>2 servings of 450 calories</b>"));
    [reflexivity | vm_compute; lia].
Defined.

Lemma bold_split_infix text frags g :
  bold_split text frags -> In g frags -> exists pre post, text = pre ++ g ++ post.
Proof.
  induction 1 as [text | pre0 g0 rest frags Hsplit IH]; intros Hin; [destruct Hin|].
  destruct Hin as [<- | Hin].
  - exists (pre0 ++ py "<b>"), (py "</b>" ++ rest). rewrite <- !app_assoc. reflexivity.
  - destruct (IH Hin) as (pre & post & ->).
    exists (pre0 ++ py "<b>" ++ g0 ++ py "</b>" ++ pre), post.
    rewrite <- !app_assoc. reflexivity.
Qed.

(** For a summary of ASCII characters, within the interpreter's limit of
    4300 digits, the calorie value is always obtained: the conversion to
    [int] does not raise. *)
Theorem calories_of_ascii_summary (summary : pystr)
    (Hascii : forallb (fun c => c <? 128) summary = true)
    (Hlimit : (length (List.filter is_ascii_digit summary) <= 4300)%nat) :
  exists calories, derive_calories (extract_and_categorize summary) = Ok calories.
Proof.
  rewrite (calories_of_last_fragment summary).
  destruct (last _) as [tag|] eqn:Hlast; [|eauto].
  apply last_Some_elem_of, list_elem_of_filter in Hlast as [Hclass Hin].
  apply list_elem_of_In in Hin.
  destruct (classify_Some _ _ Hclass) as (lit & _ & pre & d & post & Htag & Hd).
  destruct (bold_split_infix _ _ _ (findall_b_bold_split summary) Hin)
    as (before & after & Hsummary).
  assert (Hd128 : d < 128).
  { apply N.ltb_lt. apply (proj1 (forallb_forall _ _) Hascii).
    rewrite Hsummary, Htag. apply in_or_app. right. apply in_or_app. left.
    apply in_or_app. right. left. reflexivity. }
  assert (Hdigit : In d (List.filter is_ascii_digit tag)).
  { apply filter_In. split; [|apply re_d_below_128; assumption].
    rewrite Htag. apply in_or_app. right. left. reflexivity. }
  destruct (List.filter is_ascii_digit tag) as [|c ds]; [destruct Hdigit | eauto].
Qed.

Lemma calories_of_ascii_summary_witness :
  exists calories,
    derive_calories
      (extract_and_categorize (py "Only <b>120 calories</b> and <b>3g of fat</b>."))
    = Ok calories.
Proof.
  apply calories_of_ascii_summary; [reflexivity | vm_compute; lia].
Defined.

(** ** What one record changes *)

Lemma same_state_refl w : same_state w w.
Proof. repeat split. Qed.

Lemma same_state_sym w w' : same_state w w' -> same_state w' w.
Proof. intros (H1 & H2 & H3). repeat split; congruence. Qed.

Lemma same_state_trans w1 w2 w3 :
  same_state w1 w2 -> same_state w2 w3 -> same_state w1 w3.
Proof. intros (H1 & H2 & H3) (H4 & H5 & H6). repeat split; congruence. Qed.

Lemma same_state_with_events w evs : same_state w (with_events w evs).
Proof. repeat split. Qed.

(** An attempt either leaves cache, file and store as they are, or it is
    the attempt on a record that [would_store]: then the document is set
    under the identifier, the identifier is marked present and the file
    is rewritten. *)
Lemma attempt_effect env recipe w :
  same_state w (snd (attempt env recipe w))
  \/ exists n doc entries,
       r_id recipe = Some n
       /\ build_document recipe = Ok doc
       /\ store_fault env (str_of_int n) = None
       /\ uid_cache w = PDict entries
       /\ contains (PDict entries) (str_of_int n) = false
       /\ attempt env recipe w =
          (Ok tt,
           let cache := PDict (dict_set (str_of_int n) (PBool true) entries) in
           {| uid_cache := cache;
              cache_file := Some (FileText (json_dumps cache));
              firestore := <[str_of_int n := doc]> (firestore w);
              events := events w ++
                [StoreSet (str_of_int n) doc; Printed (LogStored (d_title doc));
                 CacheAdd (str_of_int n); FileWrite (json_dumps cache)] |}).
Proof.
  destruct (r_id recipe) as [n|] eqn:Hid.
  2:{ left. rewrite attempt_cases, store_recipe_cases, Hid, report_failure_cases.
      destruct (r_title recipe); apply same_state_refl || apply same_state_with_events. }
  destruct (uid_cache w) as [| | | | |entries] eqn:Hc.
  1-5: left; rewrite attempt_cases, store_recipe_cases, Hid, Hc, report_failure_cases;
       destruct (r_title recipe); apply same_state_refl || apply same_state_with_events.
  destruct (contains (PDict entries) (str_of_int n)) eqn:Hk.
  { left. rewrite attempt_cases, store_recipe_cases, Hid, Hc.
    rewrite contains_dict in Hk. rewrite Hk.
    destruct (r_title recipe);
      [apply same_state_with_events|].
    rewrite report_failure_cases.
    destruct (r_title recipe); apply same_state_refl || apply same_state_with_events. }
  destruct (build_document recipe) as [doc|e] eqn:Hb.
  2:{ left. rewrite attempt_cases, store_recipe_cases, Hid, Hc.
      rewrite contains_dict in Hk. rewrite Hk, Hb, report_failure_cases.
      destruct (r_title recipe); apply same_state_refl || apply same_state_with_events. }
  destruct (store_fault env (str_of_int n)) as [msg|] eqn:Hs.
  { left. rewrite attempt_cases, store_recipe_cases, Hid, Hc.
    rewrite contains_dict in Hk. rewrite Hk, Hb, Hs, report_failure_cases.
    destruct (r_title recipe); apply same_state_refl || apply same_state_with_events. }
  right. exists n, doc, entries. repeat (split; [assumption || reflexivity|]).
  apply attempt_new; assumption.
Qed.

Lemma attempt_settled env recipe w :
  ~ would_store env w recipe -> same_state w (snd (attempt env recipe w)).
Proof.
  intros Hnot. destruct (attempt_effect env recipe w)
    as [H | (n & doc & entries & Hid & Hb & Hs & Hc & Hk & _)]; [exact H|].
  exfalso. apply Hnot. exists n, doc, entries. auto.
Qed.

Lemma build_document_requires recipe doc :
  build_document recipe = Ok doc ->
  is_Some (r_title recipe) /\ is_Some (r_extendedIngredients recipe)
  /\ is_Some (r_instructions recipe) /\ r_summary recipe = Some (d_summary doc).
Proof.
  unfold build_document. intros H. split_rbind H.
  injection H as <-. cbn.
  repeat match goal with
         | Hg : getitem _ _ = Ok _ |- _ => apply getitem_Ok in Hg
         end.
  repeat split; eauto.
Qed.

(** A record that lacks one of the keys 'id', 'title',
    'extendedIngredients', 'instructions' and 'summary' is never stored:
    its attempt leaves the store, the cache and the cache file as they
    are.  (So the default that the program gives for a missing summary
    never reaches the store.) *)
Theorem record_without_required_key (env : Env) (recipe : Recipe) (w : World)
    (Hmissing : r_id recipe = None \/ r_title recipe = None
                \/ r_extendedIngredients recipe = None
                \/ r_instructions recipe = None \/ r_summary recipe = None) :
  same_state w (snd (attempt env recipe w)).
Proof.
  apply attempt_settled. intros (n & doc & entries & Hid & Hb & _).
  apply build_document_requires in Hb as ([t Ht] & [i Hi] & [s Hs] & Hsum).
  destruct Hmissing as [H | [H | [H | [H | H]]]]; congruence.
Qed.

Lemma record_without_required_key_witness :
  same_state world_knowing_7
    (snd (attempt quiet_env broken_recipe_8 world_knowing_7)).
Proof.
  apply record_without_required_key. right. right. left. reflexivity.
Defined.

(** ** What a batch changes *)

Lemma store_recipes_step env recipe recipes w :
  snd (store_recipes env (recipe :: recipes) w)
  = snd (store_recipes env recipes (snd (attempt env recipe w)))
  \/ snd (store_recipes env (recipe :: recipes) w) = snd (attempt env recipe w).
Proof.
  rewrite store_recipes_cons.
  destruct (attempt env recipe w) as [[[]|e] w1]; [left | right]; reflexivity.
Qed.

Lemma grows_attempt env recipe : grows (attempt env recipe).
Proof.
  apply grows_try_except; [apply grows_store_recipe | apply grows_report_failure].
Qed.

Lemma store_recipes_keeps_known env recipes : forall w key,
  contains (uid_cache w) key = true ->
  firestore (snd (store_recipes env recipes w)) !! key = firestore w !! key.
Proof.
  intros w key Hknown. revert w Hknown. induction recipes as [|recipe recipes IH]; intros w Hknown.
  - reflexivity.
  - assert (Hstep : firestore (snd (attempt env recipe w)) !! key = firestore w !! key).
    { destruct (attempt_effect env recipe w)
        as [(_ & _ & ->) | (n & doc & entries & _ & _ & _ & Hc & Hk & ->)];
        [reflexivity|].
      cbn. apply lookup_insert_ne. rewrite Hc in Hknown. congruence. }
    assert (Hstill : contains (uid_cache (snd (attempt env recipe w))) key = true)
      by (apply (grows_attempt env recipe w), Hknown).
    destruct (store_recipes_step env recipe recipes w) as [-> | ->].
    + rewrite IH by exact Hstill. exact Hstep.
    + exact Hstep.
Qed.

(** A batch never writes to the document of an identifier that the cache
    marks present when the batch begins: that document stays as it is. *)
Theorem no_overwrite_of_known (env : Env) (recipes : list Recipe) (w : World)
    (key : pystr) (Hknown : contains (uid_cache w) key = true) :
  firestore (snd (store_recipes env recipes w)) !! key = firestore w !! key.
Proof. apply store_recipes_keeps_known, Hknown. Qed.

Lemma no_overwrite_of_known_witness :
  firestore (snd (store_recipes quiet_env [known_recipe_7; new_recipe_8] world_knowing_7))
  !! py "7" = None.
Proof.
  rewrite (no_overwrite_of_known quiet_env _ world_knowing_7 (py "7") eq_refl).
  reflexivity.
Defined.

(** Whatever document a batch sets or replaces, its identifier is marked
    present in the cache when the batch ends. *)
Theorem written_is_marked (env : Env) (recipes : list Recipe) (w : World)
    (key : pystr)
    (Hwritten : firestore (snd (store_recipes env recipes w)) !! key
                <> firestore w !! key) :
  contains (uid_cache (snd (store_recipes env recipes w))) key = true.
Proof.
  revert w Hwritten. induction recipes as [|recipe recipes IH]; intros w Hwritten.
  - exfalso. apply Hwritten. reflexivity.
  - pose proof (store_recipes_step env recipe recipes w) as Hstep.
    destruct (attempt_effect env recipe w)
      as [(_ & _ & Hf) | (n & doc & entries & _ & _ & _ & Hc & Hk & Hrun)].
    + destruct Hstep as [Heq | Heq]; rewrite Heq in Hwritten |- *.
      * apply IH. rewrite Hf. exact Hwritten.
      * exfalso. apply Hwritten. rewrite Hf. reflexivity.
    + assert (Hmark : contains (uid_cache (snd (attempt env recipe w))) (str_of_int n) = true).
      { rewrite Hrun. cbn. rewrite contains_dict, dict_get_set_eq. reflexivity. }
      assert (Hother : key <> str_of_int n ->
                firestore (snd (attempt env recipe w)) !! key = firestore w !! key).
      { intros Hne. rewrite Hrun. cbn. apply lookup_insert_ne. congruence. }
      destruct (decide (key = str_of_int n)) as [-> | Hne].
      * destruct Hstep as [Heq | Heq]; rewrite Heq; [|exact Hmark].
        apply (grows_store_recipes env recipes _), Hmark.
      * destruct Hstep as [Heq | Heq]; rewrite Heq in Hwritten |- *.
        -- apply IH. rewrite (Hother Hne). exact Hwritten.
        -- exfalso. apply Hwritten, Hother, Hne.
Qed.

Lemma written_is_marked_witness :
  contains
    (uid_cache (snd (store_recipes quiet_env [known_recipe_7; new_recipe_8] world_knowing_7)))
    (py "8") = true.
Proof.
  apply written_is_marked. vm_compute. discriminate.
Defined.

(** The cache file is written through: after a batch either the cache,
    the file and the store are as before, or the file holds exactly what
    [json.dump] writes for the cache as it then is. *)
Theorem cache_file_written_through (env : Env) (recipes : list Recipe) (w : World) :
  same_state w (snd (store_recipes env recipes w))
  \/ cache_file (snd (store_recipes env recipes w))
     = Some (FileText (json_dumps (uid_cache (snd (store_recipes env recipes w))))).
Proof.
  revert w. induction recipes as [|recipe recipes IH]; intros w.
  - left. apply same_state_refl.
  - assert (Hfirst : same_state w (snd (attempt env recipe w))
                     \/ cache_file (snd (attempt env recipe w))
                        = Some (FileText (json_dumps (uid_cache (snd (attempt env recipe w)))))).
    { destruct (attempt_effect env recipe w)
        as [H | (n & doc & entries & _ & _ & _ & _ & _ & ->)]; [left; exact H|].
      right. reflexivity. }
    destruct (store_recipes_step env recipe recipes w) as [-> | ->]; [|exact Hfirst].
    destruct (IH (snd (attempt env recipe w))) as [Hsame | Hfile]; [|right; exact Hfile].
    destruct Hfirst as [Hsame1 | Hfile1].
    + left. eapply same_state_trans; eassumption.
    + right. destruct Hsame as (Hc & Hf & _). rewrite Hc, Hf. exact Hfile1.
Qed.

(** ** Processing a batch again *)

Lemma would_store_same_cache env w w' recipe :
  uid_cache w' = uid_cache w -> would_store env w recipe -> would_store env w' recipe.
Proof.
  intros Hc (n & doc & entries & H). exists n, doc, entries. rewrite Hc. exact H.
Qed.

(** After its attempt a record would not be stored any more. *)
Lemma attempt_settles env recipe w :
  ~ would_store env (snd (attempt env recipe w)) recipe.
Proof.
  intros (n & doc & entries1 & Hid & Hb & Hs & Hc1 & Hk1).
  assert (Hmark : forall entries,
             contains (PDict (dict_set (str_of_int n) (PBool true) entries))
               (str_of_int n) = true).
  { intros entries. rewrite contains_dict, dict_get_set_eq. reflexivity. }
  destruct (attempt_effect env recipe w)
    as [(Hc & _) | (n' & doc' & entries & Hid' & _ & _ & _ & _ & Hrun)].
  - (* nothing changed, so the record was to be stored, and was *)
    assert (Hcw : uid_cache w = PDict entries1) by congruence.
    rewrite (attempt_new env recipe n doc entries1 w Hid Hb Hs Hcw Hk1) in Hc1.
    cbn in Hc1. injection Hc1 as Heq.
    specialize (Hmark entries1). rewrite Heq in Hmark. congruence.
  - rewrite Hrun in Hc1. cbn in Hc1. injection Hc1 as Heq.
    assert (n' = n) by congruence. subst n'.
    specialize (Hmark entries). rewrite Heq in Hmark. congruence.
Qed.

(** A record that would not be stored stays so while other records are
    tried. *)
Lemma settled_after_attempt env recipe other w :
  ~ would_store env w recipe ->
  ~ would_store env (snd (attempt env other w)) recipe.
Proof.
  intros Hnot (n & doc & entries1 & Hid & Hb & Hs & Hc1 & Hk1). apply Hnot.
  destruct (attempt_effect env other w)
    as [(Hc & _) | (n' & doc' & entries & _ & _ & _ & Hc & _ & Hrun)].
  - exists n, doc, entries1. rewrite <- Hc. auto.
  - exists n, doc, entries. repeat (split; [assumption|]).
    rewrite Hrun in Hc1. cbn in Hc1. injection Hc1 as <-.
    destruct (contains (PDict entries) (str_of_int n)) eqn:Hk; [|reflexivity].
    apply (cache_le_dict_set (str_of_int n') entries (str_of_int n)) in Hk.
    congruence.
Qed.

Lemma settled_after_batch env recipe recipes : forall w,
  ~ would_store env w recipe ->
  ~ would_store env (snd (store_recipes env recipes w)) recipe.
Proof.
  induction recipes as [|other recipes IH]; intros w Hnot; [exact Hnot|].
  pose proof (settled_after_attempt env recipe other w Hnot) as Hnext.
  destruct (store_recipes_step env other recipes w) as [-> | ->];
    [apply IH, Hnext | exact Hnext].
Qed.

(** An attempt that raises has changed nothing, and raises again from
    any world with the same cache. *)
Lemma attempt_raises env recipe w e w1 :
  attempt env recipe w = (Raise e, w1) ->
  w1 = w
  /\ forall w2, uid_cache w2 = uid_cache w -> attempt env recipe w2 = (Raise e, w2).
Proof.
  rewrite attempt_cases. intros H.
  destruct (store_recipe env recipe w) as [[[]|e0] w0] eqn:Hs; [discriminate|].
  pose proof (store_recipe_raises_early _ _ _ _ _ Hs). subst w0.
  rewrite report_failure_cases in H.
  destruct (r_title recipe) as [title|] eqn:Ht; [discriminate|].
  injection H as <- <-. split; [reflexivity|].
  intros w2 Hc. rewrite attempt_cases.
  assert (Hs2 : store_recipe env recipe w2 = (Raise e0, w2)).
  { rewrite store_recipe_cases in Hs |- *. rewrite Hc.
    destruct (r_id recipe); [|congruence].
    destruct (uid_cache w); try congruence.
    destruct (truthy _); [rewrite Ht in Hs |- *; congruence|].
    destruct (build_document recipe); [|congruence].
    destruct (store_fault env _); [congruence | discriminate]. }
  rewrite Hs2, report_failure_cases, Ht. reflexivity.
Qed.

Lemma reprocess env recipes : forall w w2,
  same_state (snd (store_recipes env recipes w)) w2 ->
  same_state w2 (snd (store_recipes env recipes w2)).
Proof.
  induction recipes as [|recipe recipes IH]; intros w w2 Hsame.
  - apply same_state_refl.
  - rewrite store_recipes_cons in Hsame.
    destruct (attempt env recipe w) as [[[]|e] w1] eqn:Hrun.
    + (* the record was tried and the batch went on *)
      assert (Hset : ~ would_store env w2 recipe).
      { intros Hw. apply (settled_after_batch env recipe recipes w1).
        - replace w1 with (snd (attempt env recipe w)) by (rewrite Hrun; reflexivity).
          apply attempt_settles.
        - destruct Hsame as (Hc & _). eapply would_store_same_cache; [|exact Hw].
          symmetry. exact Hc. }
      pose proof (attempt_settled env recipe w2 Hset) as Hstay.
      destruct (store_recipes_step env recipe recipes w2) as [-> | ->]; [|exact Hstay].
      eapply same_state_trans; [exact Hstay|].
      apply (IH w1). eapply same_state_trans; [exact Hsame | exact Hstay].
    + (* the batch ended at this record, and ends there again *)
      cbn [snd] in Hsame.
      destruct (attempt_raises _ _ _ _ _ Hrun) as [-> Hagain].
      rewrite store_recipes_cons, (Hagain w2) by apply Hsame.
      apply same_state_refl.
Qed.

(** Processing a batch a second time changes nothing: from the world a
    batch has left, the same batch leaves the cache, the cache file and
    the store as they are. *)
Theorem second_pass_changes_nothing (env : Env) (recipes : list Recipe) (w : World) :
  same_state (snd (store_recipes env recipes w))
    (snd (store_recipes env recipes (snd (store_recipes env recipes w)))).
Proof. apply (reprocess env recipes w), same_state_refl. Qed.

(** ** Saving and loading *)

(** What [save_uid_cache] writes for a cache that maps identifiers to
    [True], [load_uid_cache] reads back as that cache. *)
Theorem save_then_load (w : World) (Hok : cache_ok (uid_cache w)) :
  load_uid_cache (snd (save_uid_cache w))
  = (Ok (uid_cache w), snd (save_uid_cache w)).
Proof.
  destruct Hok as (entries & Hc & Hnd & Hall).
  rewrite (load_uid_cache_dumped (snd (save_uid_cache w)) entries);
    [rewrite Hc; reflexivity | cbn; rewrite Hc; reflexivity | assumption..].
Qed.

Lemma save_then_load_witness :
  fst (load_uid_cache (snd (save_uid_cache world_knowing_7)))
  = Ok (PDict [(py "7", PBool true)]).
Proof.
  rewrite (save_then_load world_knowing_7); [reflexivity|].
  exists [(py "7", PBool true)]. split; [reflexivity|]. split.
  - apply NoDup_singleton.
  - repeat constructor.
Defined.

(** ** The request to the source *)

Lemma fetch_same_state env w : same_state w (snd (fetch_recipes env w)).
Proof.
  rewrite fetch_recipes_cases.
  destruct (http_reply env) as [msg | status body]; [apply same_state_with_events|].
  destruct (is_error_status status); [apply same_state_with_events|].
  destruct body as [e | | [recipes|]]; try apply same_state_with_events.
  destruct (is_request_exception e); apply same_state_with_events.
Qed.

(** [fetch_recipes] touches neither the cache nor its file nor the
    store, and no [RequestException] leaves it: such an exception, of
    whatever step, ends as the empty list. *)
Theorem fetch_recipes_contains_request_errors (env : Env) (w : World) :
  same_state w (snd (fetch_recipes env w))
  /\ (forall e, fst (fetch_recipes env w) = Raise e -> is_request_exception e = false)
  /\ (forall e,
        is_request_exception e = true ->
        forall status,
          http_reply env = HttpResponse status (NotJson e) ->
          fst (fetch_recipes env w) = Ok []).
Proof.
  split; [apply fetch_same_state|]. split.
  - intros e. rewrite fetch_recipes_cases.
    destruct (http_reply env) as [msg | status body]; [discriminate|].
    destruct (is_error_status status); [discriminate|].
    destruct body as [e0 | | [recipes|]]; cbn; try (intros [= <-]; reflexivity);
      try discriminate.
    destruct (is_request_exception e0) eqn:He0; [discriminate|].
    intros [= <-]. exact He0.
  - intros e He status Hr. rewrite fetch_recipes_cases, Hr.
    destruct (is_error_status status); [reflexivity|]. rewrite He. reflexivity.
Qed.

(** ** The whole run *)

Lemma all_present_contains ids key :
  In key ids -> contains (PDict (all_present ids)) key = true.
Proof.
  intros Hin. rewrite contains_dict.
  assert (Hg : dict_get key (all_present ids) = Some (PBool true)).
  { induction ids as [|doc_id ids IH]; [destruct Hin|].
    cbn [all_present List.map dict_get].
    destruct (decide (key = doc_id)) as [->|Hne]; [reflexivity|].
    apply IH. destruct Hin as [Heq | Hin]; [congruence | exact Hin]. }
  rewrite Hg. reflexivity.
Qed.

Lemma main_after_initialize env w w1 :
  initialize_uid_cache w = (Ok tt, w1) ->
  exists w2,
    same_state w1 w2
    /\ (snd (main env w) = w2
        \/ exists recipes, same_state
                             (snd (store_recipes env recipes w2)) (snd (main env w))).
Proof.
  intros Hi. rewrite main_cases, Hi.
  pose proof (fetch_same_state env w1) as Hf.
  destruct (fetch_recipes env w1) as [[[|recipe recipes]|e] w2]; cbn [snd] in *.
  - exists w2. split; [exact Hf|]. right. exists [].
    cbn. apply same_state_with_events.
  - exists w2. split; [exact Hf|]. right. exists (recipe :: recipes).
    destruct (store_recipes env (recipe :: recipes) w2) as [[[]|e] w3]; cbn [snd];
      [apply same_state_with_events | apply same_state_refl].
  - exists w2. split; [exact Hf|]. left. reflexivity.
Qed.

(** When the local cache comes up empty and is hydrated, the run
    overwrites no document that the store already holds, whatever the
    source delivers. *)
Theorem hydration_protects_stored (env : Env) (w : World) (key : pystr)
    (Hload : load_uid_cache w = (Ok (PDict []), w))
    (Hstored : is_Some (firestore w !! key)) :
  firestore (snd (main env w)) !! key = firestore w !! key.
Proof.
  pose proof (initialize_hydrates w Hload) as Hi. cbv zeta in Hi.
  destruct (main_after_initialize env w _ Hi) as (w2 & (Hc & _ & Hf) & Hmain).
  cbn in Hc, Hf.
  assert (Hknown : contains (uid_cache w2) key = true).
  { rewrite Hc. apply all_present_contains, listing_ids, Hstored. }
  destruct Hmain as [-> | (recipes & (_ & _ & Hsame))].
  - rewrite Hf. reflexivity.
  - rewrite Hsame, (store_recipes_keeps_known env recipes w2 key Hknown), Hf.
    reflexivity.
Qed.

Lemma hydration_protects_stored_witness :
  firestore (snd (main env_delivering_41 world_with_remote_41)) !! py "41"
  = Some sample_document.
Proof.
  rewrite (hydration_protects_stored env_delivering_41 world_with_remote_41 (py "41")
             eq_refl).
  - reflexivity.
  - exists sample_document. reflexivity.
Defined.

Lemma initialize_returns w entries :
  load_uid_cache w = (Ok (PDict entries), w) ->
  exists w1, initialize_uid_cache w = (Ok tt, w1).
Proof.
  intros Hload. destruct entries as [|kv entries].
  - rewrite (initialize_hydrates w Hload). eauto.
  - rewrite (initialize_keeps w _ Hload) by discriminate. eauto.
Qed.

(** A run ends without exception, its last line being one of the two
    closing lines, whenever loading the cache file gives a dictionary and
    the reply of the source is a failure of the request or delivers
    recipes that all carry a title. *)
Theorem main_ends_cleanly (env : Env) (w : World) (entries : list (pystr * pyval))
    (Hload : load_uid_cache w = (Ok (PDict entries), w))
    (Hreply : reply_accepted (http_reply env)) :
  exists w' evs line,
    main env w = (Ok tt, w')
    /\ events w' = evs ++ [Printed line]
    /\ is_closing_line line.
Proof.
  destruct (initialize_returns w entries Hload) as (w1 & Hi).
  rewrite main_cases, Hi, fetch_recipes_cases.
  assert (Hnothing : forall w2,
             exists w' evs line,
               (Ok tt, with_events w2 [Printed LogNothingToStore]) = (Ok tt, w')
               /\ events w' = evs ++ [Printed line] /\ is_closing_line line).
  { intros w2. exists (with_events w2 [Printed LogNothingToStore]), (events w2),
      LogNothingToStore.
    split; [reflexivity|]. split; [reflexivity | right; reflexivity]. }
  unfold reply_accepted in Hreply.
  destruct (http_reply env) as [msg | status body]; [apply Hnothing|].
  destruct (is_error_status status); [apply Hnothing|].
  destruct Hreply as [Hr | Hr]; [discriminate|].
  destruct body as [e | | [recipes|]]; try contradiction.
  - rewrite Hr. apply Hnothing.
  - destruct recipes as [|recipe recipes]; [apply Hnothing|].
    destruct (store_recipes_titled env (recipe :: recipes) (with_events w1 [HttpGet]) Hr)
      as (w3 & ->).
    exists (with_events w3 [Printed LogAllStored]), (events w3), LogAllStored.
    split; [reflexivity|]. split; [reflexivity | left; reflexivity].
Qed.

Lemma main_ends_cleanly_witness :
  exists w', main env_delivering_41 world_with_remote_41 = (Ok tt, w').
Proof.
  destruct (main_ends_cleanly env_delivering_41 world_with_remote_41 [] eq_refl)
    as (w' & evs & line & Hrun & _).
  - right. repeat constructor. eexists. reflexivity.
  - exists w'. exact Hrun.
Defined.

(** ** What reaches the store, and what reaches the cache *)

(** The store holds, after a batch, only what it held before and
    documents built from records of the batch, each under the record's
    identifier. *)
Theorem store_holds_built_documents (env : Env) (recipes : list Recipe) (w : World)
    (key : pystr) (doc : Document)
    (Hdoc : firestore (snd (store_recipes env recipes w)) !! key = Some doc) :
  firestore w !! key = Some doc
  \/ exists recipe n,
       In recipe recipes
       /\ r_id recipe = Some n
       /\ key = str_of_int n
       /\ build_document recipe = Ok doc.
Proof.
  revert w Hdoc. induction recipes as [|recipe recipes IH]; intros w Hdoc.
  - left. exact Hdoc.
  - assert (Hfirst : forall d,
               firestore (snd (attempt env recipe w)) !! key = Some d ->
               firestore w !! key = Some d
               \/ exists n, r_id recipe = Some n /\ key = str_of_int n
                            /\ build_document recipe = Ok d).
    { intros d Hd.
      destruct (attempt_effect env recipe w)
        as [(_ & _ & Hf) | (n & doc' & entries & Hid & Hb & _ & _ & _ & Hrun)].
      - left. rewrite <- Hf. exact Hd.
      - rewrite Hrun in Hd. cbn in Hd.
        destruct (decide (str_of_int n = key)) as [<- | Hne].
        + rewrite lookup_insert_eq in Hd. injection Hd as <-. right. eauto.
        + rewrite lookup_insert_ne in Hd by exact Hne. left. exact Hd. }
    assert (Hlift : firestore (snd (attempt env recipe w)) !! key = Some doc ->
              firestore w !! key = Some doc
              \/ exists recipe0 n,
                   In recipe0 (recipe :: recipes) /\ r_id recipe0 = Some n
                   /\ key = str_of_int n /\ build_document recipe0 = Ok doc).
    { intros Hd. destruct (Hfirst doc Hd) as [H | (n & Hid & Hk & Hb)]; [left; exact H|].
      right. exists recipe, n. cbn [In]. auto. }
    destruct (store_recipes_step env recipe recipes w) as [Heq | Heq];
      rewrite Heq in Hdoc; [|apply Hlift, Hdoc].
    destruct (IH _ Hdoc) as [Hd | (recipe0 & n & Hin & Hid & Hk & Hb)];
      [apply Hlift, Hd|].
    right. exists recipe0, n. cbn [In]. auto.
Qed.

Lemma store_holds_built_documents_witness :
  exists doc,
    firestore (snd (store_recipes quiet_env [known_recipe_7; new_recipe_8] world_knowing_7))
    !! py "8" = Some doc
    /\ build_document new_recipe_8 = Ok doc.
Proof.
  destruct (firestore (snd (store_recipes quiet_env [known_recipe_7; new_recipe_8]
                              world_knowing_7)) !! py "8") as [doc|] eqn:Hdoc;
    [|discriminate Hdoc].
  exists doc. split; [reflexivity|].
  destruct (store_holds_built_documents quiet_env _ world_knowing_7 (py "8") doc Hdoc)
    as [Hold | (recipe & n & Hin & Hid & Hkey & Hb)]; [discriminate Hold|].
  destruct Hin as [<- | [<- | []]]; [|exact Hb].
  injection Hid as <-. discriminate Hkey.
Defined.

Lemma attempt_keeps_dict env recipe w entries :
  uid_cache w = PDict entries ->
  exists entries', uid_cache (snd (attempt env recipe w)) = PDict entries'.
Proof.
  intros Hc.
  destruct (attempt_effect env recipe w)
    as [(Hsame & _) | (n & doc & es & _ & _ & _ & _ & _ & ->)].
  - exists entries. congruence.
  - eexists. reflexivity.
Qed.

(** In a batch whose records all carry a title, processed with a cache
    that is a dictionary, every record that can be stored ends marked
    present in the cache: it was so before, or it has been stored. *)
Theorem storable_record_ends_marked (env : Env) (recipes : list Recipe) (w : World)
    (entries : list (pystr * pyval)) (recipe : Recipe) (n : Z) (doc : Document)
    (Hdict : uid_cache w = PDict entries)
    (Htitles : Forall (fun recipe => is_Some (r_title recipe)) recipes)
    (Hin : In recipe recipes)
    (Hstorable : storable env recipe n doc) :
  contains (uid_cache (snd (store_recipes env recipes w))) (str_of_int n) = true.
Proof.
  revert w entries Hdict Hin.
  induction recipes as [|first recipes IH]; intros w entries Hdict Hin; [destruct Hin|].
  apply Forall_cons in Htitles as [[title Htitle] Htitles].
  rewrite store_recipes_cons.
  pose proof (attempt_titled env first title w Htitle) as Hrun.
  destruct (attempt_keeps_dict env first w entries Hdict) as (entries1 & Hdict1).
  pose proof (attempt_settles env first w) as Hsettled.
  rewrite Hrun in Hdict1, Hsettled |- *. cbn [snd] in Hdict1, Hsettled.
  destruct Hin as [-> | Hin]; [|eapply IH; eassumption].
  destruct Hstorable as (Hid & Hb & Hs).
  match goal with
  | |- contains (uid_cache (snd (store_recipes env recipes ?w1))) _ = true =>
      apply (grows_store_recipes env recipes w1)
  end.
  rewrite Hdict1.
  destruct (contains (PDict entries1) (str_of_int n)) eqn:Hk; [reflexivity|].
  exfalso. apply Hsettled. exists n, doc, entries1. auto.
Qed.

Lemma storable_record_ends_marked_witness :
  contains
    (uid_cache (snd (store_recipes quiet_env [known_recipe_7; new_recipe_8] world_knowing_7)))
    (str_of_int 8) = true.
Proof.
  destruct (build_document new_recipe_8) as [doc|e] eqn:Hdoc; [|discriminate Hdoc].
  apply (storable_record_ends_marked quiet_env [known_recipe_7; new_recipe_8]
           world_knowing_7 [(py "7", PBool true)] new_recipe_8 8 doc eq_refl).
  - repeat constructor; eexists; reflexivity.
  - right. left. reflexivity.
  - split; [reflexivity|]. split; [exact Hdoc | reflexivity].
Defined.

(** ** What does not write to the store *)

Lemma keeps_store_bind {A B} (m : M A) (k : A -> M B) :
  keeps_store m -> (forall a, keeps_store (k a)) -> keeps_store (bind m k).
Proof.
  intros Hm Hk w. unfold bind. specialize (Hm w).
  destruct (m w) as [[a|e] w1]; cbn [snd] in *; [|exact Hm].
  rewrite Hk. exact Hm.
Qed.

Lemma keeps_store_cache_setitem key : keeps_store (cache_setitem key).
Proof.
  intros w. unfold cache_setitem, bind, get_uid_cache, set_uid_cache, emit, raise.
  destruct (uid_cache w); reflexivity.
Qed.

Lemma keeps_store_for_each keys : keeps_store (for_each_M keys cache_setitem).
Proof.
  induction keys as [|key keys IH]; [intros w; reflexivity|].
  apply keeps_store_bind; [apply keeps_store_cache_setitem | intros _; exact IH].
Qed.

Lemma keeps_store_initialize : keeps_store initialize_uid_cache.
Proof.
  intros w. destruct (load_uid_cache_outcomes w) as [(loaded & Hl) | (e & Hl & _)];
    [|rewrite (initialize_uid_cache_raises w e Hl); reflexivity].
  rewrite (initialize_uid_cache_cases w loaded Hl). cbv zeta.
  destruct (truthy loaded); [reflexivity|].
  match goal with
  | |- firestore (snd (?m ?w1)) = _ =>
      assert (Hk : keeps_store m)
        by (apply keeps_store_bind; [apply keeps_store_for_each | intros _ w0; reflexivity]);
      rewrite (Hk w1)
  end.
  reflexivity.
Qed.

(** Initialization, hydration included, never writes to the store; and
    a run whose request fails leaves the store as it found it, and the
    cache and its file as initialization left them. *)
Theorem failed_fetch_leaves_store (env : Env) (w : World)
    (Hfailed : fetch_failed (http_reply env)) :
  firestore (snd (initialize_uid_cache w)) = firestore w
  /\ firestore (snd (main env w)) = firestore w
  /\ same_state (snd (initialize_uid_cache w)) (snd (main env w)).
Proof.
  split; [apply keeps_store_initialize|].
  assert (Hsame : same_state (snd (initialize_uid_cache w)) (snd (main env w))).
  { rewrite main_cases.
    destruct (initialize_uid_cache w) as [[[]|e] w1]; [|apply same_state_refl].
    cbn [snd]. rewrite fetch_recipes_cases.
    destruct Hfailed as [(msg & ->) | (status & body & -> & ->)]; cbn [snd];
      repeat split. }
  split; [|exact Hsame].
  destruct Hsame as (_ & _ & ->). apply keeps_store_initialize.
Qed.

Lemma failed_fetch_leaves_store_witness :
  firestore (snd (main (env_of (NetworkFailure "timed out")) world_with_remote_41))
  = {[ py "41" := sample_document ]}.
Proof.
  destruct (failed_fetch_leaves_store (env_of (NetworkFailure "timed out"))
              world_with_remote_41) as (_ & Hstore & _).
  - left. eexists. reflexivity.
  - exact Hstore.
Defined.

(** ** Identifiers and document names *)

Lemma py_inj s t : py s = py t -> s = t.
Proof.
  unfold py. intros H.
  rewrite <- (string_of_list_ascii_of_string s), <- (string_of_list_ascii_of_string t).
  f_equal. revert H.
  generalize (list_ascii_of_string s) (list_ascii_of_string t).
  induction l as [|a l IH]; intros [|b l'] H; try discriminate; [reflexivity|].
  cbn [List.map] in H. injection H as Hab Hl.
  f_equal; [|apply IH, Hl].
  rewrite <- (ascii_N_embedding a), <- (ascii_N_embedding b), Hab. reflexivity.
Qed.

Lemma to_int_not_nil z : Z.to_int z <> Decimal.Pos Decimal.Nil /\ Z.to_int z <> Decimal.Neg Decimal.Nil.
Proof.
  destruct z as [|p|p]; cbn; split; try discriminate;
    intros [= H]; exact (DecimalPos.Unsigned.to_uint_nonnil p H).
Qed.

Lemma str_of_int_inj n m : str_of_int n = str_of_int m -> n = m.
Proof.
  unfold str_of_int. intros H. apply py_inj in H.
  apply DecimalZ.to_int_inj.
  destruct (to_int_not_nil n) as [Hn1 Hn2], (to_int_not_nil m) as [Hm1 Hm2].
  pose proof (DecimalString.NilZero.isi _ Hn1 Hn2) as En.
  pose proof (DecimalString.NilZero.isi _ Hm1 Hm2) as Em.
  rewrite H in En. congruence.
Qed.

Lemma attempt_other_identifier env recipe w m :
  r_id recipe <> Some m ->
  firestore (snd (attempt env recipe w)) !! str_of_int m = firestore w !! str_of_int m
  /\ contains (uid_cache (snd (attempt env recipe w))) (str_of_int m)
     = contains (uid_cache w) (str_of_int m).
Proof.
  intros Hother.
  destruct (attempt_effect env recipe w)
    as [(-> & _ & ->) | (n & doc & entries & Hid & _ & _ & Hc & _ & ->)];
    [split; reflexivity|].
  assert (Hne : str_of_int n <> str_of_int m).
  { intros Heq. apply str_of_int_inj in Heq. congruence. }
  cbn. split.
  - apply lookup_insert_ne. exact Hne.
  - rewrite Hc, !contains_dict, dict_get_set_ne by exact Hne. reflexivity.
Qed.

(** The integer identifiers of a batch name its documents one to one: for
    an integer that is the identifier of no record of the batch, the
    document named by its decimal string and its mark in the cache are
    after the batch what they were before. *)
Theorem batch_touches_only_its_identifiers (env : Env) (recipes : list Recipe)
    (w : World) (m : Z)
    (Hother : forall recipe, In recipe recipes -> r_id recipe <> Some m) :
  firestore (snd (store_recipes env recipes w)) !! str_of_int m
  = firestore w !! str_of_int m
  /\ contains (uid_cache (snd (store_recipes env recipes w))) (str_of_int m)
     = contains (uid_cache w) (str_of_int m).
Proof.
  revert w. induction recipes as [|recipe recipes IH]; intros w; [split; reflexivity|].
  destruct (attempt_other_identifier env recipe w m (Hother recipe (or_introl eq_refl)))
    as [Hstore Hmark].
  destruct (store_recipes_step env recipe recipes w) as [-> | ->]; [|split; assumption].
  destruct (IH (fun r Hr => Hother r (or_intror Hr)) (snd (attempt env recipe w)))
    as [-> ->].
  split; assumption.
Qed.

Lemma batch_touches_only_its_identifiers_witness :
  firestore (snd (store_recipes quiet_env [known_recipe_7; new_recipe_8] world_knowing_7))
    !! str_of_int 80 = None.
Proof.
  refine (eq_trans (proj1 (batch_touches_only_its_identifiers quiet_env
            [known_recipe_7; new_recipe_8] world_knowing_7 80%Z _)) eq_refl).
  intros recipe [<- | [<- | []]]; discriminate.
Defined.

(** ** The fields computed from the summary *)

Lemma digit_chars_value_nonneg s : (0 <= digit_chars_value s)%Z.
Proof.
  unfold digit_chars_value.
  assert (H : forall acc, (0 <= acc)%Z ->
            (0 <= fold_left (fun acc c => (10 * acc + Z.of_N (c - 48))%Z) s acc)%Z).
  { induction s as [|c s IH]; intros acc Hacc; [exact Hacc|].
    cbn [fold_left]. apply IH. lia. }
  apply H. lia.
Qed.

Lemma derive_calories_nonneg summary calories :
  derive_calories (extract_and_categorize summary) = Ok calories -> (0 <= calories)%Z.
Proof.
  rewrite calories_of_last_fragment.
  destruct (last _) as [tag|]; [|intros [= <-]; lia].
  destruct (List.filter is_ascii_digit tag) as [|c ds]; [discriminate|].
  intros [= <-]. apply digit_chars_value_nonneg.
Qed.

(** In a document that is built, the fields computed from the summary
    agree with the summary that is stored beside them: the nutritional
    map is the one extracted from the stored summary, the calorie count
    is the one derived from that map and is never negative, it is 0 when
    the map has no Calories entry, and the cost is the map's entry as a
    string, or the integer 0 without one. *)
Theorem built_document_is_consistent (recipe : Recipe) (doc : Document)
    (Hbuilt : build_document recipe = Ok doc) :
  r_summary recipe = Some (d_summary doc)
  /\ d_nutritional doc = extract_and_categorize (d_summary doc)
  /\ derive_calories (d_nutritional doc) = Ok (d_calories doc)
  /\ (0 <= d_calories doc)%Z
  /\ (d_nutritional doc !! "Calories"%string = None -> d_calories doc = 0%Z)
  /\ d_cost doc = match d_nutritional doc !! "Cost per serving"%string with
                  | Some cost => PStr cost
                  | None => PNum (py "0")
                  end.
Proof.
  unfold build_document in Hbuilt. split_rbind Hbuilt.
  injection Hbuilt as <-. cbn.
  repeat match goal with
         | Hg : getitem _ _ = Ok _ |- _ => apply getitem_Ok in Hg
         end.
  match goal with Hs : r_summary recipe = Some _ |- _ => rewrite Hs in *; cbn in * end.
  match goal with
  | Hc : derive_calories _ = Ok _ |- _ =>
      pose proof (derive_calories_nonneg _ _ Hc) as Hpos;
      repeat split; try assumption; try reflexivity;
      intros Hnone; unfold derive_calories in Hc; rewrite Hnone in Hc; congruence
  end.
Qed.

Lemma built_document_is_consistent_witness :
  match build_document new_recipe_8 with
  | Ok doc => d_nutritional doc = extract_and_categorize (d_summary doc)
  | Raise _ => False
  end.
Proof.
  destruct (build_document new_recipe_8) as [doc|e] eqn:Hbuilt.
  - exact (proj1 (proj2 (built_document_is_consistent new_recipe_8 doc Hbuilt))).
  - vm_compute in Hbuilt. discriminate.
Defined.
